(** * AstroKites: the forecast page's aggregation, statistics, extreme-event
    and chart-sampling code ([src/pages/forecast.jsx]), embedded in Rocq.

    JavaScript numbers are modelled by exact rationals ([Q]); a field of a
    daily record is a [jsval]: [undefined], [null] or a number.  Objects and
    [Map]s keyed by strings are association lists in insertion order, which is
    the order [Object.values] and [Map.prototype.forEach] follow. *)

From Stdlib Require Import List ZArith QArith Qminmax Qabs Qround Bool String.
From Stdlib Require Import Permutation Sorted DecimalString DecimalZ Lqa.
From Stdlib Require Import Ascii Lia.
Import ListNotations.

Local Open Scope string_scope.
Local Open Scope list_scope.
Local Open Scope Z_scope.

(** ** JavaScript values and operators *)

Module JS.

Inductive jsval : Type :=
| JUndefined
| JNull
| JNum (q : Q).

(** [ToNumber]: [null] is [0], [undefined] is [NaN] (here [None]). *)
Definition toNumber (v : jsval) : option Q :=
  match v with
  | JUndefined => None
  | JNull => Some 0%Q
  | JNum q => Some q
  end.

Definition Qltb (a b : Q) : bool := negb (Qle_bool b a).

(** [v > c] and [v < c] for a numeric literal [c]; a comparison with [NaN]
    is false. *)
Definition js_gt (v : jsval) (c : Q) : bool :=
  match toNumber v with
  | Some q => Qltb c q
  | None => false
  end.

Definition js_lt (v : jsval) (c : Q) : bool :=
  match toNumber v with
  | Some q => Qltb q c
  | None => false
  end.

(** [v !== undefined] *)
Definition defined (v : jsval) : bool :=
  match v with
  | JUndefined => false
  | _ => true
  end.

(** [v !== undefined && v !== null] *)
Definition present (v : jsval) : bool :=
  match v with
  | JNum _ => true
  | _ => false
  end.

(** [v ?? d] *)
Definition nullish (v d : jsval) : jsval :=
  match v with
  | JNum _ => v
  | _ => d
  end.

(** [v * c] for a value that is not [undefined] ([null * c] is [0 * c]).
    Every call site is guarded by [v !== undefined]; the remaining case,
    [NaN] in JavaScript, is never reached. *)
Definition times (v : jsval) (c : Q) : jsval :=
  match v with
  | JNum q => JNum (q * c)
  | JNull => JNum (0 * c)
  | JUndefined => JUndefined
  end.

(** The numbers of an array after
    [filter(x => x !== undefined && x !== null)]. *)
Fixpoint numbers (l : list jsval) : list Q :=
  match l with
  | [] => []
  | JNum q :: t => q :: numbers t
  | _ :: t => numbers t
  end.

(** [l.reduce((a, b) => a + b, 0)] *)
Definition sum (l : list Q) : Q := fold_left Qplus l 0%Q.

(** [Math.max(...l)] and [Math.min(...l)] of a non-empty array; on the
    empty array JavaScript answers an infinity, here [None]. *)
Definition mathMax (l : list Q) : option Q :=
  match l with
  | [] => None
  | x :: t => Some (fold_left Qmax t x)
  end.

Definition mathMin (l : list Q) : option Q :=
  match l with
  | [] => None
  | x :: t => Some (fold_left Qmin t x)
  end.

(** Rendered text: a literal, or [q.toFixed(digits) + suffix]. *)
Inductive display : Type :=
| Text (s : string)
| Fixed (q : Q) (digits : nat) (suffix : string).

(** [Array.prototype.sort(cmp)]: a stable sort; [cmp a b < 0] puts [a]
    first.  Insertion from the right keeps equal elements in input order. *)
Section Sort.
Context {A : Type} (cmp : A -> A -> Z).

Fixpoint insert (x : A) (l : list A) : list A :=
  match l with
  | [] => [x]
  | y :: t => if cmp x y <=? 0 then x :: y :: t else y :: insert x t
  end.

Definition sort (l : list A) : list A := fold_right insert [] l.
End Sort.

(** [a.localeCompare(b)], by code units. *)
Definition localeCompare (a b : string) : Z :=
  match String.compare a b with
  | Lt => -1
  | Eq => 0
  | Gt => 1
  end.

(** [String(n)] for an integer. *)
Definition toString (n : Z) : string := NilEmpty.string_of_int (Z.to_int n).

Fixpoint repeatString (pad : string) (n : nat) : string :=
  match n with
  | O => ""
  | S k => (pad ++ repeatString pad k)%string
  end.

(** [s.padStart(n, pad)] for a one-character [pad]. *)
Definition padStart (n : nat) (pad : string) (s : string) : string :=
  (repeatString pad (n - String.length s) ++ s)%string.

(** String-keyed objects and [Map]s, in insertion order. *)
Section Obj.
Context {V : Type}.

Fixpoint get (k : string) (o : list (string * V)) : option V :=
  match o with
  | [] => None
  | (k', v) :: t => if String.eqb k k' then Some v else get k t
  end.

Definition has (k : string) (o : list (string * V)) : bool :=
  match get k o with
  | Some _ => true
  | None => false
  end.

(** [o[k] = f(o[k])] for a key that may be missing (then nothing
    changes). *)
Fixpoint adjust (f : V -> V) (k : string) (o : list (string * V))
  : list (string * V) :=
  match o with
  | [] => []
  | (k', v) :: t =>
      if String.eqb k k' then (k', f v) :: t else (k', v) :: adjust f k t
  end.

(** [o[k] = v] / [m.set(k, v)]: an existing key keeps its place. *)
Definition set (k : string) (v : V) (o : list (string * V))
  : list (string * V) :=
  if has k o then adjust (fun _ => v) k o else o ++ [(k, v)].

(** [Object.values(o)] and the keys, both in insertion order. *)
Definition objectValues (o : list (string * V)) : list V := map snd o.
Definition objectKeys (o : list (string * V)) : list string := map fst o.
End Obj.

(** [new Set(l)] spread back to an array: first occurrences, in order. *)
Definition setOf (l : list Z) : list Z :=
  fold_left (fun s x => if existsb (Z.eqb x) s then s else s ++ [x]) l [].

Definition setOfStrings (l : list string) : list string :=
  fold_left (fun s x => if existsb (String.eqb x) s then s else s ++ [x])
    l [].

(** [l.indexOf(x)]: the first index that satisfies [eqb], or [-1]. *)
Fixpoint indexFrom {A : Type} (eqb : A -> bool) (l : list A) (i : Z) : Z :=
  match l with
  | [] => -1
  | y :: t => if eqb y then i else indexFrom eqb t (i + 1)
  end.

Definition indexOf (x : Z) (l : list Z) : Z := indexFrom (Z.eqb x) l 0.

(** [data.indexOf(x)] for a number [x]: strict equality with a number. *)
Definition indexOfNum (x : Q) (data : list jsval) : Z :=
  indexFrom (fun d => match d with JNum q => Qeq_bool q x | _ => false end)
    data 0.

(** [data[i]] *)
Definition at_ (data : list jsval) (i : Z) : jsval :=
  if i <? 0 then JUndefined else nth (Z.to_nat i) data JUndefined.

(** Exceptions. *)
Inductive outcome (A : Type) : Type :=
| Returns (a : A)
| Throws (e : string).
Arguments Returns {A} a.
Arguments Throws {A} e.

End JS.
Import JS.

(** ** Dates *)

(** The [Date] that [new Date(day.date)] builds, by its calendar fields
    ([getMonth] runs from 0 to 11); the time zone is taken to be UTC.  What
    the getters return in another zone is told by [reads], below. *)
Record Date : Type := mkDate {
  getFullYear : Z;
  getMonth : Z;
  getDate : Z
}.

(** Days since 1970-01-01 of a civil date (month from 1). *)
Definition daysFromCivil (y m d : Z) : Z :=
  let y' := if m <=? 2 then y - 1 else y in
  let era := y' / 400 in
  let yoe := y' - era * 400 in
  let mp := if 2 <? m then m - 3 else m + 9 in
  let doy := (153 * mp + 2) / 5 + d - 1 in
  let doe := yoe * 365 + yoe / 4 - yoe / 100 + doy in
  era * 146097 + doe - 719468.

(** The time value in milliseconds, which [new Date(b) - new Date(a)]
    subtracts. *)
Definition getTime (d : Date) : Z :=
  86400000 * daysFromCivil (getFullYear d) (getMonth d + 1) (getDate d).

(** [`${date.getFullYear()}-${String(date.getMonth()+1).padStart(2,"0")}`] *)
Definition monthKey (date : Date) : string :=
  (toString (getFullYear date) ++ "-" ++
   padStart 2 "0" (toString (getMonth date + 1)))%string.

(** ** processApiData *)

Record DailyRecord : Type := mkDaily {
  date : Date;
  temp : jsval;
  precip : jsval;
  wind : jsval
}.

(** One entry of [apiData.data]; either array may be missing. *)
Record ParamData : Type := mkParam {
  dates : option (list Date);
  values : option (list jsval)
}.

Record ApiData : Type := mkApi {
  data : option (list (string * ParamData));
  available : option (list string)
}.

(** An entry of [monthlyData] (its [monthName], a locale string that the
    result overwrites, is left out). *)
Record MonthAcc : Type := mkAcc {
  acc_month : string;
  acc_year : Z;
  tempSum : Q;
  tempCount : Z;
  precipSum : Q;
  precipCount : Z;
  windSum : Q;
  windCount : Z
}.

(** An entry of [result.monthly] (without its display label). *)
Record Monthly : Type := mkMonthly {
  month : string;
  year : Z;
  meanTemp : jsval;
  meanPrecip : jsval;
  meanWind : jsval;
  daysWithData : Z
}.

Record Processed : Type := mkProcessed {
  daily : list DailyRecord;
  monthly : list Monthly;
  hasData : bool;
  errorMessage : option string
}.

(** [data[param].values[index]] when
    [data[param] && data[param].values &&
     data[param].values[index] !== undefined]. *)
Definition paramValue (data : list (string * ParamData)) (param : string)
  (index : nat) : option jsval :=
  match get param data with
  | Some p =>
      match values p with
      | Some vs =>
          match nth index vs JUndefined with
          | JUndefined => None
          | v => Some v
          end
      | None => None
      end
  | None => None
  end.

(** The body of [available.forEach(param => ...)]. *)
Definition assignParam (data : list (string * ParamData)) (index : nat)
  (dailyObj : DailyRecord) (param : string) : DailyRecord :=
  match paramValue data param index with
  | Some v =>
      if String.eqb param "WS2M" then
        mkDaily (date dailyObj) (temp dailyObj) (precip dailyObj)
          (times v (36 # 10))
      else if String.eqb param "T2M" then
        mkDaily (date dailyObj) v (precip dailyObj) (wind dailyObj)
      else if String.eqb param "PRECTOT" then
        mkDaily (date dailyObj) (temp dailyObj) v (wind dailyObj)
      else dailyObj
  | None =>
      if String.eqb param "WS2M" then
        mkDaily (date dailyObj) (temp dailyObj) (precip dailyObj) JNull
      else if String.eqb param "T2M" then
        mkDaily (date dailyObj) JNull (precip dailyObj) (wind dailyObj)
      else if String.eqb param "PRECTOT" then
        mkDaily (date dailyObj) (temp dailyObj) JNull (wind dailyObj)
      else dailyObj
  end.

(** The callback of [dates.map((date, index) => ...)]. *)
Definition dailyObject (data : list (string * ParamData))
  (available : list string) (index : nat) (d : Date) : DailyRecord :=
  fold_left (assignParam data index) available
    (mkDaily d JUndefined JUndefined JUndefined).

Fixpoint mapi {A B : Type} (f : nat -> A -> B) (i : nat) (l : list A)
  : list B :=
  match l with
  | [] => []
  | x :: t => f i x :: mapi f (S i) t
  end.

Definition newAcc (key : string) (y : Z) : MonthAcc :=
  mkAcc key y 0 0 0 0 0 0.

Definition addTemp (v : jsval) (m : MonthAcc) : MonthAcc :=
  match v with
  | JNum q =>
      mkAcc (acc_month m) (acc_year m) (tempSum m + q) (tempCount m + 1)
        (precipSum m) (precipCount m) (windSum m) (windCount m)
  | _ => m
  end.

Definition addPrecip (v : jsval) (m : MonthAcc) : MonthAcc :=
  match v with
  | JNum q =>
      mkAcc (acc_month m) (acc_year m) (tempSum m) (tempCount m)
        (precipSum m + q) (precipCount m + 1) (windSum m) (windCount m)
  | _ => m
  end.

Definition addWind (v : jsval) (m : MonthAcc) : MonthAcc :=
  match v with
  | JNum q =>
      mkAcc (acc_month m) (acc_year m) (tempSum m) (tempCount m)
        (precipSum m) (precipCount m) (windSum m + q) (windCount m + 1)
  | _ => m
  end.

(** The body of [result.daily.forEach(day => ...)]: create the month's entry
    when it is missing, then add each present field. *)
Definition accumulate (monthlyData : list (string * MonthAcc))
  (day : DailyRecord) : list (string * MonthAcc) :=
  let key := monthKey (date day) in
  let md0 :=
    if has key monthlyData then monthlyData
    else monthlyData ++ [(key, newAcc key (getFullYear (date day)))] in
  let md1 := adjust (addTemp (temp day)) key md0 in
  let md2 := adjust (addPrecip (precip day)) key md1 in
  adjust (addWind (wind day)) key md2.

(** [count ? sum / count : null] *)
Definition meanOf (sum : Q) (count : Z) : jsval :=
  if count =? 0 then JNull else JNum (sum / inject_Z count).

Definition toMonthly (m : MonthAcc) : Monthly :=
  mkMonthly (acc_month m) (acc_year m)
    (meanOf (tempSum m) (tempCount m))
    (meanOf (precipSum m) (precipCount m))
    (meanOf (windSum m) (windCount m))
    (Z.max (Z.max (tempCount m) (precipCount m)) (windCount m)).

(** The comparator of [result.monthly]: year first, then the key string. *)
Definition compareMonthly (a b : Monthly) : Z :=
  if negb (year a =? year b) then year a - year b
  else localeCompare (month a) (month b).

(** Lines 114-163: the monthly aggregates of the daily records. *)
Definition aggregate (daily : list DailyRecord) : list Monthly :=
  let monthlyData := fold_left accumulate daily [] in
  sort compareMonthly (map toMonthly (objectValues monthlyData)).

Definition noData : string :=
  "No data available for the selected parameters and date range.".
Definition noTemperature : string :=
  "No temperature data available for the selected date range.".

(** [data.T2M.dates] when
    [data.T2M && data.T2M.dates && data.T2M.dates.length > 0]. *)
Definition temperatureDates (data : list (string * ParamData))
  : option (list Date) :=
  match get "T2M" data with
  | Some p =>
      match dates p with
      | Some (d :: ds) => Some (d :: ds)
      | _ => None
      end
  | None => None
  end.

Definition processApiData (apiData : option ApiData) : outcome Processed :=
  match apiData with
  | None => Returns (mkProcessed [] [] false (Some noData))
  | Some api =>
      match data api with
      | None => Returns (mkProcessed [] [] false (Some noData))
      | Some data =>
          match temperatureDates data with
          | Some dates =>
              match available api with
              | Some available =>
                  let daily := mapi (dailyObject data available) 0 dates in
                  Returns (mkProcessed daily (aggregate daily) true None)
              | None =>
                  Throws "TypeError: available is undefined"
              end
          | None => Returns (mkProcessed [] [] false (Some noTemperature))
          end
      end
  end.

(** ** Chart series of the daily forecast (lines 876-878) *)

(** [forecastData.daily.map(d => d.temp ?? 0)] and its two siblings. *)
Definition temps (daily : list DailyRecord) : list jsval :=
  map (fun d => nullish (temp d) (JNum 0)) daily.
Definition precips (daily : list DailyRecord) : list jsval :=
  map (fun d => nullish (precip d) (JNum 0)) daily.
Definition winds (daily : list DailyRecord) : list jsval :=
  map (fun d => nullish (wind d) (JNum 0)) daily.

(** ** getHistoricalData (lines 881-964) *)

(** The increment of one day, written twice in the source with the same
    three tests (lines 945-948 and 995-998). *)
Definition countInc (day : DailyRecord) : Z :=
  let c0 := 0 in
  let c1 :=
    if defined (precip day) && js_gt (precip day) 10 then c0 + 1 else c0 in
  let c2 :=
    if defined (temp day) && (js_gt (temp day) 30 || js_lt (temp day) 5)
    then c1 + 1 else c1 in
  if defined (wind day) && js_gt (wind day) 20 then c2 + 1 else c2.

(** [m.get(key) || 0] *)
Definition getOrZero (key : string) (m : list (string * Z)) : Z :=
  match get key m with
  | Some n => n
  | None => 0
  end.

(** The body of the loop that fills [extremeByMonth]. *)
Definition extremeStep (extremeByMonth : list (string * Z))
  (day : DailyRecord) : list (string * Z) :=
  let key := monthKey (date day) in
  set key (getOrZero key extremeByMonth + countInc day) extremeByMonth.

Definition extremeByMonth (daily : list DailyRecord) : list (string * Z) :=
  fold_left extremeStep daily [].

(** The fallback accumulator of the means, used when no monthly array came
    with the data. *)
Record Agg : Type := mkAgg {
  tSum : Q; tN : Z;
  pSum : Q; pN : Z;
  wSum : Q; wN : Z
}.

Definition aggDay (day : DailyRecord) (a : Agg) : Agg :=
  let a1 :=
    match temp day with
    | JNum q => mkAgg (tSum a + q) (tN a + 1) (pSum a) (pN a) (wSum a) (wN a)
    | _ => a
    end in
  let a2 :=
    match precip day with
    | JNum q =>
        mkAgg (tSum a1) (tN a1) (pSum a1 + q) (pN a1 + 1) (wSum a1) (wN a1)
    | _ => a1
    end in
  match wind day with
  | JNum q =>
      mkAgg (tSum a2) (tN a2) (pSum a2) (pN a2) (wSum a2 + q) (wN a2 + 1)
  | _ => a2
  end.

Definition aggStep (agg : list (string * Agg)) (day : DailyRecord)
  : list (string * Agg) :=
  let key := monthKey (date day) in
  let agg0 := if has key agg then agg else set key (mkAgg 0 0 0 0 0 0) agg in
  match get key agg0 with
  | Some a => set key (aggDay day a) agg0
  | None => agg0
  end.

(** [Array.prototype.sort()] without a comparator, on strings. *)
Definition sortStrings (l : list string) : list string :=
  sort localeCompare l.

Definition orderedMonths (daily : list DailyRecord) (monthly : list Monthly)
  : list string :=
  match monthly with
  | _ :: _ => map month monthly
  | [] =>
      sortStrings (setOfStrings (map (fun day => monthKey (date day)) daily))
  end.

(** The three maps of monthly means, from the monthly array when there is one
    and from the daily records otherwise. *)
Definition meanByMonth (field : Monthly -> jsval)
  (fallback : Agg -> jsval) (daily : list DailyRecord)
  (monthly : list Monthly) : list (string * jsval) :=
  match monthly with
  | _ :: _ =>
      fold_left (fun m mo => set (month mo) (nullish (field mo) JNull) m)
        monthly []
  | [] =>
      fold_left (fun m ka => set (fst ka) (fallback (snd ka)) m)
        (fold_left aggStep daily []) []
  end.

(** [m.has(key) && m.get(key) !== null ? m.get(key) : 0] *)
Definition meanOrZero (m : list (string * jsval)) (key : string) : jsval :=
  match get key m with
  | Some JNull => JNum 0
  | Some v => v
  | None => JNum 0
  end.

(** The result of [getHistoricalData], without its two label arrays. *)
Record Historical : Type := mkHistorical {
  tempData : list jsval;
  precipData : list jsval;
  windData : list jsval;
  extremeEvents : list Z
}.

Definition getHistoricalData (daily : list DailyRecord)
  (monthly : list Monthly) : Historical :=
  match daily with
  | [] => mkHistorical [] [] [] []
  | _ :: _ =>
      let months := orderedMonths daily monthly in
      let tempMeanByMonth :=
        meanByMonth meanTemp (fun a => meanOf (tSum a) (tN a)) daily monthly in
      let precipMeanByMonth :=
        meanByMonth meanPrecip (fun a => meanOf (pSum a) (pN a))
          daily monthly in
      let windMeanByMonth :=
        meanByMonth meanWind (fun a => meanOf (wSum a) (wN a)) daily monthly in
      let extreme := extremeByMonth daily in
      mkHistorical
        (map (meanOrZero tempMeanByMonth) months)
        (map (meanOrZero precipMeanByMonth) months)
        (map (meanOrZero windMeanByMonth) months)
        (map (fun key => getOrZero key extreme) months)
  end.

(** ** dataStatistics (lines 967-1003) *)

Record Statistics : Type := mkStatistics {
  stat_avgTemp : display;
  stat_totalRainfall : display;
  stat_avgWind : display;
  totalExtreme : Z
}.

(** [l.length ? (sum(l) / l.length).toFixed(digits) + suffix : none] *)
Definition averageOr (none : display) (digits : nat) (suffix : string)
  (l : list Q) : display :=
  match l with
  | [] => none
  | _ :: _ =>
      Fixed (sum l / inject_Z (Z.of_nat (List.length l))) digits suffix
  end.

Definition dataStatistics (daily : list DailyRecord) : Statistics :=
  match daily with
  | [] => mkStatistics (Text "23.4°C") (Text "847mm") (Text "N/A") 0
  | _ :: _ =>
      let temps := numbers (map temp daily) in
      let precips := numbers (map precip daily) in
      let windsArr := numbers (map wind daily) in
      mkStatistics
        (averageOr (Text "N/A") 1 "°C" temps)
        (match precips with
         | [] => Text "0mm"
         | _ :: _ => Fixed (sum precips) 0 "mm"
         end)
        (averageOr (Text "N/A") 1 " km/h" windsArr)
        (fold_left (fun cnt d => cnt + countInc d) daily 0)
  end.

(** ** WeatherInsights, its "Calculate insights" block (lines 473-490) *)

Record Insights : Type := mkInsights {
  avgTemp : display;
  maxTemp : display;
  minTemp : display;
  totalPrecip : display;
  maxPrecip : display;
  rainyDays : Z;
  avgWind : display;
  maxWind : display
}.

(** [l.length ? Math.max(...l).toFixed(1) : none], and the same with
    [Math.min]. *)
Definition maxOr (none : display) (l : list Q) : display :=
  match mathMax l with
  | Some m => Fixed m 1 ""
  | None => none
  end.

Definition minOr (none : display) (l : list Q) : display :=
  match mathMin l with
  | Some m => Fixed m 1 ""
  | None => none
  end.

(** [None] is the component's [return null]. *)
Definition WeatherInsights (forecast : list DailyRecord) : option Insights :=
  match forecast with
  | [] => None
  | _ :: _ =>
      let temps := numbers (map temp forecast) in
      let precips := numbers (map precip forecast) in
      let winds := numbers (map wind forecast) in
      Some (mkInsights
        (averageOr (Text "N/A") 1 "" temps)
        (maxOr (Text "N/A") temps)
        (minOr (Text "N/A") temps)
        (Fixed (sum precips) 1 "")
        (maxOr (Text "0") precips)
        (Z.of_nat (List.length (filter (fun p => Qltb (5 # 10) p) precips)))
        (averageOr (Text "N/A") 1 "" winds)
        (maxOr (Text "N/A") winds))
  end.

(** ** recentExtremeEvents (lines 1006-1054) *)

Record ExtremeEvent : Type := mkEvent {
  type : string;
  location : string;
  eventDate : Date;
  value : display
}.

(** [v.toFixed(digits) + suffix].  Each call follows a threshold test on the
    same field that only a number passes, so the last case is never
    reached. *)
Definition toFixed (v : jsval) (digits : nat) (suffix : string) : display :=
  match v with
  | JNum q => Fixed q digits suffix
  | _ => Text "TypeError"
  end.

(** The events that one day pushes, in the order of the pushes. *)
Definition eventsOfDay (location : string) (day : DailyRecord)
  : list ExtremeEvent :=
  (if defined (temp day) && js_gt (temp day) 35 then
     [mkEvent "Extreme Heat" location (date day) (toFixed (temp day) 1 "°C")]
   else if defined (temp day) && js_lt (temp day) 0 then
     [mkEvent "Extreme Cold" location (date day) (toFixed (temp day) 1 "°C")]
   else [])
  ++
  (if defined (precip day) && js_gt (precip day) 25 then
     [mkEvent "Heavy Rain" location (date day) (toFixed (precip day) 1 "mm")]
   else [])
  ++
  (if defined (wind day) && js_gt (wind day) 20 then
     [mkEvent "Strong Winds" location (date day)
        (toFixed (wind day) 1 " km/h")]
   else []).

(** [(a, b) => new Date(b.date) - new Date(a.date)] *)
Definition byRecency (a b : ExtremeEvent) : Z :=
  getTime (eventDate b) - getTime (eventDate a).

Definition placeholderEvent : ExtremeEvent :=
  mkEvent "Extreme Heat" "Phoenix, AZ" (mkDate 2024 2 16) (Text "42°C").

(** [location] is [`${selectedCity.name}, ${selectedState.name}`]. *)
Definition recentExtremeEvents (location : string)
  (daily : list DailyRecord) : list ExtremeEvent :=
  match daily with
  | [] => [placeholderEvent]
  | _ :: _ => sort byRecency (flat_map (eventsOfDay location) daily)
  end.

(** ** LineChart (lines 172-232) *)

Definition isLargeDataset (data : list jsval) : bool :=
  100 <? Z.of_nat (List.length data).

Definition chartWidth (compact : bool) (data : list jsval) : Z :=
  if compact then 300 else Z.max 300 (Z.of_nat (List.length data) * 60).

(** [for (let i = 0; i < len; i += sampleRate)
      if (!importantIndices.has(i)) sampledIndices.push(i)];
    [fuel] bounds the number of iterations. *)
Fixpoint sampleLoop (fuel : nat) (len sampleRate : Z)
  (importantIndices : list Z) (i : Z) (sampledIndices : list Z) : list Z :=
  match fuel with
  | O => sampledIndices
  | S fuel' =>
      if i <? len then
        sampleLoop fuel' len sampleRate importantIndices (i + sampleRate)
          (if existsb (Z.eqb i) importantIndices then sampledIndices
           else sampledIndices ++ [i])
      else sampledIndices
  end.

Definition importantIndices (data : list jsval) (max min : Q) : list Z :=
  let maxIndex := indexOfNum max data in
  let minIndex := indexOfNum min data in
  setOf [0; Z.of_nat (List.length data) - 1; maxIndex; minIndex].

Definition sampleRate (data : list jsval) : Z :=
  Z.max 1 (Z.of_nat (List.length data) / 50).

Definition pointIndices (compact : bool) (data : list jsval) (max min : Q)
  : list Z :=
  if compact && isLargeDataset data then
    let important := importantIndices data max min in
    let sampledIndices :=
      sampleLoop (List.length data) (Z.of_nat (List.length data))
        (sampleRate data) important 0 [] in
    sort (fun a b => a - b) (important ++ sampledIndices)
  else map Z.of_nat (seq 0 (List.length data)).

(** The [x] of the point drawn for [dataIndex]. *)
Definition xCoordinate (compact : bool) (data : list jsval)
  (indices : list Z) (dataIndex : Z) : Q :=
  let large := compact && isLargeDataset data in
  let i := if large then indexOf dataIndex indices else dataIndex in
  let totalPoints :=
    if large then Z.of_nat (List.length indices) - 1
    else Z.of_nat (List.length data) - 1 in
  (inject_Z i / inject_Z (if totalPoints =? 0 then 1 else totalPoints)
   * (inject_Z (chartWidth compact data) - 24) + 12)%Q.

Definition yCoordinate (height : Z) (min range value : Q) : Q :=
  (inject_Z height - 30
   - (value - min) / range * (inject_Z height - 42))%Q.

(** What the chart draws: nothing (with one of two messages), or the polyline
    through [points]. *)
Inductive chart : Type :=
| NoData
| NoValidData
| Chart (indices : list Z) (pointsToRender : list jsval)
    (points : list (Q * Q)).

Definition LineChart (data : list jsval) (height : Z) (compact : bool)
  : chart :=
  match data with
  | [] => NoData
  | _ :: _ =>
      match mathMax (numbers data), mathMin (numbers data) with
      | Some max, Some min =>
          let range := Qmax 1 (max - min) in
          let indices := pointIndices compact data max min in
          let pointsToRender :=
            if compact && isLargeDataset data then map (at_ data) indices
            else data in
          Chart indices pointsToRender
            (flat_map
               (fun dataIndex =>
                  match at_ data dataIndex with
                  | JNum value =>
                      [(xCoordinate compact data indices dataIndex,
                        yCoordinate height min range value)]
                  | _ => []
                  end)
               indices)
      | _, _ => NoValidData
      end
  end.

(** ** LineChart: scale and axis labels (lines 189-191, 250-293) *)

(** [min] and [range] of a series that holds a number. *)
Definition chartScale (data : list jsval) : option (Q * Q) :=
  match mathMax (numbers data), mathMin (numbers data) with
  | Some max, Some min => Some (min, Qmax 1 (max - min))
  | _, _ => None
  end.

(** [s.split(c)] and [s.includes(c)] for a one-character [c]. *)
Fixpoint splitOn (c : ascii) (s : string) : list string :=
  match s with
  | EmptyString => [EmptyString]
  | String a t =>
      if Ascii.eqb a c then EmptyString :: splitOn c t
      else match splitOn c t with
           | h :: rest => String a h :: rest
           | [] => [String a EmptyString]
           end
  end.

Fixpoint includes (c : ascii) (s : string) : bool :=
  match s with
  | EmptyString => false
  | String a t => Ascii.eqb a c || includes c t
  end.

(** [label.includes(' ') ? label.split(' ')[1] : null] *)
Definition yearOf (label : string) : option string :=
  if includes " "%char label
  then Some (nth 1 (splitOn " "%char label) EmptyString)
  else None.

(** The body of [labels.forEach((label, index) => ...)]: the state is
    [currentYear] and the indices pushed to [yearChanges]. *)
Definition yearStep (st : option string * list Z) (item : Z * string)
  : option string * list Z :=
  match yearOf (snd item) with
  | Some year =>
      if negb (String.eqb year "")
         && negb (match fst st with
                  | Some current => String.eqb year current
                  | None => false
                  end)
      then (Some year, snd st ++ [fst item])
      else st
  | None => st
  end.

Definition yearChanges (labels : list string) : list Z :=
  snd (fold_left yearStep
         (combine (map Z.of_nat (seq 0 (List.length labels))) labels)
         (None, [])).

(** The indices that get a label: the first, the year changes and the last
    when year labels are asked for and there are more than 12 labels; the
    first, the middle and the last otherwise. *)
Definition labelIndices (labels : list string) (showYearLabels : bool)
  : list Z :=
  let n := Z.of_nat (List.length labels) in
  if showYearLabels && (12 <? n) then
    sort (fun a b => a - b) (setOf ([0] ++ yearChanges labels ++ [n - 1]))
  else [0; (n - 1) / 2; n - 1].

Record AxisLabel : Type := mkAxisLabel {
  axisX : Q;
  axisText : string;
  axisIndex : Z
}.

Definition getAxisLabelPositions (compact : bool) (data : list jsval)
  (indices : list Z) (labels : list string) (showYearLabels : bool)
  : list AxisLabel :=
  match labels with
  | [] => []
  | _ :: _ =>
      flat_map
        (fun idx =>
           if idx <? Z.of_nat (List.length labels) then
             [mkAxisLabel (xCoordinate compact data indices idx)
                (nth (Z.to_nat idx) labels EmptyString) idx]
           else [])
        (labelIndices labels showYearLabels)
  end.

(** ** WeatherInsights, its trend and pattern (lines 492-518) *)

(** The number that the text [q.toFixed(1)] stands for when it is compared
    with a number: [q] rounded to one decimal, a tie going away from zero;
    from 10^21 on [toFixed] prints the number itself. *)
Definition fixed1 (q : Q) : Q :=
  if Qle_bool (inject_Z (10 ^ 21)) (Qabs q) then q
  else
    let n := Qfloor (Qabs q * 10 + (1 # 2)) in
    if Qltb q 0 then (- (inject_Z n / 10))%Q else (inject_Z n / 10)%Q.

Record Patterns : Type := mkPatterns {
  weatherPattern : string;
  tempTrend : string
}.

Section Rounded.

(** The sums, quotients and differences of lines 489 and 500-505 are those
    of machine numbers, and their results are compared with a threshold
    that a rounding error can cross.  The rounding is left open: [plus],
    [divide] and [minus] stand for the three operations however they round,
    so what is proved of the pattern holds of the numbers the page
    computes.  The quotient [forecast.length / 3] is compared with a whole
    number, which its rounding cannot cross, and is written exactly. *)
Variables plus divide minus : Q -> Q -> Q.

(** [l.reduce((a, b) => a + b, 0) / l.length] *)
Definition averageOf (l : list Q) : Q :=
  divide (fold_left plus l 0%Q) (inject_Z (Z.of_nat (List.length l))).

(** [None] is the component's [return null].  [maxTemp], [minTemp] and
    [avgWind] are the texts of lines 481-490, compared as numbers; the text
    'N/A' compares false. *)
Definition WeatherPatterns (forecast : list DailyRecord) : option Patterns :=
  match forecast with
  | [] => None
  | _ :: _ =>
      let temps := numbers (map temp forecast) in
      let precips := numbers (map precip forecast) in
      let winds := numbers (map wind forecast) in
      let rainyDays :=
        Z.of_nat (List.length (filter (fun p => Qltb (5 # 10) p) precips)) in
      if 3 <? Z.of_nat (List.length temps) then
        let half := Z.to_nat (Z.of_nat (List.length temps) / 2) in
        let firstHalf := firstn half temps in
        let secondHalf := skipn half temps in
        let firstAvg := averageOf firstHalf in
        let secondAvg := averageOf secondHalf in
        let trend :=
          if Qltb (15 # 10) (minus secondAvg firstAvg) then "Warming"
          else if Qltb (15 # 10) (minus firstAvg secondAvg) then "Cooling"
          else "Steady" in
        let pattern :=
          if Qltb (inject_Z (Z.of_nat (List.length forecast)) / 3)
               (inject_Z rainyDays)
          then "Rainy"
          else if match mathMax temps with
                  | Some m => Qltb 30 (fixed1 m)
                  | None => false
                  end
          then "Hot"
          else if match mathMin temps with
                  | Some m => Qltb (fixed1 m) 10
                  | None => false
                  end
          then "Cold"
          else if match winds with
                  | [] => false
                  | _ :: _ => Qltb 20 (fixed1 (averageOf winds))
                  end
          then "Windy"
          else "Stable" in
        Some (mkPatterns pattern trend)
      else Some (mkPatterns "Stable" "Steady")
  end.

End Rounded.

(** ** validateDateRange (lines 604-624) *)

(** The result, and the message given to [setError] if any.  A date is
    [None] when [new Date] cannot read the text, and its time is [NaN], with
    which every comparison is false. *)
Definition validateDateRange (startDate endDate : option Date)
  : bool * option string :=
  match startDate, endDate with
  | Some startDate, Some endDate =>
      let start := getTime startDate in
      let end_ := getTime endDate in
      if end_ <? start then
        (false, Some "End date cannot be before start date")
      else
        let diffTime := Z.abs (end_ - start) in
        let diffDays :=
          Qceiling (inject_Z diffTime / inject_Z (1000 * 60 * 60 * 24)) in
        if diffDays <? 360 then
          (false, Some "Date range cannot exceed 1 year")
        else (true, None)
  | _, _ => (true, None)
  end.

(** ** The figures under the daily charts (lines 1314-1316, 1338-1340 and
    1362-1364) *)

(** [series.filter(t => t !== null)] *)
Definition notNull (series : list jsval) : list jsval :=
  filter (fun t => match t with JNull => false | _ => true end) series.

(** The arguments of [Math.max(...l)] or the operands of a sum, as numbers;
    [None] when one of them is [NaN]. *)
Fixpoint toNumbers (l : list jsval) : option (list Q) :=
  match l with
  | [] => Some []
  | v :: t =>
      match toNumber v, toNumbers t with
      | Some q, Some qs => Some (q :: qs)
      | _, _ => None
      end
  end.

(** [f.length ? f : [0]] *)
Definition orZero (f : list jsval) : list jsval :=
  match f with
  | [] => [JNum 0]
  | _ :: _ => f
  end.

(** [Math.max(...(f.length ? f : [0]))] for the filtered series [f], and the
    same with [Math.min]; [None] is [NaN]. *)
Definition smallStatMax (series : list jsval) : option Q :=
  match toNumbers (orZero (notNull series)) with
  | Some qs => mathMax qs
  | None => None
  end.

Definition smallStatMin (series : list jsval) : option Q :=
  match toNumbers (orZero (notNull series)) with
  | Some qs => mathMin qs
  | None => None
  end.

(** [f.reduce((s,v)=>s+v,0)], which [toFixed] then prints. *)
Definition smallStatTotal (series : list jsval) : option Q :=
  match toNumbers (notNull series) with
  | Some qs => Some (sum qs)
  | None => None
  end.

(** [f.reduce((s,v)=>s+v,0)/Math.max(1,f.length)], which [toFixed] then
    prints. *)
Definition smallStatAvg (series : list jsval) : option Q :=
  match toNumbers (notNull series) with
  | Some qs =>
      Some (sum qs / inject_Z (Z.max 1 (Z.of_nat (List.length qs))))%Q
  | None => None
  end.

(** [precips.filter(p => p > 0.5).length] and
    [winds.filter(w => w > 20).length] *)
Definition smallStatRainyDays (series : list jsval) : Z :=
  Z.of_nat (List.length (filter (fun p => js_gt p (5 # 10)) series)).

Definition smallStatWindyDays (series : list jsval) : Z :=
  Z.of_nat (List.length (filter (fun w => js_gt w 20) series)).

(** * Vocabulary of the specification *)

(** A calendar date: the month index of a [Date] lies between 0 and 11. *)
Definition calendar (d : Date) : Prop := 0 <= getMonth d <= 11.

(** The daily records of one month, by the month's key. *)
Definition group (key : string) (daily : list DailyRecord)
  : list DailyRecord :=
  filter (fun d => String.eqb (monthKey (date d)) key) daily.

(** The daily records of month [mo] (from 1) of year [y]. *)
Definition inMonth (y mo : Z) (d : DailyRecord) : bool :=
  (getFullYear (date d) =? y) && (getMonth (date d) + 1 =? mo).

Definition monthRecords (y mo : Z) (daily : list DailyRecord)
  : list DailyRecord :=
  filter (inMonth y mo) daily.

(** Section 4.1: the sum of the present values over their count, absent when
    no value is present. *)
Definition meanOfPresent (vs : list jsval) : jsval :=
  match numbers vs with
  | [] => JNull
  | q :: t => JNum (sum (q :: t) / inject_Z (Z.of_nat (List.length (q :: t))))
  end.

(** The accumulator that the records of month [key] add up to. *)
Definition accFor (key : string) (y : Z) (daily : list DailyRecord)
  : MonthAcc :=
  let g := group key daily in
  mkAcc key y
    (sum (numbers (map temp g)))
    (Z.of_nat (List.length (numbers (map temp g))))
    (sum (numbers (map precip g)))
    (Z.of_nat (List.length (numbers (map precip g))))
    (sum (numbers (map wind g)))
    (Z.of_nat (List.length (numbers (map wind g)))).

(** [m] is the aggregate of the records of [daily] that fall in the month of
    the date [d]: it carries that month's year and key, and each of its means
    is the mean of the values present in that month. *)
Definition aggregates (daily : list DailyRecord) (m : Monthly) (d : Date)
  : Prop :=
  let g := monthRecords (getFullYear d) (getMonth d + 1) daily in
  year m = getFullYear d /\ month m = monthKey d /\
  meanTemp m = meanOfPresent (map temp g) /\
  meanPrecip m = meanOfPresent (map precip g) /\
  meanWind m = meanOfPresent (map wind g).

(** The two January days of the end-to-end scenario of section 8. *)
Definition scenario : list DailyRecord :=
  [ mkDaily (mkDate 2024 0 1) (JNum 36) (JNum 0) (JNum 5);
    mkDaily (mkDate 2024 0 15) (JNum (-2)) (JNum 30) (JNum 25) ].

(** The (year, month) pair of a record, with the month counted from 1. *)
Definition yearMonth (d : DailyRecord) : Z * Z :=
  (getFullYear (date d), getMonth (date d) + 1).

Definition yearMonth_eq_dec (a b : Z * Z) : {a = b} + {a <> b}.
Proof. decide equality; apply Z.eq_dec. Defined.

(** The number of distinct (year, month) pairs present in the input. *)
Definition distinctMonths (daily : list DailyRecord) : nat :=
  List.length (nodup yearMonth_eq_dec (map yearMonth daily)).

(** Aggregate [a] is of a calendar month strictly earlier than that of
    [b]. *)
Definition earlier (a b : Monthly) : Prop :=
  exists da db : Date,
    calendar da /\ calendar db /\
    (year a = getFullYear da /\ month a = monthKey da) /\
    (year b = getFullYear db /\ month b = monthKey db) /\
    (getFullYear da < getFullYear db \/
     (getFullYear da = getFullYear db /\ getMonth da < getMonth db)).

(** A threshold test on a field: an absent value passes none. *)
Definition holds (test : Q -> bool) (v : jsval) : bool :=
  match v with
  | JNum q => test q
  | _ => false
  end.

(** The looser monthly table of section 4.3: precipitation above 10 mm,
    temperature above 30 or below 5 degrees, wind above 20 km/h. *)
Definition wetDay (d : DailyRecord) : bool :=
  holds (fun q => Qltb 10 q) (precip d).
Definition hotOrColdDay (d : DailyRecord) : bool :=
  holds (fun q => Qltb 30 q || Qltb q 5) (temp d).
Definition windyDay (d : DailyRecord) : bool :=
  holds (fun q => Qltb 20 q) (wind d).

(** A day on which at least one condition holds, and the number of
    conditions that hold on a day. *)
Definition extremeDay (d : DailyRecord) : bool :=
  wetDay d || hotOrColdDay d || windyDay d.

Definition conditionsMet (d : DailyRecord) : Z :=
  Z.b2z (wetDay d) + Z.b2z (hotOrColdDay d) + Z.b2z (windyDay d).

Definition sumZ (l : list Z) : Z := fold_right Z.add 0 l.

(** Section 4.1 as written: the days of the month with at least one
    condition. *)
Definition extremeDays (key : string) (daily : list DailyRecord) : Z :=
  Z.of_nat (List.length (filter extremeDay (group key daily))).

(** A day whose three values are all missing. *)
Definition absentDay : DailyRecord :=
  mkDaily (mkDate 2024 0 1) JNull JNull JNull.

(** The four kinds of section 4.3 with the labels the page shows, and the
    rules of its table: each needs its value present. *)
Inductive Kind : Type := ExtremeHeat | ExtremeCold | HeavyRain | StrongWind.

Definition label (k : Kind) : string :=
  match k with
  | ExtremeHeat => "Extreme Heat"
  | ExtremeCold => "Extreme Cold"
  | HeavyRain => "Heavy Rain"
  | StrongWind => "Strong Winds"
  end.

Definition rule (k : Kind) (d : DailyRecord) : bool :=
  match k with
  | ExtremeHeat => holds (fun q => Qltb 35 q) (temp d)
  | ExtremeCold => holds (fun q => Qltb q 0) (temp d)
  | HeavyRain => holds (fun q => Qltb 25 q) (precip d)
  | StrongWind => holds (fun q => Qltb 20 q) (wind d)
  end.

(** The kinds a record triggers, in the order of the table. *)
Definition triggered (d : DailyRecord) : list Kind :=
  filter (fun k => rule k d) [ExtremeHeat; ExtremeCold; HeavyRain; StrongWind].

(** The event of kind [k] for the record [d]: its label, the record's date
    and the magnitude of the value that triggered it. *)
Definition eventOf (location : string) (d : DailyRecord) (k : Kind)
  : ExtremeEvent :=
  mkEvent (label k) location (date d)
    match k with
    | ExtremeHeat | ExtremeCold => toFixed (temp d) 1 "°C"
    | HeavyRain => toFixed (precip d) 1 "mm"
    | StrongWind => toFixed (wind d) 1 " km/h"
    end.

(** The record of section 8 that triggers three rules. *)
Definition stormyDay : DailyRecord :=
  mkDaily (mkDate 2024 6 4) (JNum 36) (JNum 30) (JNum 25).

(** Section 4.2: the summary of a sequence of optional values.  Absent
    entries are filtered out first; with none present the mean, the minimum
    and the maximum are absent and the total is 0. *)
Record Summary : Type := mkSummary {
  mean : option Q;
  least : option Q;
  greatest : option Q;
  total : Q;
  presentCount : nat
}.

Definition summarize (values : list jsval) : Summary :=
  match numbers values with
  | [] => mkSummary None None None 0 0
  | q :: t =>
      mkSummary
        (Some (sum (q :: t) / inject_Z (Z.of_nat (List.length (q :: t))))%Q)
        (mathMin (q :: t)) (mathMax (q :: t))
        (sum (q :: t)) (List.length (q :: t))
  end.

(** An optional number as the page shows it. *)
Definition shown (none : display) (digits : nat) (suffix : string)
  (o : option Q) : display :=
  match o with
  | Some q => Fixed q digits suffix
  | None => none
  end.

(** Three days with the values 5, absent and 15 in every field. *)
Definition threeDays : list DailyRecord :=
  [ mkDaily (mkDate 2024 0 1) (JNum 5) (JNum 5) (JNum 5);
    mkDaily (mkDate 2024 0 2) JNull JNull JUndefined;
    mkDaily (mkDate 2024 0 3) (JNum 15) (JNum 15) (JNum 15) ].

(** [k] is the first index at which [data] holds its greatest (its least)
    present value. *)
Definition greatestAt (data : list jsval) (k : Z) : Prop :=
  exists v, at_ data k = JNum v /\
    (forall q, In q (numbers data) -> (q <= v)%Q) /\
    (forall j v', 0 <= j < k -> at_ data j = JNum v' -> ~ (v' == v)%Q).

Definition leastAt (data : list jsval) (k : Z) : Prop :=
  exists v, at_ data k = JNum v /\
    (forall q, In q (numbers data) -> (v <= q)%Q) /\
    (forall j v', 0 <= j < k -> at_ data j = JNum v' -> ~ (v' == v)%Q).

(** Section 4.4: the indices that down-sampling retains: the first, the
    last, those of the greatest and of the least value, and every N-th, where
    N is the largest of 1 and the length divided by 50. *)
Definition retained (data : list jsval) (maxIndex minIndex i : Z) : Prop :=
  let len := Z.of_nat (List.length data) in
  i = 0 \/ i = len - 1 \/ i = maxIndex \/ i = minIndex \/
  (0 <= i < len /\ i mod Z.max 1 (len / 50) = 0).

(** All the indices of a series, in order. *)
Definition allIndices (data : list jsval) : list Z :=
  map Z.of_nat (seq 0 (List.length data)).

(** The series 0, 1, ..., n-1. *)
Definition ramp (n : nat) : list jsval :=
  map (fun i => JNum (inject_Z (Z.of_nat i))) (seq 0 n).

(** The value that [processApiData] gives a field for the day at [index]:
    left [undefined] when the field's code is not listed in [available];
    otherwise the code's value for that day, converted, or [null] when the
    code's entry, its values or that day's value is missing. *)
Definition fieldOf (data : list (string * ParamData))
  (available : list string) (param : string) (convert : jsval -> jsval)
  (index : nat) : jsval :=
  if existsb (String.eqb param) available then
    match paramValue data param index with
    | Some v => convert v
    | None => JNull
    end
  else JUndefined.

(** Metres per second to kilometres per hour. *)
Definition toKmh (v : jsval) : jsval := times v (36 # 10).


(** A payload with precipitation and wind but no temperature. *)
Definition noTemperaturePayload : list (string * ParamData) :=
  [ ("PRECTOT", mkParam (Some [mkDate 2024 0 1]) (Some [JNum 12]));
    ("WS2M", mkParam (Some [mkDate 2024 0 1]) (Some [JNum 3])) ].

(** A payload of two days whose wind values stop after the first day. *)
Definition shortPayload : list (string * ParamData) :=
  [ ("T2M", mkParam (Some [mkDate 2024 0 1; mkDate 2024 0 2])
              (Some [JNum 20; JNum 21]));
    ("WS2M", mkParam (Some [mkDate 2024 0 1; mkDate 2024 0 2])
               (Some [JNum 5])) ].

(** Four days of three months of two years, out of order. *)
Definition acrossYears : list DailyRecord :=
  [ mkDaily (mkDate 2024 2 10) (JNum 21) (JNum 0) (JNum 9);
    mkDaily (mkDate 2023 11 5) (JNum 8) JNull (JNum 14);
    mkDaily (mkDate 2024 2 11) (JNum 23) (JNum 4) JNull;
    mkDaily (mkDate 2024 0 20) JNull (JNum 1) (JNum 11) ].

(** Case analysis over the twelve values of a month index. *)
Ltac each_month m :=
  let C := fresh "C" in
  assert (C : m = 0 \/ m = 1 \/ m = 2 \/ m = 3 \/ m = 4 \/ m = 5 \/ m = 6 \/
              m = 7 \/ m = 8 \/ m = 9 \/ m = 10 \/ m = 11) by lia;
  repeat destruct C as [C|C]; subst m.

(** The fallback accumulator that the records of month [key] add up to. *)
Definition aggFor (key : string) (daily : list DailyRecord) : Agg :=
  let g := group key daily in
  mkAgg
    (sum (numbers (map temp g)))
    (Z.of_nat (List.length (numbers (map temp g))))
    (sum (numbers (map precip g)))
    (Z.of_nat (List.length (numbers (map precip g))))
    (sum (numbers (map wind g)))
    (Z.of_nat (List.length (numbers (map wind g)))).

(** The three fallback means of [getHistoricalData]. *)
Definition fallbackTemp (a : Agg) : jsval := meanOf (tSum a) (tN a).
Definition fallbackPrecip (a : Agg) : jsval := meanOf (pSum a) (pN a).
Definition fallbackWind (a : Agg) : jsval := meanOf (wSum a) (wN a).

(** The number a chart series draws for a field: the reading, or 0 for a
    missing one. *)
Definition zeroFilled (v : jsval) : Q :=
  match v with
  | JNum q => q
  | _ => 0%Q
  end.

(** The number of events of one type. *)
Definition eventCount (kind : string) (events : list ExtremeEvent) : Z :=
  Z.of_nat
    (List.length (filter (fun e => String.eqb (type e) kind) events)).

(** ** The calendar order of dates, and the reading of a date text *)

(** [isLeapYear] (lines 599-601); [%] is the remainder of the truncated
    division. *)
Definition isLeapYear (year : Z) : bool :=
  ((Z.rem year 4 =? 0) && negb (Z.rem year 100 =? 0))
  || (Z.rem year 400 =? 0).

(** The number of days of month [m] (from 1) of year [y]. *)
Definition daysInMonth (y m : Z) : Z :=
  if m =? 2 then (if isLeapYear y then 29 else 28)
  else if (m =? 4) || (m =? 6) || (m =? 9) || (m =? 11) then 30 else 31.

(** A date of the calendar: a month of the year and a day of that month. *)
Definition validDate (d : Date) : Prop :=
  0 <= getMonth d <= 11 /\
  1 <= getDate d <= daysInMonth (getFullYear d) (getMonth d + 1).

(** The calendar order, read off the year, the month and the day. *)
Definition before (a b : Date) : Prop :=
  getFullYear a < getFullYear b \/
  (getFullYear a = getFullYear b /\
   (getMonth a < getMonth b \/
    (getMonth a = getMonth b /\ getDate a < getDate b))).

Definition sameDay (a b : Date) : Prop :=
  getFullYear a = getFullYear b /\ getMonth a = getMonth b /\
  getDate a = getDate b.

(** Event [a] is dated the same day as event [b], or a later day. *)
Definition onOrAfter (a b : ExtremeEvent) : Prop :=
  sameDay (eventDate a) (eventDate b) \/ before (eventDate b) (eventDate a).

(** The day number of a date, counted from 1970-01-01. *)
Definition dayNumber (d : Date) : Z :=
  daysFromCivil (getFullYear d) (getMonth d + 1) (getDate d).

(** The first day of year [y], the leap day of [y] and the day of the year
    on which month [m] begins, less one. *)
Definition yearStart (y : Z) : Z :=
  365 * (y - 1) + (y - 1) / 4 - (y - 1) / 100 + (y - 1) / 400 - 719162.

Definition leapDay (y : Z) : Z := if isLeapYear y then 1 else 0.

Definition monthOffset (y m : Z) : Z :=
  if m =? 1 then 0 else if m =? 2 then 31 else
  leapDay y +
  (if m =? 3 then 59 else if m =? 4 then 90 else if m =? 5 then 120
   else if m =? 6 then 151 else if m =? 7 then 181 else if m =? 8 then 212
   else if m =? 9 then 243 else if m =? 10 then 273 else if m =? 11 then 304
   else 334).

(** How a browser reads a date-only text.  [new Date("YYYY-MM-DD")] is
    midnight UTC of the day written, [text]; the getters [getFullYear],
    [getMonth] and [getDate] answer in local time, which is [offset] minutes
    behind UTC ([getTimezoneOffset()]: positive west of Greenwich, negative
    east of it).  [local] is the date that the getters return. *)
Definition reads (offset : Z) (text local : Date) : Prop :=
  validDate local /\
  dayNumber local = (1440 * dayNumber text - offset) / 1440.

(** A record as the page reads it where the getters return [local]. *)
Definition readAs (local : Date) (r : DailyRecord) : DailyRecord :=
  mkDaily local (temp r) (precip r) (wind r).

(** Two records dated 2024-02-01 and 2024-02-02, and the dates that the
    getters return for them five hours west of Greenwich. *)
Definition februaryDays : list DailyRecord :=
  [ mkDaily (mkDate 2024 1 1) (JNum 20) (JNum 0) (JNum 5);
    mkDaily (mkDate 2024 1 2) (JNum 21) (JNum 1) (JNum 6) ].

Definition februaryDaysInNewYork : list DailyRecord :=
  [ mkDaily (mkDate 2024 0 31) (JNum 20) (JNum 0) (JNum 5);
    mkDaily (mkDate 2024 1 1) (JNum 21) (JNum 1) (JNum 6) ].

(** The records in which a field is present. *)
Definition having (field : DailyRecord -> jsval) (daily : list DailyRecord)
  : list DailyRecord :=
  filter (fun d => present (field d)) daily.

(** The field that a kind of event measures. *)
Definition measured (k : Kind) (d : DailyRecord) : jsval :=
  match k with
  | ExtremeHeat | ExtremeCold => temp d
  | HeavyRain => precip d
  | StrongWind => wind d
  end.

(** * Facts about the JavaScript layer *)

Section SortFacts.
Context {A : Type} (cmp : A -> A -> Z).

Lemma insert_perm (x : A) (l : list A) :
  Permutation (x :: l) (insert cmp x l).
Proof.
  induction l as [|y t IH]; simpl.
  - apply Permutation_refl.
  - destruct (cmp x y <=? 0).
    + apply Permutation_refl.
    + eapply perm_trans; [apply perm_swap|].
      now apply perm_skip.
Qed.

Lemma sort_perm (l : list A) : Permutation l (sort cmp l).
Proof.
  induction l as [|x t IH]; simpl.
  - constructor.
  - eapply perm_trans; [|apply insert_perm].
    now apply perm_skip.
Qed.

Lemma sort_length (l : list A) : List.length (sort cmp l) = List.length l.
Proof. symmetry. apply Permutation_length, sort_perm. Qed.

Lemma sort_In (l : list A) (x : A) : In x (sort cmp l) <-> In x l.
Proof.
  split; intro H.
  - eapply Permutation_in; [apply Permutation_sym, sort_perm|exact H].
  - eapply Permutation_in; [apply sort_perm|exact H].
Qed.

(** On a total preorder the result is sorted. *)
Hypothesis cmp_total : forall x y, 0 < cmp x y -> cmp y x <= 0.
Hypothesis cmp_trans :
  forall x y z, cmp x y <= 0 -> cmp y z <= 0 -> cmp x z <= 0.

Lemma insert_sorted (x : A) (l : list A) :
  StronglySorted (fun a b => cmp a b <= 0) l ->
  StronglySorted (fun a b => cmp a b <= 0) (insert cmp x l).
Proof.
  induction 1 as [|y t Hs IH Hy]; simpl.
  - repeat constructor.
  - destruct (cmp x y <=? 0) eqn:E.
    + apply Z.leb_le in E.
      constructor; [now constructor|].
      constructor; [exact E|].
      rewrite Forall_forall in *. eauto.
    + apply Z.leb_gt in E.
      constructor; [exact IH|].
      rewrite Forall_forall in *. intros z Hz.
      apply (Permutation_in _ (Permutation_sym (insert_perm x t))) in Hz.
      destruct Hz as [<-|Hz]; auto.
Qed.

Lemma sort_sorted (l : list A) :
  StronglySorted (fun a b => cmp a b <= 0) (sort cmp l).
Proof.
  induction l as [|x t IH]; simpl.
  - constructor.
  - now apply insert_sorted.
Qed.
End SortFacts.

Lemma StronglySorted_impl {A : Type} (R R' : A -> A -> Prop) (l : list A) :
  (forall a b, R a b -> R' a b) -> StronglySorted R l -> StronglySorted R' l.
Proof.
  intros H Hs. induction Hs as [|a t Hs IH Ha]; constructor; [exact IH|].
  rewrite Forall_forall in *. auto.
Qed.

Section ObjFacts.
Context {V : Type}.
Implicit Types (o : list (string * V)) (k : string).

Lemma has_In k o : has k o = true <-> In k (objectKeys o).
Proof.
  unfold has. induction o as [|[k' v] t IH]; simpl.
  - split; [discriminate|tauto].
  - destruct (String.eqb k k') eqn:E.
    + apply String.eqb_eq in E. subst. tauto.
    + apply String.eqb_neq in E. rewrite IH. split; [tauto|].
      intros [H|H]; [congruence|exact H].
Qed.

Lemma get_None k o : get k o = None <-> ~ In k (objectKeys o).
Proof.
  rewrite <- has_In. unfold has.
  destruct (get k o); split; intro H; try discriminate; try reflexivity.
  exfalso. now apply H.
Qed.

Lemma keys_adjust (f : V -> V) k o :
  objectKeys (adjust f k o) = objectKeys o.
Proof.
  induction o as [|[k' v] t IH]; simpl; [reflexivity|].
  destruct (String.eqb k k'); simpl; [reflexivity|now rewrite IH].
Qed.

Lemma get_adjust (f : V -> V) k k' o :
  get k (adjust f k' o) =
  if String.eqb k k' then option_map f (get k o) else get k o.
Proof.
  induction o as [|[k0 v] t IH]; simpl.
  - now destruct (String.eqb k k').
  - destruct (String.eqb k' k0) eqn:E0; simpl.
    + apply String.eqb_eq in E0. subst k0.
      destruct (String.eqb k k') eqn:E; reflexivity.
    + destruct (String.eqb k k0) eqn:E1.
      * apply String.eqb_eq in E1. subst k0.
        rewrite String.eqb_sym, E0. reflexivity.
      * exact IH.
Qed.

Lemma get_app k o o' :
  get k (o ++ o') =
  match get k o with
  | Some v => Some v
  | None => get k o'
  end.
Proof.
  induction o as [|[k0 v] t IH]; simpl; [reflexivity|].
  now destruct (String.eqb k k0).
Qed.

Lemma keys_app o o' : objectKeys (o ++ o') = objectKeys o ++ objectKeys o'.
Proof. apply map_app. Qed.

Lemma get_set k k' (v : V) o :
  get k (set k' v o) = if String.eqb k k' then Some v else get k o.
Proof.
  unfold set, has. destruct (get k' o) eqn:G.
  - rewrite get_adjust. destruct (String.eqb k k') eqn:E; [|reflexivity].
    apply String.eqb_eq in E. subst. now rewrite G.
  - rewrite get_app. simpl. destruct (String.eqb k k') eqn:E.
    + apply String.eqb_eq in E. subst. now rewrite G.
    + now destruct (get k o).
Qed.

Lemma get_In k (v : V) o : get k o = Some v -> In (k, v) o.
Proof.
  induction o as [|[k0 v0] t IH]; simpl; [discriminate|].
  destruct (String.eqb k k0) eqn:E.
  - apply String.eqb_eq in E. intros [= ->]. subst. now left.
  - intro H. right. now apply IH.
Qed.

Lemma In_get k (v : V) o :
  NoDup (objectKeys o) -> In (k, v) o -> get k o = Some v.
Proof.
  induction o as [|[k0 v0] t IH]; simpl; [tauto|].
  intros Hnd [H|H].
  - injection H as -> ->. now rewrite String.eqb_refl.
  - inversion Hnd as [|? ? Hnot Hnd']; subst.
    destruct (String.eqb k k0) eqn:E.
    + apply String.eqb_eq in E. subst. exfalso. apply Hnot.
      change k0 with (fst (k0, v)). now apply in_map.
    + now apply IH.
Qed.
End ObjFacts.

(** ** Month keys *)

Lemma toString_inj (a b : Z) : toString a = toString b -> a = b.
Proof.
  unfold toString. intro H.
  apply DecimalZ.to_int_inj.
  assert (E : Some (Z.to_int a) = Some (Z.to_int b))
    by now rewrite <- !NilEmpty.isi, H.
  now injection E.
Qed.

Lemma string_length_append (s t : string) :
  String.length (s ++ t) = (String.length s + String.length t)%nat.
Proof. induction s as [|c s IH]; simpl; [reflexivity|now rewrite IH]. Qed.

Lemma append_inj (s1 s2 t1 t2 : string) :
  String.length s1 = String.length s2 ->
  (s1 ++ t1)%string = (s2 ++ t2)%string -> s1 = s2 /\ t1 = t2.
Proof.
  revert s2. induction s1 as [|c s1 IH]; intros [|c2 s2]; simpl;
    try discriminate.
  - auto.
  - intros [= Hl] [= -> H]. destruct (IH _ Hl H) as [-> ->]. auto.
Qed.

Lemma ascii_compare_refl (c : ascii) : Ascii.compare c c = Eq.
Proof. unfold Ascii.compare. apply N.compare_refl. Qed.

Lemma compare_append (p a b : string) :
  String.compare (p ++ a) (p ++ b) = String.compare a b.
Proof.
  induction p as [|c p IH]; simpl; [reflexivity|].
  now rewrite ascii_compare_refl.
Qed.

Lemma string_compare_refl (s : string) : String.compare s s = Eq.
Proof.
  induction s as [|c s IH]; simpl; [reflexivity|].
  now rewrite ascii_compare_refl.
Qed.

(** The order of strings is transitive. *)
Lemma string_compare_trans (c : comparison) (s1 s2 s3 : string) :
  String.compare s1 s2 = c -> String.compare s2 s3 = c ->
  String.compare s1 s3 = c.
Proof.
  revert s2 s3.
  induction s1 as [|a s1 IH]; intros [|b s2] [|d s3]; simpl; try congruence.
  unfold Ascii.compare.
  destruct (N.compare_spec (N_of_ascii a) (N_of_ascii b)) as [E1|E1|E1];
    destruct (N.compare_spec (N_of_ascii b) (N_of_ascii d)) as [E2|E2|E2];
    intros H1 H2; subst c; try discriminate.
  - rewrite E1, E2, N.compare_refl. eapply IH; eauto.
  - rewrite E1. now apply N.compare_lt_iff in E2 as ->.
  - rewrite E1. now apply N.compare_gt_iff in E2 as ->.
  - rewrite <- E2. now apply N.compare_lt_iff in E1 as ->.
  - assert (E : (N_of_ascii a < N_of_ascii d)%N) by lia.
    now apply N.compare_lt_iff in E as ->.
  - rewrite <- E2. now apply N.compare_gt_iff in E1 as ->.
  - assert (E : (N_of_ascii d < N_of_ascii a)%N) by lia.
    now apply N.compare_gt_iff in E as ->.
Qed.

(** The two digits of a calendar month. *)
Lemma month_digits (m : Z) :
  0 <= m <= 11 ->
  String.length (padStart 2 "0" (toString (m + 1))) = 2%nat.
Proof.
  intro H. each_month m; reflexivity.
Qed.

Lemma month_digits_compare (m1 m2 : Z) :
  0 <= m1 <= 11 -> 0 <= m2 <= 11 ->
  String.compare (padStart 2 "0" (toString (m1 + 1)))
    (padStart 2 "0" (toString (m2 + 1))) = Z.compare m1 m2.
Proof.
  intros H1 H2. each_month m1; each_month m2; reflexivity.
Qed.

(** Within one year the keys are ordered as the months are. *)
Lemma monthKey_compare (d1 d2 : Date) :
  calendar d1 -> calendar d2 -> getFullYear d1 = getFullYear d2 ->
  String.compare (monthKey d1) (monthKey d2)
  = Z.compare (getMonth d1) (getMonth d2).
Proof.
  intros H1 H2 Hy. unfold monthKey. rewrite Hy.
  rewrite !compare_append. now apply month_digits_compare.
Qed.

(** The key determines the year and the month of a calendar date. *)
Lemma monthKey_inj (d1 d2 : Date) :
  calendar d1 -> calendar d2 -> monthKey d1 = monthKey d2 ->
  getFullYear d1 = getFullYear d2 /\ getMonth d1 = getMonth d2.
Proof.
  intros H1 H2 H.
  assert (Hl : String.length (toString (getFullYear d1))
               = String.length (toString (getFullYear d2))).
  { apply (f_equal String.length) in H. unfold monthKey in H.
    rewrite !string_length_append, !month_digits in H by assumption.
    lia. }
  unfold monthKey in H.
  destruct (append_inj _ _ _ _ Hl H) as [Hy Hm].
  apply toString_inj in Hy. split; [exact Hy|].
  assert (Hc : String.compare (monthKey d1) (monthKey d2) = Eq)
    by (unfold monthKey; rewrite Hy, !compare_append;
        injection Hm as Hm; rewrite Hm; apply string_compare_refl).
  rewrite monthKey_compare in Hc by assumption.
  now apply Z.compare_eq.
Qed.

Lemma monthKey_eqb (d1 d2 : Date) :
  calendar d1 -> calendar d2 ->
  String.eqb (monthKey d1) (monthKey d2)
  = (getFullYear d1 =? getFullYear d2) && (getMonth d1 + 1 =? getMonth d2 + 1).
Proof.
  intros H1 H2.
  destruct (String.eqb _ _) eqn:E.
  - apply String.eqb_eq in E.
    destruct (monthKey_inj _ _ H1 H2 E) as [-> ->].
    now rewrite !Z.eqb_refl.
  - apply String.eqb_neq in E. symmetry. apply andb_false_iff.
    destruct (getFullYear d1 =? getFullYear d2) eqn:Ey; [|now left].
    destruct (getMonth d1 + 1 =? getMonth d2 + 1) eqn:Em; [|now right].
    apply Z.eqb_eq in Ey, Em. exfalso. apply E.
    unfold monthKey. now rewrite Ey, Em.
Qed.

(** * The monthly aggregation *)

Lemma numbers_app (a b : list jsval) :
  numbers (a ++ b) = numbers a ++ numbers b.
Proof.
  induction a as [|v a IH]; simpl; [reflexivity|].
  destruct v; simpl; now rewrite ?IH.
Qed.

Lemma sum_snoc (l : list Q) (q : Q) : sum (l ++ [q]) = (sum l + q)%Q.
Proof. unfold sum. now rewrite fold_left_app. Qed.

Lemma group_app (k : string) (a b : list DailyRecord) :
  group k (a ++ b) = group k a ++ group k b.
Proof. apply filter_app. Qed.

Lemma group_In (k : string) (l : list DailyRecord) (d : DailyRecord) :
  In d (group k l) <-> In d l /\ monthKey (date d) = k.
Proof.
  unfold group. rewrite filter_In. now rewrite String.eqb_eq.
Qed.

Lemma group_nil (k : string) (l : list DailyRecord) :
  (forall d, In d l -> monthKey (date d) <> k) -> group k l = [].
Proof.
  intro H. destruct (group k l) as [|d g] eqn:E; [reflexivity|].
  assert (Hd : In d (group k l)) by (rewrite E; now left).
  apply group_In in Hd. destruct Hd as [Hd Hk]. now apply H in Hd.
Qed.

(** What one more day does to its month's accumulator. *)
Lemma accFor_snoc_same (y : Z) (l : list DailyRecord) (day : DailyRecord) :
  addWind (wind day)
    (addPrecip (precip day)
       (addTemp (temp day) (accFor (monthKey (date day)) y l)))
  = accFor (monthKey (date day)) y (l ++ [day]).
Proof.
  unfold accFor. rewrite group_app.
  assert (E : group (monthKey (date day)) [day] = [day])
    by (unfold group; simpl; now rewrite String.eqb_refl).
  rewrite E, !map_app, !numbers_app. simpl map.
  destruct (temp day), (precip day), (wind day); simpl;
    rewrite ?app_nil_r, ?sum_snoc, ?length_app, ?Nat2Z.inj_add;
    reflexivity.
Qed.

Lemma accFor_snoc_other (k : string) (y : Z) (l : list DailyRecord)
  (day : DailyRecord) :
  monthKey (date day) <> k -> accFor k y (l ++ [day]) = accFor k y l.
Proof.
  intro H. unfold accFor. rewrite group_app.
  assert (E : group k [day] = [])
    by (unfold group; simpl; apply String.eqb_neq in H; now rewrite H).
  now rewrite E, app_nil_r.
Qed.

Lemma accFor_new (k : string) (y : Z) (l : list DailyRecord) :
  (forall d, In d l -> monthKey (date d) <> k) -> accFor k y l = newAcc k y.
Proof. intro H. unfold accFor. now rewrite group_nil. Qed.

Lemma get_accumulate (md : list (string * MonthAcc)) (day : DailyRecord)
  (k : string) :
  get k (accumulate md day) =
  if String.eqb k (monthKey (date day)) then
    Some (addWind (wind day) (addPrecip (precip day) (addTemp (temp day)
            match get k md with
            | Some a => a
            | None => newAcc k (getFullYear (date day))
            end)))
  else get k md.
Proof.
  unfold accumulate. rewrite !get_adjust.
  destruct (String.eqb k (monthKey (date day))) eqn:E.
  - apply String.eqb_eq in E. subst k. unfold has.
    destruct (get (monthKey (date day)) md) eqn:G.
    + now rewrite G.
    + rewrite get_app, G. simpl. now rewrite String.eqb_refl.
  - unfold has. destruct (get (monthKey (date day)) md); [reflexivity|].
    rewrite get_app. simpl. rewrite E. now destruct (get k md).
Qed.

Lemma keys_accumulate (md : list (string * MonthAcc)) (day : DailyRecord) :
  objectKeys (accumulate md day) =
  if has (monthKey (date day)) md then objectKeys md
  else objectKeys md ++ [monthKey (date day)].
Proof.
  unfold accumulate. rewrite !keys_adjust.
  destruct (has _ md); [reflexivity|]. now rewrite keys_app.
Qed.

(** The state of [monthlyData] after the loop over [l]. *)
Lemma monthlyData_inv (l : list DailyRecord) :
  let md := fold_left accumulate l [] in
  NoDup (objectKeys md) /\
  (forall k, In k (objectKeys md) <->
             exists d, In d l /\ monthKey (date d) = k) /\
  (forall k a, get k md = Some a ->
     exists d, In d l /\ monthKey (date d) = k /\
               a = accFor k (getFullYear (date d)) l).
Proof.
  induction l as [|day l IH] using rev_ind; simpl.
  - repeat split.
    + constructor.
    + intros [].
    + intros [d [[] _]].
    + discriminate.
  - rewrite fold_left_app. simpl.
    destruct IH as (Hnd & Hkeys & Hacc).
    set (md := fold_left accumulate l []) in *.
    set (key := monthKey (date day)).
    assert (Hhas : has key md = true <->
                   exists d, In d l /\ monthKey (date d) = key)
      by (rewrite has_In; apply Hkeys).
    split; [|split].
    + rewrite keys_accumulate. fold key.
      destruct (has key md) eqn:E; [exact Hnd|].
      apply NoDup_app; [exact Hnd|repeat constructor; intros []|].
      intros x Hx [<-|[]].
      apply has_In in Hx. congruence.
    + intro k. rewrite keys_accumulate. fold key.
      destruct (has key md) eqn:E.
      * rewrite Hkeys. split.
        -- intros (d & Hd & Hk). exists d. split; [|exact Hk].
           apply in_or_app. now left.
        -- intros (d & Hd & Hk). apply in_app_or in Hd.
           destruct Hd as [Hd|[<-|[]]]; [now exists d|].
           subst k. now apply Hhas.
      * rewrite in_app_iff, Hkeys. simpl. split.
        -- intros [(d & Hd & Hk)|[<-|[]]].
           ++ exists d. split; [|exact Hk]. apply in_or_app. now left.
           ++ exists day. split; [|reflexivity]. apply in_or_app.
              right. now left.
        -- intros (d & Hd & Hk). apply in_app_or in Hd.
           destruct Hd as [Hd|[<-|[]]]; [left; now exists d|].
           right. now left.
    + intros k a. rewrite get_accumulate. fold key.
      destruct (String.eqb k key) eqn:E.
      * apply String.eqb_eq in E. subst k. intros [= <-].
        destruct (get key md) as [a0|] eqn:G.
        -- destruct (Hacc _ _ G) as (d & Hd & Hk & ->).
           exists d. split; [apply in_or_app; now left|].
           split; [exact Hk|]. apply accFor_snoc_same.
        -- exists day. split; [apply in_or_app; right; now left|].
           split; [reflexivity|].
           unfold key. rewrite <- accFor_snoc_same. fold key.
           f_equal. f_equal. f_equal.
           symmetry. apply accFor_new. intros d Hd Hk.
           assert (Ht : has key md = true) by (apply Hhas; now exists d).
           unfold has in Ht. now rewrite G in Ht.
      * intro G. destruct (Hacc _ _ G) as (d & Hd & Hk & ->).
        exists d. split; [apply in_or_app; now left|].
        split; [exact Hk|].
        symmetry. apply accFor_snoc_other. fold key.
        apply String.eqb_neq in E. congruence.
Qed.

Lemma meanOf_present (vs : list jsval) :
  meanOf (sum (numbers vs)) (Z.of_nat (List.length (numbers vs)))
  = meanOfPresent vs.
Proof.
  unfold meanOf, meanOfPresent. destruct (numbers vs) as [|q t].
  - reflexivity.
  - destruct (Z.of_nat (List.length (q :: t)) =? 0) eqn:E; [|reflexivity].
    apply Z.eqb_eq in E. simpl List.length in E. lia.
Qed.

(** Every aggregate is the accumulator of the month of some input day. *)
Lemma aggregate_elem (daily : list DailyRecord) (m : Monthly) :
  In m (aggregate daily) ->
  exists d, In d daily /\
    m = toMonthly
          (accFor (monthKey (date d)) (getFullYear (date d)) daily).
Proof.
  unfold aggregate. rewrite sort_In, in_map_iff.
  intros (a & <- & Ha).
  unfold objectValues in Ha. apply in_map_iff in Ha.
  destruct Ha as ([k a'] & Hs & Hin). simpl in Hs. subst a'.
  destruct (monthlyData_inv daily) as (Hnd & _ & Hacc).
  apply In_get in Hin; [|exact Hnd].
  destruct (Hacc _ _ Hin) as (d & Hd & Hk & ->).
  exists d. split; [exact Hd|]. now rewrite Hk.
Qed.

(** Every input day has its month among the aggregates. *)
Lemma aggregate_covers (daily : list DailyRecord) (d : DailyRecord) :
  In d daily ->
  exists d', In d' daily /\ monthKey (date d') = monthKey (date d) /\
    In (toMonthly
          (accFor (monthKey (date d)) (getFullYear (date d')) daily))
       (aggregate daily).
Proof.
  intro Hd.
  destruct (monthlyData_inv daily) as (Hnd & Hkeys & Hacc).
  assert (Hk : In (monthKey (date d))
                 (objectKeys (fold_left accumulate daily [])))
    by (apply Hkeys; now exists d).
  apply has_In in Hk. unfold has in Hk.
  destruct (get (monthKey (date d)) (fold_left accumulate daily []))
    as [a|] eqn:G; [|discriminate].
  destruct (Hacc _ _ G) as (d' & Hd' & Hk' & ->).
  exists d'. split; [exact Hd'|]. split; [exact Hk'|].
  unfold aggregate. rewrite sort_In. apply in_map.
  apply get_In in G. unfold objectValues.
  change (accFor (monthKey (date d)) (getFullYear (date d')) daily)
    with (snd (monthKey (date d),
               accFor (monthKey (date d)) (getFullYear (date d')) daily)).
  now apply in_map.
Qed.

(** On calendar dates the group of a key is the month's set of records. *)
Lemma group_monthRecords (daily : list DailyRecord) (d : Date) :
  Forall (fun r => calendar (date r)) daily -> calendar d ->
  group (monthKey d) daily
  = monthRecords (getFullYear d) (getMonth d + 1) daily.
Proof.
  intros Hall Hd. unfold group, monthRecords. apply filter_ext_in.
  intros r Hr. rewrite Forall_forall in Hall.
  unfold inMonth. now rewrite monthKey_eqb by auto.
Qed.

Lemma accFor_aggregates (daily : list DailyRecord) (d d' : DailyRecord) :
  Forall (fun r => calendar (date r)) daily ->
  In d daily -> In d' daily -> monthKey (date d') = monthKey (date d) ->
  aggregates daily
    (toMonthly (accFor (monthKey (date d)) (getFullYear (date d')) daily))
    (date d).
Proof.
  intros Hall Hd Hd' Hk.
  assert (Hc : calendar (date d) /\ calendar (date d'))
    by (rewrite Forall_forall in Hall; auto).
  destruct Hc as [Hc Hc'].
  destruct (monthKey_inj _ _ Hc' Hc Hk) as [Hy _].
  unfold aggregates. rewrite <- group_monthRecords by assumption.
  unfold toMonthly, accFor; simpl.
  rewrite !meanOf_present. auto.
Qed.

Lemma aggregate_represents (daily : list DailyRecord) :
  Forall (fun r => calendar (date r)) daily ->
  forall m, In m (aggregate daily) ->
    exists d, In d daily /\ aggregates daily m (date d).
Proof.
  intros Hall m Hm. destruct (aggregate_elem _ _ Hm) as (d & Hd & ->).
  exists d. split; [exact Hd|]. now apply accFor_aggregates.
Qed.

(** C3.  On calendar dates, every monthly aggregate belongs to the month of
    some input day, every input day's month has its aggregate, and in each
    aggregate the mean of temperature, of precipitation and of wind speed is,
    independently, the sum of that month's present values divided by their
    count, and [null] (never a number, so never zero) when the month has no
    present value of that field. *)
Theorem monthly_means (daily : list DailyRecord) :
  Forall (fun r => calendar (date r)) daily ->
  (forall m, In m (aggregate daily) ->
     exists d, In d daily /\ aggregates daily m (date d)) /\
  (forall d, In d daily ->
     exists m, In m (aggregate daily) /\ aggregates daily m (date d)) /\
  (forall m d, In m (aggregate daily) -> aggregates daily m d ->
     numbers (map temp (monthRecords (getFullYear d) (getMonth d + 1) daily))
       = [] ->
     meanTemp m = JNull).
Proof.
  intro Hall. split; [|split].
  - now apply aggregate_represents.
  - intros d Hd. destruct (aggregate_covers _ _ Hd) as (d' & Hd' & Hk & Hin).
    eexists. split; [exact Hin|]. now apply accFor_aggregates.
  - intros m d _ (_ & _ & Ht & _) Hn. rewrite Ht.
    unfold meanOfPresent. now rewrite Hn.
Qed.

Lemma monthly_means_witness :
  Forall (fun r => calendar (date r)) acrossYears /\
  ((forall m, In m (aggregate acrossYears) ->
      exists d, In d acrossYears /\ aggregates acrossYears m (date d)) /\
   (forall d, In d acrossYears ->
      exists m, In m (aggregate acrossYears) /\
                aggregates acrossYears m (date d)) /\
   (forall m d, In m (aggregate acrossYears) -> aggregates acrossYears m d ->
      numbers
        (map temp (monthRecords (getFullYear d) (getMonth d + 1) acrossYears))
        = [] ->
      meanTemp m = JNull)).
Proof.
  split.
  - repeat constructor; simpl; lia.
  - apply (monthly_means acrossYears). repeat constructor; simpl; lia.
Defined.

(** January 2024 has no temperature and December 2023 no precipitation:
    these means are [null], and the others divide by the count of the
    present values. *)
Example acrossYears_means :
  map (fun m => (month m, meanTemp m, meanPrecip m, meanWind m))
    (aggregate acrossYears)
  = [ ("2023-12", JNum (8 # 1), JNull, JNum (14 # 1));
      ("2024-01", JNull, JNum (1 # 1), JNum (11 # 1));
      ("2024-03", JNum (44 # 2), JNum (4 # 2), JNum (9 # 1)) ].
Proof. reflexivity. Qed.

(** ** Order and number of the aggregates *)

Lemma localeCompare_le (a b : string) :
  localeCompare a b <= 0 <-> String.compare a b <> Gt.
Proof.
  unfold localeCompare. destruct (String.compare a b); split; intro H;
    try lia; try discriminate. now contradiction H.
Qed.

Lemma compareMonthly_le (a b : Monthly) :
  compareMonthly a b <= 0 <->
  year a < year b \/
  (year a = year b /\ String.compare (month a) (month b) <> Gt).
Proof.
  unfold compareMonthly. destruct (year a =? year b) eqn:E; simpl.
  - apply Z.eqb_eq in E. rewrite localeCompare_le. split.
    + intro H. right. now split.
    + intros [H|[_ H]]; [lia|exact H].
  - apply Z.eqb_neq in E. split; [intro; left; lia|].
    intros [H|[H _]]; [lia|contradiction].
Qed.

Lemma string_le_trans (a b c : string) :
  String.compare a b <> Gt -> String.compare b c <> Gt ->
  String.compare a c <> Gt.
Proof.
  intros H1 H2.
  destruct (String.compare a b) eqn:E1; [| |contradiction].
  - apply String.compare_eq_iff in E1. now subst.
  - destruct (String.compare b c) eqn:E2; [| |contradiction].
    + apply String.compare_eq_iff in E2. subst. now rewrite E1.
    + now rewrite (string_compare_trans Lt a b c E1 E2).
Qed.

Lemma compareMonthly_total (x y : Monthly) :
  0 < compareMonthly x y -> compareMonthly y x <= 0.
Proof.
  intro H. apply compareMonthly_le.
  destruct (Z.lt_trichotomy (year x) (year y)) as [L|[E|G]].
  - exfalso. assert (compareMonthly x y <= 0); [|lia].
    apply compareMonthly_le. now left.
  - right. split; [now symmetry|]. intro C.
    assert (compareMonthly x y <= 0); [|lia].
    apply compareMonthly_le. right. split; [exact E|].
    rewrite String.compare_antisym, C. discriminate.
  - left. lia.
Qed.

Lemma compareMonthly_trans (x y z : Monthly) :
  compareMonthly x y <= 0 -> compareMonthly y z <= 0 ->
  compareMonthly x z <= 0.
Proof.
  rewrite !compareMonthly_le.
  intros [H1|[E1 H1]] [H2|[E2 H2]]; try (left; lia).
  right. split; [congruence|]. eapply string_le_trans; eauto.
Qed.

Lemma aggregate_keys_NoDup (daily : list DailyRecord) :
  NoDup (map month (aggregate daily)).
Proof.
  unfold aggregate.
  eapply Permutation_NoDup.
  - apply Permutation_map, sort_perm.
  - rewrite map_map.
    destruct (monthlyData_inv daily) as (Hnd & _ & Hacc).
    set (md := fold_left accumulate daily []) in *.
    assert (E : map (fun a => month (toMonthly a)) (objectValues md)
                = objectKeys md).
    { unfold objectValues, objectKeys. rewrite map_map.
      apply map_ext_in. intros [k a] Hin. simpl.
      apply In_get in Hin; [|exact Hnd].
      now destruct (Hacc _ _ Hin) as (d & _ & _ & ->). }
    now rewrite E.
Qed.

Lemma aggregate_length (daily : list DailyRecord) :
  List.length (aggregate daily)
  = List.length (objectKeys (fold_left accumulate daily [])).
Proof.
  unfold aggregate, objectValues, objectKeys.
  now rewrite sort_length, !length_map.
Qed.

Lemma yearMonth_key (d : DailyRecord) :
  monthKey (mkDate (fst (yearMonth d)) (snd (yearMonth d) - 1) 1)
  = monthKey (date d).
Proof.
  unfold monthKey, yearMonth. simpl.
  now replace (getMonth (date d) + 1 - 1 + 1) with (getMonth (date d) + 1)
    by lia.
Qed.

Lemma distinct_keys (daily : list DailyRecord) :
  Forall (fun r => calendar (date r)) daily ->
  List.length (objectKeys (fold_left accumulate daily []))
  = distinctMonths daily.
Proof.
  intro Hall. rewrite Forall_forall in Hall.
  destruct (monthlyData_inv daily) as (Hnd & Hkeys & _).
  set (f := fun p : Z * Z => monthKey (mkDate (fst p) (snd p - 1) 1)).
  unfold distinctMonths.
  rewrite <- (length_map f).
  apply Permutation_length, NoDup_Permutation; [exact Hnd| |].
  - apply NoDup_map_NoDup_ForallPairs; [|apply NoDup_nodup].
    intros p q Hp Hq E.
    rewrite nodup_In, in_map_iff in Hp, Hq.
    destruct Hp as (d1 & <- & H1), Hq as (d2 & <- & H2).
    unfold f in E. rewrite !yearMonth_key in E.
    apply monthKey_inj in E; auto.
    unfold yearMonth. destruct E as [-> ->]. reflexivity.
  - intro k. rewrite Hkeys, in_map_iff. split.
    + intros (d & Hd & <-). exists (yearMonth d). split.
      * apply yearMonth_key.
      * apply nodup_In. now apply in_map.
    + intros (p & <- & Hp). rewrite nodup_In, in_map_iff in Hp.
      destruct Hp as (d & <- & Hd). exists d. split; [exact Hd|].
      symmetry. apply yearMonth_key.
Qed.

Lemma sorted_earlier (daily : list DailyRecord) (l : list Monthly) :
  Forall (fun r => calendar (date r)) daily ->
  (forall m, In m l -> exists d, In d daily /\ aggregates daily m (date d)) ->
  NoDup (map month l) ->
  StronglySorted (fun a b => compareMonthly a b <= 0) l ->
  StronglySorted earlier l.
Proof.
  intros Hall Hrep Hnd Hs. rewrite Forall_forall in Hall.
  induction Hs as [|a t Hs IH Ha]; [constructor|].
  inversion Hnd as [|? ? Hnot Hnd']; subst.
  constructor.
  - apply IH; [|exact Hnd']. intros m Hm. apply Hrep. now right.
  - rewrite Forall_forall in *. intros b Hb.
    destruct (Hrep a (or_introl eq_refl)) as (da & Hda & Hya & Hka & _).
    destruct (Hrep b (or_intror Hb)) as (db & Hdb & Hyb & Hkb & _).
    exists (date da), (date db).
    split; [now apply Hall|]. split; [now apply Hall|].
    split; [now split|]. split; [now split|].
    specialize (Ha b Hb). apply compareMonthly_le in Ha.
    rewrite Hya, Hyb in Ha.
    destruct Ha as [Ha|[Ey Ha]]; [now left|right].
    split; [exact Ey|].
    rewrite Hka, Hkb, monthKey_compare in Ha by (try apply Hall; auto).
    destruct (Z.compare_spec (getMonth (date da)) (getMonth (date db)))
      as [E|L|G]; [|exact L|now contradiction Ha].
    exfalso. apply Hnot. rewrite Hka. apply in_map_iff.
    exists b. split; [|exact Hb]. rewrite Hkb.
    unfold monthKey. now rewrite Ey, E.
Qed.

(** The months of the dates that the getters return.  On calendar dates
    the aggregates are as many as the distinct (year, month) pairs of these
    dates and stand in strictly ascending (year, month) order.  The empty
    input gives the empty sequence, and a payload whose temperature dates
    are empty is answered, without a throw, with the empty monthly
    sequence. *)
Theorem aggregate_distinct_ascending (daily : list DailyRecord) :
  Forall (fun r => calendar (date r)) daily ->
  List.length (aggregate daily) = distinctMonths daily /\
  StronglySorted earlier (aggregate daily) /\
  aggregate [] = [] /\
  (forall entries p available,
     get "T2M" entries = Some p -> dates p = Some [] ->
     exists r,
       processApiData (Some (mkApi (Some entries) available)) = Returns r /\
       monthly r = []).
Proof.
  intro Hall. split; [|split; [|split]].
  - rewrite aggregate_length. now apply distinct_keys.
  - apply (sorted_earlier daily); [exact Hall| | |].
    + now apply aggregate_represents.
    + apply aggregate_keys_NoDup.
    + apply sort_sorted.
      * apply compareMonthly_total.
      * apply compareMonthly_trans.
  - reflexivity.
  - intros entries p available Hp Hd.
    unfold processApiData, temperatureDates. simpl. rewrite Hp, Hd.
    eexists. split; reflexivity.
Qed.

Lemma aggregate_distinct_ascending_witness :
  Forall (fun r => calendar (date r)) acrossYears /\
  List.length (aggregate acrossYears) = distinctMonths acrossYears /\
  StronglySorted earlier (aggregate acrossYears) /\
  map month (aggregate acrossYears) = ["2023-12"; "2024-01"; "2024-03"].
Proof.
  assert (H : Forall (fun r => calendar (date r)) acrossYears)
    by (repeat constructor; simpl; lia).
  split; [exact H|].
  destruct (aggregate_distinct_ascending acrossYears H) as (Hl & Hs & _).
  repeat split; try assumption.
Defined.

(** * Extreme events per month *)

Lemma sumZ_app (a b : list Z) : sumZ (a ++ b) = sumZ a + sumZ b.
Proof. induction a as [|x a IH]; simpl; [reflexivity|]. rewrite IH. lia. Qed.

Lemma getOrZero_set (k k' : string) (v : Z) (m : list (string * Z)) :
  getOrZero k (set k' v m) = if String.eqb k k' then v else getOrZero k m.
Proof.
  unfold getOrZero. rewrite get_set. now destruct (String.eqb k k').
Qed.

(** After the loop, a month's entry is the sum of its days' increments. *)
Lemma extremeByMonth_sum (daily : list DailyRecord) (k : string) :
  getOrZero k (extremeByMonth daily) = sumZ (map countInc (group k daily)).
Proof.
  unfold extremeByMonth.
  induction daily as [|d l IH] using rev_ind; [reflexivity|].
  rewrite fold_left_app. simpl. unfold extremeStep at 1.
  rewrite getOrZero_set, group_app, map_app, sumZ_app, <- IH.
  unfold group. simpl. rewrite (String.eqb_sym k).
  destruct (String.eqb (monthKey (date d)) k) eqn:E; simpl; [|lia].
  apply String.eqb_eq in E. subst k. lia.
Qed.

(** Where the temperature is not [null], a day's increment is the number of
    conditions that hold on it. *)
Lemma countInc_conditions (d : DailyRecord) :
  temp d <> JNull -> countInc d = conditionsMet d.
Proof.
  intro H. unfold countInc, conditionsMet, wetDay, hotOrColdDay, windyDay.
  destruct (precip d) as [| |p], (temp d) as [| |t], (wind d) as [| |w];
    try contradiction; unfold js_gt, js_lt; simpl;
    repeat match goal with
           | |- context [Qltb ?a ?b] => destruct (Qltb a b)
           end; reflexivity.
Qed.

(** C1, as the code has it.  Where no temperature is [null], the count that
    [getHistoricalData] reports for a month is the sum, over the days of
    that month, of the number of conditions that hold on the day: a day on
    which several conditions hold counts once for each.  The two January
    days of section 8 give 4. *)
Theorem extreme_count_per_condition (daily : list DailyRecord)
  (monthly : list Monthly) :
  daily <> [] ->
  (forall d, In d daily -> temp d <> JNull) ->
  extremeEvents (getHistoricalData daily monthly)
  = map (fun key => sumZ (map conditionsMet (group key daily)))
      (orderedMonths daily monthly)
  /\ extremeEvents (getHistoricalData scenario (aggregate scenario)) = [4].
Proof.
  intros Hne Ht. split; [|reflexivity].
  destruct daily as [|d0 l]; [contradiction|].
  unfold getHistoricalData. simpl extremeEvents.
  apply map_ext. intro k. rewrite extremeByMonth_sum. f_equal.
  apply map_ext_in. intros d Hd. apply countInc_conditions, Ht.
  now apply group_In in Hd.
Qed.

Lemma extreme_count_per_condition_witness :
  scenario <> [] /\
  (forall d, In d scenario -> temp d <> JNull) /\
  (extremeEvents (getHistoricalData scenario (aggregate scenario))
   = map (fun key => sumZ (map conditionsMet (group key scenario)))
       (orderedMonths scenario (aggregate scenario))
   /\ extremeEvents (getHistoricalData scenario (aggregate scenario)) = [4]).
Proof.
  assert (H1 : scenario <> []) by discriminate.
  assert (H2 : forall d, In d scenario -> temp d <> JNull)
    by (simpl; intros d [<-|[<-|[]]]; discriminate).
  split; [exact H1|]. split; [exact H2|].
  exact (extreme_count_per_condition scenario (aggregate scenario) H1 H2).
Defined.

(** C1 as stated fails on the scenario of section 8: two days have an
    extreme condition, and the month's count is 4. *)
Lemma extreme_count_not_days :
  map (fun key => extremeDays key scenario)
    (orderedMonths scenario (aggregate scenario)) = [2]
  /\ extremeEvents (getHistoricalData scenario (aggregate scenario)) = [4]
  /\ extremeEvents (getHistoricalData scenario (aggregate scenario)) <> [2].
Proof. repeat split; try reflexivity. discriminate. Qed.

(** * Missing values *)

Lemma aggregate_nonempty (daily : list DailyRecord) :
  daily <> [] -> aggregate daily <> [].
Proof.
  destruct daily as [|d l]; [contradiction|]. intros _ E.
  destruct (aggregate_covers (d :: l) d (or_introl eq_refl))
    as (d' & _ & _ & Hin).
  rewrite E in Hin. destruct Hin.
Qed.

(** The events of a series all come from one of its days. *)
Lemma recentExtremeEvents_In (location : string) (daily : list DailyRecord)
  (e : ExtremeEvent) :
  daily <> [] ->
  (In e (recentExtremeEvents location daily) <->
   exists d, In d daily /\ In e (eventsOfDay location d)).
Proof.
  destruct daily as [|d0 l]; [contradiction|]. intros _.
  unfold recentExtremeEvents. rewrite sort_In, in_flat_map. reflexivity.
Qed.

(** * The extreme-event list *)

Lemma Qltb_lt (a b : Q) : Qltb a b = true <-> (a < b)%Q.
Proof.
  unfold Qltb. rewrite negb_true_iff. split; intro H.
  - apply Qnot_le_lt. intro C. apply Qle_bool_iff in C. congruence.
  - destruct (Qle_bool b a) eqn:E; [|reflexivity].
    apply Qle_bool_iff in E. lra.
Qed.

(** The guarded comparisons of the source are the rules of the table: a
    missing value passes none. *)
Lemma defined_gt (v : jsval) (c : Q) :
  (0 <= c)%Q -> defined v && js_gt v c = holds (fun q => Qltb c q) v.
Proof.
  intro H. destruct v; simpl; try reflexivity.
  unfold js_gt; simpl. destruct (Qltb c 0) eqn:E; [|reflexivity].
  apply Qltb_lt in E. lra.
Qed.

Lemma defined_lt (v : jsval) (c : Q) :
  (c <= 0)%Q -> defined v && js_lt v c = holds (fun q => Qltb q c) v.
Proof.
  intro H. destruct v; simpl; try reflexivity.
  unfold js_lt; simpl. destruct (Qltb 0 c) eqn:E; [|reflexivity].
  apply Qltb_lt in E. lra.
Qed.

Lemma heat_not_cold (v : jsval) :
  holds (fun q => Qltb 35 q) v = true -> holds (fun q => Qltb q 0) v = false.
Proof.
  destruct v as [| |q]; simpl; try discriminate.
  intro H. apply Qltb_lt in H.
  destruct (Qltb q 0) eqn:E; [|reflexivity].
  apply Qltb_lt in E. lra.
Qed.

(** One day's pushes are the events of the rules it triggers. *)
Lemma eventsOfDay_triggered (location : string) (d : DailyRecord) :
  eventsOfDay location d = map (eventOf location d) (triggered d).
Proof.
  unfold eventsOfDay, triggered. simpl filter.
  rewrite !defined_gt, defined_lt by lra.
  destruct (holds (fun q => Qltb 35 q) (temp d)) eqn:Eh.
  - rewrite (heat_not_cold _ Eh).
    destruct (holds _ (precip d)), (holds _ (wind d)); reflexivity.
  - destruct (holds (fun q => Qltb q 0) (temp d)),
      (holds _ (precip d)), (holds _ (wind d)); reflexivity.
Qed.

Lemma triggered_In (d : DailyRecord) (k : Kind) :
  In k (triggered d) <-> rule k d = true.
Proof.
  unfold triggered. rewrite filter_In. split; [tauto|].
  intro H. split; [|exact H]. destruct k; simpl; tauto.
Qed.

Lemma byRecency_total (x y : ExtremeEvent) :
  0 < byRecency x y -> byRecency y x <= 0.
Proof. unfold byRecency. lia. Qed.

Lemma byRecency_trans (x y z : ExtremeEvent) :
  byRecency x y <= 0 -> byRecency y z <= 0 -> byRecency x z <= 0.
Proof. unfold byRecency. lia. Qed.

(** * Missing values, end to end *)

Lemma dataStatistics_nonempty (daily : list DailyRecord) :
  daily <> [] ->
  dataStatistics daily =
  mkStatistics
    (averageOr (Text "N/A") 1 "°C" (numbers (map temp daily)))
    (match numbers (map precip daily) with
     | [] => Text "0mm"
     | _ :: _ => Fixed (sum (numbers (map precip daily))) 0 "mm"
     end)
    (averageOr (Text "N/A") 1 " km/h" (numbers (map wind daily)))
    (fold_left (fun cnt d => cnt + countInc d) daily 0).
Proof. destruct daily; [contradiction|reflexivity]. Qed.

(** C2 as stated fails on a day without temperature: the daily chart series
    draws the missing value as 0, and so does the monthly series for the
    month whose mean is [null]. *)
Lemma missing_value_drawn_as_zero :
  present (temp absentDay) = false /\
  temps [absentDay] = [JNum 0] /\
  map meanTemp (aggregate [absentDay]) = [JNull] /\
  tempData (getHistoricalData [absentDay] (aggregate [absentDay]))
  = [JNum 0].
Proof. repeat split. Qed.

(** * The statistics *)

Lemma averageOr_summary (none : display) (digits : nat) (suffix : string)
  (vs : list jsval) :
  averageOr none digits suffix (numbers vs)
  = shown none digits suffix (mean (summarize vs)).
Proof. unfold averageOr, summarize. now destruct (numbers vs). Qed.

Lemma maxOr_summary (none : display) (vs : list jsval) :
  maxOr none (numbers vs) = shown none 1 "" (greatest (summarize vs)).
Proof. unfold maxOr, summarize. now destruct (numbers vs). Qed.

Lemma minOr_summary (none : display) (vs : list jsval) :
  minOr none (numbers vs) = shown none 1 "" (least (summarize vs)).
Proof. unfold minOr, summarize. now destruct (numbers vs). Qed.

Lemma sum_summary (vs : list jsval) : sum (numbers vs) = total (summarize vs).
Proof. unfold summarize. now destruct (numbers vs). Qed.

Lemma WeatherInsights_nonempty (forecast : list DailyRecord) :
  forecast <> [] ->
  WeatherInsights forecast =
  let temps := numbers (map temp forecast) in
  let precips := numbers (map precip forecast) in
  let winds := numbers (map wind forecast) in
  Some (mkInsights
    (averageOr (Text "N/A") 1 "" temps)
    (maxOr (Text "N/A") temps)
    (minOr (Text "N/A") temps)
    (Fixed (sum precips) 1 "")
    (maxOr (Text "0") precips)
    (Z.of_nat (List.length (filter (fun p => Qltb (5 # 10) p) precips)))
    (averageOr (Text "N/A") 1 "" winds)
    (maxOr (Text "N/A") winds)).
Proof. destruct forecast; [contradiction|reflexivity]. Qed.

(** The greatest and the least of the present values bound them all. *)
Lemma fold_Qmax_bound (t : list Q) (x : Q) :
  (x <= fold_left Qmax t x)%Q /\
  (forall y, In y t -> y <= fold_left Qmax t x)%Q.
Proof.
  revert x. induction t as [|z t IH]; intro x; simpl.
  - split; [lra|tauto].
  - destruct (IH (Qmax x z)) as [H1 H2].
    pose proof (Q.le_max_l x z). pose proof (Q.le_max_r x z).
    split; [lra|]. intros y [<-|Hy]; [lra|auto].
Qed.

Lemma fold_Qmin_bound (t : list Q) (x : Q) :
  (fold_left Qmin t x <= x)%Q /\
  (forall y, In y t -> fold_left Qmin t x <= y)%Q.
Proof.
  revert x. induction t as [|z t IH]; intro x; simpl.
  - split; [lra|tauto].
  - destruct (IH (Qmin x z)) as [H1 H2].
    pose proof (Q.le_min_l x z). pose proof (Q.le_min_r x z).
    split; [lra|]. intros y [<-|Hy]; [lra|auto].
Qed.

Lemma summary_bounds (vs : list jsval) (q : Q) :
  In q (numbers vs) ->
  exists lo hi, least (summarize vs) = Some lo /\
                greatest (summarize vs) = Some hi /\ (lo <= q <= hi)%Q.
Proof.
  unfold summarize. destruct (numbers vs) as [|x t]; [intros []|].
  intro H. simpl. eexists. eexists. split; [reflexivity|].
  split; [reflexivity|].
  destruct (fold_Qmax_bound t x) as [M1 M2].
  destruct (fold_Qmin_bound t x) as [m1 m2].
  destruct H as [<-|H]; split; auto.
Qed.

(** C5, as the code has it.  On a series with at least one day, the insights
    and the statistics show the summary of the values present in each field:
    the average, the maximum and the minimum read "N/A" when no value is
    present (the maximum of precipitation reads "0", the rainfall total
    "0mm"), and the totals add the present values only.  The summary of an
    empty or fully absent sequence has no mean, minimum or maximum, total 0
    and count 0; that of 5, absent, 15 has mean 10, minimum 5, maximum 15,
    total 20 and count 2.  On the empty series the insights render nothing
    and the statistics are fixed placeholders. *)
Theorem summary_statistics (forecast : list DailyRecord) :
  forecast <> [] ->
  (exists i, WeatherInsights forecast = Some i /\
     avgTemp i = shown (Text "N/A") 1 "" (mean (summarize (map temp forecast)))
     /\ maxTemp i
        = shown (Text "N/A") 1 "" (greatest (summarize (map temp forecast)))
     /\ minTemp i
        = shown (Text "N/A") 1 "" (least (summarize (map temp forecast)))
     /\ totalPrecip i = Fixed (total (summarize (map precip forecast))) 1 ""
     /\ maxPrecip i
        = shown (Text "0") 1 "" (greatest (summarize (map precip forecast)))
     /\ avgWind i
        = shown (Text "N/A") 1 "" (mean (summarize (map wind forecast)))
     /\ maxWind i
        = shown (Text "N/A") 1 ""
            (greatest (summarize (map wind forecast)))) /\
  stat_avgTemp (dataStatistics forecast)
  = shown (Text "N/A") 1 "°C" (mean (summarize (map temp forecast))) /\
  stat_totalRainfall (dataStatistics forecast)
  = (match presentCount (summarize (map precip forecast)) with
     | O => Text "0mm"
     | S _ => Fixed (total (summarize (map precip forecast))) 0 "mm"
     end) /\
  stat_avgWind (dataStatistics forecast)
  = shown (Text "N/A") 1 " km/h" (mean (summarize (map wind forecast))) /\
  (forall vs, numbers vs = [] -> summarize vs = mkSummary None None None 0 0) /\
  (forall vs q, In q (numbers vs) ->
     exists lo hi, least (summarize vs) = Some lo /\
                   greatest (summarize vs) = Some hi /\ (lo <= q <= hi)%Q) /\
  (exists m, summarize [JNum 5; JNull; JNum 15]
             = mkSummary (Some m) (Some 5%Q) (Some 15%Q) 20 2 /\ (m == 10)%Q) /\
  WeatherInsights [] = None /\
  dataStatistics []
  = mkStatistics (Text "23.4°C") (Text "847mm") (Text "N/A") 0.
Proof.
  intro Hne. split; [|split; [|split; [|split; [|split; [|split; [|split]]]]]].
  - rewrite WeatherInsights_nonempty by assumption. cbv zeta.
    eexists. split; [reflexivity|]. cbn [avgTemp maxTemp minTemp totalPrecip
      maxPrecip avgWind maxWind].
    rewrite !averageOr_summary, !maxOr_summary, !minOr_summary, sum_summary.
    repeat split.
  - rewrite dataStatistics_nonempty by assumption. cbn [stat_avgTemp].
    apply averageOr_summary.
  - rewrite dataStatistics_nonempty by assumption. cbn [stat_totalRainfall].
    unfold summarize. now destruct (numbers (map precip forecast)).
  - rewrite dataStatistics_nonempty by assumption. cbn [stat_avgWind].
    apply averageOr_summary.
  - intros vs H. unfold summarize. now rewrite H.
  - apply summary_bounds.
  - eexists. split; [reflexivity|]. reflexivity.
  - split; reflexivity.
Qed.

Lemma summary_statistics_witness :
  threeDays <> [] /\
  (exists i, WeatherInsights threeDays = Some i /\
     avgTemp i = shown (Text "N/A") 1 "" (mean (summarize (map temp threeDays)))
     /\ totalPrecip i = Fixed 20 1 ""
     /\ avgWind i
        = shown (Text "N/A") 1 "" (mean (summarize (map wind threeDays)))) /\
  stat_avgTemp (dataStatistics threeDays)
  = shown (Text "N/A") 1 "°C" (mean (summarize (map temp threeDays))).
Proof.
  assert (Hne : threeDays <> []) by discriminate.
  destruct (summary_statistics threeDays Hne)
    as ((i & Hi & A & _ & _ & B & _ & C & _) & D & _).
  split; [exact Hne|]. split; [|exact D].
  exists i. repeat split; assumption.
Defined.

(** C5 as stated fails on the empty series: the statistics show a
    placeholder average and total where the summary has no mean and total 0,
    and the insights render nothing. *)
Lemma empty_series_placeholders :
  summarize (map temp []) = mkSummary None None None 0 0 /\
  stat_avgTemp (dataStatistics []) = Text "23.4°C" /\
  stat_avgTemp (dataStatistics [])
  <> shown (Text "N/A") 1 "°C" (mean (summarize (map temp []))) /\
  stat_totalRainfall (dataStatistics []) = Text "847mm" /\
  WeatherInsights [] = None.
Proof. repeat split. discriminate. Qed.

(** * The line chart *)

Lemma setOf_spec (l : list Z) :
  NoDup (setOf l) /\ forall x, In x (setOf l) <-> In x l.
Proof.
  unfold setOf.
  assert (G : forall (l acc : list Z), NoDup acc ->
            NoDup (fold_left
                     (fun s x => if existsb (Z.eqb x) s then s else s ++ [x])
                     l acc) /\
            forall x,
              In x (fold_left
                      (fun s x => if existsb (Z.eqb x) s then s else s ++ [x])
                      l acc) <-> In x acc \/ In x l).
  { clear l. induction l as [|y l IH]; intros acc Hnd; simpl.
    - split; [exact Hnd|]. intro x. tauto.
    - destruct (existsb (Z.eqb y) acc) eqn:E.
      + destruct (IH acc Hnd) as [H1 H2]. split; [exact H1|].
        intro x. rewrite H2. split; [tauto|].
        intros [H|[<-|H]]; auto.
        left. apply existsb_exists in E. destruct E as (z & Hz & Ez).
        apply Z.eqb_eq in Ez. now subst.
      + assert (Hy : ~ In y acc).
        { intro Hy. assert (existsb (Z.eqb y) acc = true); [|congruence].
          apply existsb_exists. exists y. split; [exact Hy|apply Z.eqb_refl]. }
        assert (Hnd' : NoDup (acc ++ [y])).
        { apply NoDup_app; [exact Hnd|repeat constructor; intros []|].
          intros x Hx [<-|[]]. contradiction. }
        destruct (IH _ Hnd') as [H1 H2]. split; [exact H1|].
        intro x. rewrite H2, in_app_iff. simpl. tauto. }
  destruct (G l [] (NoDup_nil Z)) as [H1 H2]. split; [exact H1|].
  intro x. rewrite H2. simpl. tauto.
Qed.

(** With fuel for every step that fits below [len], the loop collects the
    multiples of the rate that are not important indices. *)
Lemma sampleLoop_spec (len rate : Z) (imp : list Z) :
  1 <= rate ->
  forall (fuel : nat) (i : Z) (acc : list Z),
    0 <= i -> len - i <= Z.of_nat fuel ->
    NoDup acc -> (forall x, In x acc -> x < i) ->
    NoDup (sampleLoop fuel len rate imp i acc) /\
    forall x, In x (sampleLoop fuel len rate imp i acc) <->
              In x acc \/
              (i <= x < len /\ (x - i) mod rate = 0 /\ ~ In x imp).
Proof.
  intro Hr. induction fuel as [|fuel IH]; intros i acc Hi Hf Hnd Hlt; simpl.
  - split; [exact Hnd|]. intro x. split; [tauto|]. intros [H|H]; [exact H|lia].
  - destruct (i <? len) eqn:E.
    + apply Z.ltb_lt in E.
      set (acc' := if existsb (Z.eqb i) imp then acc else acc ++ [i]).
      assert (Hnd' : NoDup acc').
      { unfold acc'. destruct (existsb (Z.eqb i) imp); [exact Hnd|].
        apply NoDup_app; [exact Hnd|repeat constructor; intros []|].
        intros x Hx [<-|[]]. apply Hlt in Hx. lia. }
      assert (Hlt' : forall x, In x acc' -> x < i + rate).
      { unfold acc'. intros x Hx.
        destruct (existsb (Z.eqb i) imp).
        - apply Hlt in Hx. lia.
        - apply in_app_or in Hx. destruct Hx as [Hx|[<-|[]]]; [|lia].
          apply Hlt in Hx. lia. }
      destruct (IH (i + rate) acc') as [H1 H2]; try assumption; try lia.
      split; [exact H1|]. intro x. rewrite H2.
      assert (Hacc : In x acc' <-> In x acc \/ (x = i /\ ~ In x imp)).
      { unfold acc'. destruct (existsb (Z.eqb i) imp) eqn:Ei.
        - split; [tauto|]. intros [H|[-> H]]; [exact H|].
          exfalso. apply H. apply existsb_exists in Ei.
          destruct Ei as (z & Hz & Ez). apply Z.eqb_eq in Ez. now subst.
        - rewrite in_app_iff. simpl.
          assert (Hn : ~ In i imp).
          { intro Hin. assert (existsb (Z.eqb i) imp = true); [|congruence].
            apply existsb_exists. exists i.
            split; [exact Hin|apply Z.eqb_refl]. }
          split.
          + intros [H|[<-|[]]]; auto.
          + intros [H|[-> H]]; auto. }
      rewrite Hacc.
      replace (x - (i + rate)) with (x - i + (-1) * rate) by lia.
      rewrite Z_mod_plus_full.
      split.
      * intros [[H|[-> H]]|(Hx & Hm & Hn)]; auto.
        -- right. split; [lia|]. split; [|exact H].
           now rewrite Z.sub_diag, Z.mod_0_l by lia.
        -- right. split; [lia|]. now split.
      * intros [H|(Hx & Hm & Hn)]; auto.
        destruct (Z.eq_dec x i) as [->|Hne]; [left; right; now split|].
        right. split; [|now split].
        apply Z.mod_divide in Hm; [|lia]. destruct Hm as [c Hc].
        assert (0 < c) by nia. nia.
    + apply Z.ltb_ge in E.
      split; [exact Hnd|]. intro x. split; [tauto|].
      intros [H|H]; [exact H|lia].
Qed.

Lemma indexFrom_spec {A : Type} (eqb : A -> bool) (d : A) (l : list A) :
  (exists y, In y l /\ eqb y = true) ->
  forall i0,
    let k := indexFrom eqb l i0 in
    i0 <= k < i0 + Z.of_nat (List.length l) /\
    eqb (nth (Z.to_nat (k - i0)) l d) = true /\
    forall j, (j < Z.to_nat (k - i0))%nat -> eqb (nth j l d) = false.
Proof.
  induction l as [|x l IH]; intros (y & Hy & Ey) i0; [destruct Hy|].
  simpl indexFrom. destruct (eqb x) eqn:E.
  - cbv zeta. rewrite Z.sub_diag. simpl. split; [lia|]. split; [exact E|].
    intros j Hj. lia.
  - assert (Hex : exists y, In y l /\ eqb y = true).
    { destruct Hy as [<-|Hy]; [congruence|]. now exists y. }
    destruct (IH Hex (i0 + 1)) as (H1 & H2 & H3). cbv zeta.
    set (k := indexFrom eqb l (i0 + 1)) in *.
    replace (Z.to_nat (k - i0)) with (S (Z.to_nat (k - (i0 + 1)))) by lia.
    simpl List.length. split; [lia|]. split; [exact H2|].
    intros [|j] Hj; [exact E|]. simpl. apply H3. lia.
Qed.

Lemma indexOf_nth (l : list Z) (i : nat) :
  NoDup l -> (i < List.length l)%nat -> indexOf (nth i l 0) l = Z.of_nat i.
Proof.
  intros Hnd Hi. unfold indexOf.
  assert (G : forall (l : list Z) (i : nat) (i0 : Z),
             NoDup l -> (i < List.length l)%nat ->
             indexFrom (Z.eqb (nth i l 0)) l i0 = i0 + Z.of_nat i).
  { clear. induction l as [|x l IH]; intros i i0 Hnd Hi; simpl in Hi; [lia|].
    inversion Hnd as [|? ? Hnot Hnd']; subst.
    destruct i as [|i]; simpl.
    - rewrite Z.eqb_refl. lia.
    - destruct (Z.eqb (nth i l 0) x) eqn:E.
      + apply Z.eqb_eq in E. exfalso. apply Hnot. rewrite <- E.
        apply nth_In. lia.
      + rewrite IH by (auto; lia). lia. }
  rewrite G by assumption. lia.
Qed.

Lemma sorted_lt (l : list Z) :
  NoDup l -> StronglySorted (fun a b => a - b <= 0) l ->
  StronglySorted Z.lt l.
Proof.
  intros Hnd Hs. induction Hs as [|a t Hs IH Ha]; [constructor|].
  inversion Hnd as [|? ? Hnot Hnd']; subst.
  constructor; [now apply IH|].
  rewrite Forall_forall in *. intros b Hb. specialize (Ha b Hb).
  assert (a <> b) by (intros ->; contradiction). lia.
Qed.

Lemma nth_indices (n i : nat) :
  (i < n)%nat -> nth i (map Z.of_nat (seq 0 n)) 0 = Z.of_nat i.
Proof.
  intro H. change 0 with (Z.of_nat 0).
  rewrite map_nth, seq_nth by assumption. reflexivity.
Qed.

Lemma numbers_In (data : list jsval) (q : Q) :
  In q (numbers data) <-> In (JNum q) data.
Proof.
  induction data as [|v data IH]; simpl; [tauto|].
  destruct v; simpl; rewrite IH; split; try tauto.
  - intros [H|H]; [discriminate|exact H].
  - intros [H|H]; [discriminate|exact H].
  - intros [->|H]; auto.
  - intros [[= ->]|H]; auto.
Qed.

Lemma Qmax_choice (x y : Q) : Qmax x y = x \/ Qmax x y = y.
Proof.
  unfold Qmax, GenericMinMax.gmax. destruct (x ?= y)%Q; auto.
Qed.

Lemma Qmin_choice (x y : Q) : Qmin x y = x \/ Qmin x y = y.
Proof.
  unfold Qmin, GenericMinMax.gmin. destruct (x ?= y)%Q; auto.
Qed.

Lemma fold_Qmax_In (t : list Q) (x : Q) : In (fold_left Qmax t x) (x :: t).
Proof.
  revert x. induction t as [|z t IH]; intro x; simpl; [now left|].
  destruct (IH (Qmax x z)) as [H|H]; [|now right; right].
  rewrite <- H.
  destruct (Qmax_choice x z) as [E|E]; rewrite E;
    [left|right; left]; reflexivity.
Qed.

Lemma fold_Qmin_In (t : list Q) (x : Q) : In (fold_left Qmin t x) (x :: t).
Proof.
  revert x. induction t as [|z t IH]; intro x; simpl; [now left|].
  destruct (IH (Qmin x z)) as [H|H]; [|now right; right].
  rewrite <- H.
  destruct (Qmin_choice x z) as [E|E]; rewrite E;
    [left|right; left]; reflexivity.
Qed.

Lemma mathMax_spec (l : list Q) (m : Q) :
  mathMax l = Some m -> In m l /\ forall q, In q l -> (q <= m)%Q.
Proof.
  destruct l as [|x t]; [discriminate|]. intros [= <-].
  split; [apply fold_Qmax_In|].
  destruct (fold_Qmax_bound t x) as [H1 H2]. intros q [<-|H]; auto.
Qed.

Lemma mathMin_spec (l : list Q) (m : Q) :
  mathMin l = Some m -> In m l /\ forall q, In q l -> (m <= q)%Q.
Proof.
  destruct l as [|x t]; [discriminate|]. intros [= <-].
  split; [apply fold_Qmin_In|].
  destruct (fold_Qmin_bound t x) as [H1 H2]. intros q [<-|H]; auto.
Qed.

(** [data.indexOf(x)] for a number that the series holds. *)
Lemma indexOfNum_spec (data : list jsval) (x : Q) :
  In x (numbers data) ->
  0 <= indexOfNum x data < Z.of_nat (List.length data) /\
  exists v, at_ data (indexOfNum x data) = JNum v /\ (v == x)%Q /\
    forall j v', 0 <= j < indexOfNum x data -> at_ data j = JNum v' ->
                 ~ (v' == x)%Q.
Proof.
  intro Hx. unfold indexOfNum.
  set (eqb := fun d => match d with
                       | JNum q => Qeq_bool q x
                       | _ => false
                       end).
  assert (Hex : exists y, In y data /\ eqb y = true).
  { exists (JNum x). split; [now apply numbers_In|].
    simpl. apply Qeq_bool_iff. reflexivity. }
  destruct (indexFrom_spec eqb JUndefined data Hex 0) as (H1 & H2 & H3).
  set (k := indexFrom eqb data 0) in *.
  rewrite Z.sub_0_r in H2, H3. split; [lia|].
  assert (Hat : forall j, 0 <= j ->
                at_ data j = nth (Z.to_nat j) data JUndefined).
  { intros j Hj. unfold at_. destruct (j <? 0) eqn:E; [|reflexivity].
    apply Z.ltb_lt in E. lia. }
  rewrite Hat by lia.
  destruct (nth (Z.to_nat k) data JUndefined) as [| |v] eqn:En;
    try discriminate.
  exists v. split; [reflexivity|]. split; [now apply Qeq_bool_iff|].
  intros j v' Hj Hv' Heq.
  rewrite Hat in Hv' by lia.
  assert (Hf : eqb (nth (Z.to_nat j) data JUndefined) = false)
    by (apply H3; lia).
  rewrite Hv' in Hf. simpl in Hf.
  apply Qeq_bool_iff in Heq. congruence.
Qed.

Lemma indexOfNum_greatest (data : list jsval) (max : Q) :
  mathMax (numbers data) = Some max ->
  0 <= indexOfNum max data < Z.of_nat (List.length data) /\
  greatestAt data (indexOfNum max data).
Proof.
  intro H. apply mathMax_spec in H. destruct H as [Hin Hle].
  destruct (indexOfNum_spec data max Hin) as (Hk & v & Hv & Ev & Hfirst).
  split; [exact Hk|]. exists v. split; [exact Hv|]. split.
  - intros q Hq. rewrite Ev. now apply Hle.
  - intros j v' Hj Hv' E. apply (Hfirst j v' Hj Hv'). now rewrite E.
Qed.

Lemma indexOfNum_least (data : list jsval) (min : Q) :
  mathMin (numbers data) = Some min ->
  0 <= indexOfNum min data < Z.of_nat (List.length data) /\
  leastAt data (indexOfNum min data).
Proof.
  intro H. apply mathMin_spec in H. destruct H as [Hin Hle].
  destruct (indexOfNum_spec data min Hin) as (Hk & v & Hv & Ev & Hfirst).
  split; [exact Hk|]. exists v. split; [exact Hv|]. split.
  - intros q Hq. rewrite Ev. now apply Hle.
  - intros j v' Hj Hv' E. apply (Hfirst j v' Hj Hv'). now rewrite E.
Qed.

(** The indices of a compact chart of a large series. *)
Lemma pointIndices_large (data : list jsval) (max min : Q) :
  isLargeDataset data = true ->
  NoDup (pointIndices true data max min) /\
  StronglySorted Z.lt (pointIndices true data max min) /\
  forall i, In i (pointIndices true data max min) <->
            retained data (indexOfNum max data) (indexOfNum min data) i.
Proof.
  intro Hl. unfold pointIndices. rewrite Hl. simpl andb. cbv zeta.
  set (len := Z.of_nat (List.length data)).
  set (imp := importantIndices data max min).
  set (sampled := sampleLoop (List.length data) len (sampleRate data) imp 0 []).
  assert (Hrate : 1 <= sampleRate data) by (unfold sampleRate; lia).
  destruct (setOf_spec [0; len - 1; indexOfNum max data; indexOfNum min data])
    as [Himp_nd Himp].
  fold len in Himp_nd, Himp. change (setOf _) with imp in Himp_nd, Himp.
  destruct (sampleLoop_spec len (sampleRate data) imp Hrate
              (List.length data) 0 [])
    as [Hs_nd Hs]; [lia|unfold len; lia|constructor|intros x []|].
  fold sampled in Hs_nd, Hs.
  assert (Hnd : NoDup (imp ++ sampled)).
  { apply NoDup_app; [exact Himp_nd|exact Hs_nd|].
    intros x Hx Hx'. apply Hs in Hx'. destruct Hx' as [[]|(_ & _ & Hn)].
    contradiction. }
  assert (Hnd' : NoDup (sort (fun a b => a - b) (imp ++ sampled)))
    by (eapply Permutation_NoDup; [apply sort_perm|exact Hnd]).
  split; [exact Hnd'|]. split.
  - apply sorted_lt; [exact Hnd'|].
    apply sort_sorted; intros; lia.
  - intro i. rewrite sort_In, in_app_iff, Himp, Hs. unfold retained.
    fold len. change (Z.max 1 (len / 50)) with (sampleRate data).
    rewrite Z.sub_0_r. simpl In. rewrite Himp. simpl In.
    destruct (Z.eq_dec i 0), (Z.eq_dec i (len - 1)),
      (Z.eq_dec i (indexOfNum max data)), (Z.eq_dec i (indexOfNum min data));
      intuition lia.
Qed.

Lemma isLargeDataset_iff (data : list jsval) :
  isLargeDataset data = true <-> (100 < List.length data)%nat.
Proof. unfold isLargeDataset. rewrite Z.ltb_lt. lia. Qed.

(** What a drawn chart is made of. *)
Lemma LineChart_Chart (data : list jsval) (height : Z) (compact : bool)
  (indices : list Z) (rendered : list jsval) (points : list (Q * Q)) :
  LineChart data height compact = Chart indices rendered points ->
  exists max min,
    mathMax (numbers data) = Some max /\ mathMin (numbers data) = Some min /\
    indices = pointIndices compact data max min /\
    rendered = (if compact && isLargeDataset data
                then map (at_ data) indices else data) /\
    map fst points
    = flat_map (fun dataIndex =>
                  match at_ data dataIndex with
                  | JNum _ => [xCoordinate compact data indices dataIndex]
                  | _ => []
                  end) indices.
Proof.
  unfold LineChart. destruct data as [|d0 data']; [discriminate|].
  set (data := d0 :: data').
  destruct (mathMax (numbers data)) as [max|]; [|discriminate].
  destruct (mathMin (numbers data)) as [min|]; [|discriminate].
  intros [= <- <- <-]. exists max, min. repeat split.
  set (idx := pointIndices compact data max min). generalize idx at 2 4.
  intro l. induction l as [|i l IH]; [reflexivity|].
  simpl. rewrite map_app, IH. now destruct (at_ data i).
Qed.

Lemma pointIndices_small (compact : bool) (data : list jsval) (max min : Q) :
  compact && isLargeDataset data = false ->
  pointIndices compact data max min = allIndices data.
Proof. intro H. unfold pointIndices. now rewrite H. Qed.

Lemma allIndices_In (data : list jsval) (i : Z) :
  In i (allIndices data) <-> 0 <= i < Z.of_nat (List.length data).
Proof.
  unfold allIndices. rewrite in_map_iff. split.
  - intros (n & <- & Hn). apply in_seq in Hn. lia.
  - intro H. exists (Z.to_nat i). split; [lia|]. apply in_seq. lia.
Qed.

(** A series that holds a number is drawn. *)
Lemma LineChart_draws (data : list jsval) (height : Z) (compact : bool) :
  numbers data <> [] ->
  exists indices rendered points,
    LineChart data height compact = Chart indices rendered points.
Proof.
  intro Hn. unfold LineChart.
  destruct data as [|d0 data']; [now contradiction Hn|].
  destruct (numbers (d0 :: data')) as [|q t]; [now contradiction Hn|].
  simpl mathMax. simpl mathMin. cbv iota zeta.
  eexists. eexists. eexists. reflexivity.
Qed.

(** The indices of a drawn chart. *)
Lemma chart_indices (data : list jsval) (height : Z) (compact : bool)
  (indices : list Z) (rendered : list jsval) (points : list (Q * Q)) :
  LineChart data height compact = Chart indices rendered points ->
  (compact = false \/ (List.length data <= 100)%nat ->
     indices = allIndices data /\ rendered = data) /\
  (compact = true /\ (100 < List.length data)%nat ->
     exists maxIndex minIndex,
       greatestAt data maxIndex /\ leastAt data minIndex /\
       StronglySorted Z.lt indices /\
       (forall i, In i indices <-> retained data maxIndex minIndex i) /\
       rendered = map (at_ data) indices) /\
  (List.length data = 200%nat -> In 0 indices /\ In 199 indices) /\
  (List.length data = 50%nat ->
     indices = allIndices data /\ rendered = data /\
     List.length rendered = 50%nat).
Proof.
  intro H. apply LineChart_Chart in H.
  destruct H as (max & min & Hmax & Hmin & -> & -> & _).
  assert (Hflag : compact = false \/ (List.length data <= 100)%nat ->
                  compact && isLargeDataset data = false).
  { intros [->|Hc]; [reflexivity|].
    destruct (isLargeDataset data) eqn:E; [|apply andb_false_r].
    apply isLargeDataset_iff in E. lia. }
  assert (Hsmall : compact = false \/ (List.length data <= 100)%nat ->
                   pointIndices compact data max min = allIndices data).
  { intro Hc. now apply pointIndices_small, Hflag. }
  assert (Hlarge : compact = true /\ (100 < List.length data)%nat ->
            StronglySorted Z.lt (pointIndices compact data max min) /\
            forall i, In i (pointIndices compact data max min) <->
              retained data (indexOfNum max data) (indexOfNum min data) i).
  { intros [-> Hc]. apply isLargeDataset_iff in Hc.
    now destruct (pointIndices_large data max min Hc) as (_ & ? & ?). }
  split; [|split; [|split]].
  - intro Hc. rewrite (Hsmall Hc), (Hflag Hc). split; reflexivity.
  - intro Hc. destruct (Hlarge Hc) as [Hs Hin].
    exists (indexOfNum max data), (indexOfNum min data).
    split; [now apply indexOfNum_greatest|].
    split; [now apply indexOfNum_least|].
    split; [exact Hs|]. split; [exact Hin|].
    destruct Hc as [-> Hc]. apply isLargeDataset_iff in Hc.
    now rewrite Hc.
  - intro Hlen. destruct compact.
    + assert (Hc : true = true /\ (100 < List.length data)%nat)
        by (split; [reflexivity|lia]).
      destruct (Hlarge Hc) as [_ Hin].
      rewrite !Hin. unfold retained. rewrite Hlen. simpl. tauto.
    + rewrite (Hsmall (or_introl eq_refl)), !allIndices_In, Hlen. lia.
  - intro Hlen.
    assert (Hc : compact = false \/ (List.length data <= 100)%nat)
      by (right; lia).
    rewrite (Hsmall Hc), (Hflag Hc). auto.
Qed.

(** C7, as the code has it.  A series with at least one number is drawn.
    The chart keeps every index, and renders the series unchanged, unless it
    is compact and the series has more than 100 values; then the kept
    indices are exactly the first, the last, the first index of the greatest
    value, the first index of the least value and every N-th index, N the
    largest of 1 and the length divided by 50, without duplicates and in
    ascending order.  A drawn series of 200 values keeps the indices 0 and
    199, and one of 50 values is rendered whole. *)
Theorem downsample_retained (data : list jsval) (height : Z)
  (compact : bool) :
  numbers data <> [] ->
  exists indices rendered points,
    LineChart data height compact = Chart indices rendered points /\
    (compact = false \/ (List.length data <= 100)%nat ->
       indices = allIndices data /\ rendered = data) /\
    (compact = true /\ (100 < List.length data)%nat ->
       exists maxIndex minIndex,
         greatestAt data maxIndex /\ leastAt data minIndex /\
         StronglySorted Z.lt indices /\
         (forall i, In i indices <-> retained data maxIndex minIndex i) /\
         rendered = map (at_ data) indices) /\
    (List.length data = 200%nat -> In 0 indices /\ In 199 indices) /\
    (List.length data = 50%nat ->
       indices = allIndices data /\ rendered = data /\
       List.length rendered = 50%nat).
Proof.
  intro Hn.
  destruct (LineChart_draws data height compact Hn)
    as (indices & rendered & points & H).
  exists indices, rendered, points. split; [exact H|].
  now apply (chart_indices data height compact indices rendered points).
Qed.

Lemma downsample_retained_witness :
  numbers (ramp 200) <> [] /\
  exists indices rendered points,
    LineChart (ramp 200) 140 true = Chart indices rendered points /\
    StronglySorted Z.lt indices /\ In 0 indices /\ In 199 indices.
Proof.
  assert (Hn : numbers (ramp 200) <> []) by discriminate.
  split; [exact Hn|].
  destruct (downsample_retained (ramp 200) 140 true Hn)
    as (indices & rendered & points & H & _ & Hlarge & H200 & _).
  exists indices, rendered, points. split; [exact H|].
  assert (Hc : true = true /\ (100 < List.length (ramp 200))%nat)
    by (split; [reflexivity|vm_compute; lia]).
  destruct (Hlarge Hc) as (maxIndex & minIndex & _ & _ & Hs & _).
  destruct (H200 eq_refl) as [H0 H199].
  repeat split; assumption.
Defined.

(** C7 as stated fails at the threshold itself: a compact chart of exactly
    100 values keeps all of them, index 1 included, although 1 is none of the
    indices that down-sampling with N = 2 would retain. *)
Lemma hundred_values_all_kept :
  exists rendered points,
    LineChart (ramp 100) 140 true
    = Chart (allIndices (ramp 100)) rendered points /\
    List.length (ramp 100) = 100%nat /\
    In 1 (allIndices (ramp 100)) /\
    forall maxIndex minIndex,
      greatestAt (ramp 100) maxIndex -> leastAt (ramp 100) minIndex ->
      ~ retained (ramp 100) maxIndex minIndex 1.
Proof.
  eexists. eexists. split; [vm_compute; reflexivity|].
  split; [reflexivity|]. split; [apply allIndices_In; simpl; lia|].
  intros maxIndex minIndex (v & Hv & Hmax & _) (w & Hw & Hmin & _) H.
  unfold retained in H.
  destruct H as [H|[H|[H|[H|[_ H]]]]]; try discriminate H.
  - subst maxIndex. vm_compute in Hv. injection Hv as <-.
    assert (Hin : In (2%Q) (numbers (ramp 100))).
    { apply numbers_In. unfold ramp. apply in_map_iff. exists 2%nat.
      split; [reflexivity|]. apply in_seq. lia. }
    apply Hmax in Hin. revert Hin. unfold Qle. simpl. lia.
  - subst minIndex. vm_compute in Hw. injection Hw as <-.
    assert (Hin : In (0%Q) (numbers (ramp 100))).
    { apply numbers_In. unfold ramp. apply in_map_iff. exists 0%nat.
      split; [reflexivity|]. apply in_seq. lia. }
    apply Hmin in Hin. revert Hin. unfold Qle. simpl. lia.
Qed.

(** The horizontal coordinates of a drawn chart. *)
Lemma chart_x (data : list jsval) (height : Z) (compact : bool)
  (indices : list Z) (rendered : list jsval) (points : list (Q * Q)) :
  LineChart data height compact = Chart indices rendered points ->
  let m := List.length indices in
  let innerWidth := (inject_Z (chartWidth compact data) - 24)%Q in
  let margin := 12%Q in
  (forall i, (i < m)%nat ->
     (xCoordinate compact data indices (nth i indices 0%Z)
      == if (m =? 1)%nat then margin
         else inject_Z (Z.of_nat i) / inject_Z (Z.of_nat m - 1) * innerWidth
              + margin)%Q) /\
  map fst points
  = flat_map (fun dataIndex =>
                match at_ data dataIndex with
                | JNum _ => [xCoordinate compact data indices dataIndex]
                | _ => []
                end) indices.
Proof.
  intros H m innerWidth margin. apply LineChart_Chart in H.
  destruct H as (max & min & Hmax & Hmin & Hidx & _ & Hpts).
  split; [|exact Hpts].
  intros i Hi.
  assert (Hpos : xCoordinate compact data indices (nth i indices 0)
                 = (inject_Z (Z.of_nat i)
                    / inject_Z (if Z.of_nat m - 1 =? 0 then 1
                                else Z.of_nat m - 1)
                    * innerWidth + margin)%Q).
  { unfold xCoordinate. destruct (compact && isLargeDataset data) eqn:E.
    - apply andb_true_iff in E. destruct E as [-> E].
      destruct (pointIndices_large data max min E) as (Hnd & _ & _).
      rewrite <- Hidx in Hnd. now rewrite indexOf_nth.
    - assert (Ha : indices = allIndices data)
        by (rewrite Hidx; now apply pointIndices_small).
      assert (Hm : m = List.length data)
        by (unfold m; rewrite Ha; unfold allIndices;
            now rewrite length_map, length_seq).
      rewrite Ha. unfold allIndices. rewrite nth_indices by lia.
      now rewrite <- Hm. }
  rewrite Hpos. destruct (m =? 1)%nat eqn:E1.
  - apply Nat.eqb_eq in E1. rewrite E1. simpl Z.eqb. cbv iota.
    assert (i = 0%nat) by lia. subst i. simpl. unfold Qdiv. ring.
  - apply Nat.eqb_neq in E1.
    destruct (Z.of_nat m - 1 =? 0) eqn:E2; [|reflexivity].
    apply Z.eqb_eq in E2. lia.
Qed.

(** C8.  A series with at least one number is drawn, and in the chart of
    [m] indices the point at position [i] of the index list has the
    horizontal coordinate i/(m-1) * innerWidth + margin, where innerWidth is
    the width less 24 and margin is 12; with a single index the point sits
    on the left margin.  The drawn points are those of the indices that hold
    a number, in order. *)
Theorem x_coordinate (data : list jsval) (height : Z) (compact : bool) :
  numbers data <> [] ->
  exists indices rendered points,
    LineChart data height compact = Chart indices rendered points /\
    let m := List.length indices in
    let innerWidth := (inject_Z (chartWidth compact data) - 24)%Q in
    let margin := 12%Q in
    (forall i, (i < m)%nat ->
       (xCoordinate compact data indices (nth i indices 0%Z)
        == if (m =? 1)%nat then margin
           else inject_Z (Z.of_nat i) / inject_Z (Z.of_nat m - 1) * innerWidth
                + margin)%Q) /\
    map fst points
    = flat_map (fun dataIndex =>
                  match at_ data dataIndex with
                  | JNum _ => [xCoordinate compact data indices dataIndex]
                  | _ => []
                  end) indices.
Proof.
  intro Hn.
  destruct (LineChart_draws data height compact Hn)
    as (indices & rendered & points & H).
  exists indices, rendered, points. split; [exact H|].
  now apply (chart_x data height compact indices rendered points).
Qed.

Lemma x_coordinate_witness :
  numbers (ramp 5) <> [] /\
  exists indices rendered points,
    LineChart (ramp 5) 140 false = Chart indices rendered points /\
    forall i, (i < List.length indices)%nat ->
      (xCoordinate false (ramp 5) indices (nth i indices 0%Z)
       == if (List.length indices =? 1)%nat then 12
          else inject_Z (Z.of_nat i)
               / inject_Z (Z.of_nat (List.length indices) - 1)
               * (inject_Z (chartWidth false (ramp 5)) - 24) + 12)%Q.
Proof.
  assert (Hn : numbers (ramp 5) <> []) by discriminate.
  split; [exact Hn|].
  destruct (x_coordinate (ramp 5) 140 false Hn)
    as (indices & rendered & points & H & Hx & _).
  exists indices, rendered, points. split; [exact H|exact Hx].
Defined.

(** * processApiData *)

Lemma mapi_ext {A B : Type} (f g : nat -> A -> B) (l : list A) (n : nat) :
  (forall i x, f i x = g i x) -> mapi f n l = mapi g n l.
Proof.
  intro H. revert n. induction l as [|x l IH]; intro n; simpl;
    [reflexivity|]. now rewrite H, IH.
Qed.

(** The loop over [available] sets each of the three fields whose code it
    meets, always to the same value. *)
Lemma dailyObject_fields (data : list (string * ParamData))
  (available : list string) (index : nat) (d : Date) :
  dailyObject data available index d =
  mkDaily d
    (fieldOf data available "T2M" (fun v => v) index)
    (fieldOf data available "PRECTOT" (fun v => v) index)
    (fieldOf data available "WS2M" toKmh index).
Proof.
  unfold dailyObject.
  assert (G : forall (l : list string) (r : DailyRecord),
    fold_left (assignParam data index) l r =
    mkDaily (date r)
      (if existsb (String.eqb "T2M") l
       then match paramValue data "T2M" index with
            | Some v => v
            | None => JNull
            end
       else temp r)
      (if existsb (String.eqb "PRECTOT") l
       then match paramValue data "PRECTOT" index with
            | Some v => v
            | None => JNull
            end
       else precip r)
      (if existsb (String.eqb "WS2M") l
       then match paramValue data "WS2M" index with
            | Some v => times v (36 # 10)
            | None => JNull
            end
       else wind r)).
  { induction l as [|param l IH]; intro r; [now destruct r|].
    cbn [fold_left existsb]. rewrite IH. clear IH.
    rewrite !(String.eqb_sym _ param). unfold assignParam.
    destruct (String.eqb param "WS2M") eqn:Ew.
    - apply String.eqb_eq in Ew. subst param.
      destruct (paramValue data "WS2M" index); simpl;
        destruct (existsb _ l), (existsb _ l), (existsb _ l); reflexivity.
    - destruct (String.eqb param "T2M") eqn:Et.
      + apply String.eqb_eq in Et. subst param.
        destruct (paramValue data "T2M" index); simpl;
          destruct (existsb _ l), (existsb _ l), (existsb _ l); reflexivity.
      + destruct (String.eqb param "PRECTOT") eqn:Ep.
        * apply String.eqb_eq in Ep. subst param.
          destruct (paramValue data "PRECTOT" index); simpl;
            destruct (existsb _ l), (existsb _ l), (existsb _ l);
            reflexivity.
        * simpl. now destruct (paramValue data param index). }
  rewrite G. reflexivity.
Qed.





(** C10.  A payload whose T2M entry is missing, or has no dates or an empty
    dates array, gives no data: [hasData] is false, the daily and monthly
    sequences are empty and an error message is set, whatever precipitation
    or wind the payload carries and whatever [available] is; nothing is
    thrown.  The same holds, with another message, for a payload without
    [data] and for no payload at all.  With no daily record the historical
    series are empty too. *)
Theorem no_temperature_no_data (entries : list (string * ParamData))
  (available : option (list string)) :
  (get "T2M" entries = None \/
   exists p, get "T2M" entries = Some p /\
             (dates p = None \/ dates p = Some [])) ->
  processApiData (Some (mkApi (Some entries) available))
  = Returns (mkProcessed [] [] false (Some noTemperature)) /\
  processApiData (Some (mkApi None available))
  = Returns (mkProcessed [] [] false (Some noData)) /\
  processApiData None = Returns (mkProcessed [] [] false (Some noData)) /\
  getHistoricalData [] [] = mkHistorical [] [] [] [].
Proof.
  intro H. split; [|repeat split].
  unfold processApiData. simpl.
  assert (E : temperatureDates entries = None).
  { unfold temperatureDates.
    destruct H as [->|(p & -> & [->| ->])]; reflexivity. }
  now rewrite E.
Qed.

Lemma no_temperature_no_data_witness :
  (get "T2M" noTemperaturePayload = None \/
   exists p, get "T2M" noTemperaturePayload = Some p /\
             (dates p = None \/ dates p = Some [])) /\
  processApiData
    (Some (mkApi (Some noTemperaturePayload) (Some ["PRECTOT"; "WS2M"])))
  = Returns (mkProcessed [] [] false (Some noTemperature)).
Proof.
  assert (H : get "T2M" noTemperaturePayload = None \/
              exists p, get "T2M" noTemperaturePayload = Some p /\
                        (dates p = None \/ dates p = Some []))
    by (left; reflexivity).
  split; [exact H|].
  exact (proj1 (no_temperature_no_data noTemperaturePayload
                  (Some ["PRECTOT"; "WS2M"]) H)).
Defined.

(** * The scenario of section 8, run through the code *)

Example scenario_aggregate :
  exists q,
    aggregate scenario
    = [mkMonthly "2024-01" 2024 (JNum q) (JNum (30 # 2)) (JNum (30 # 2)) 2]
    /\ (q == 17)%Q.
Proof. eexists. split; reflexivity. Qed.

Example scenario_events :
  map type (recentExtremeEvents "Mumbai, Maharashtra" scenario)
  = ["Extreme Cold"; "Heavy Rain"; "Strong Winds"; "Extreme Heat"].
Proof. reflexivity. Qed.

Example scenario_statistics :
  totalExtreme (dataStatistics scenario) = 4 /\
  stat_totalRainfall (dataStatistics scenario) = Fixed 30 0 "mm".
Proof. split; reflexivity. Qed.

(** Five values in a chart 300 wide: the points are 69 apart, from the left
    margin to the right one. *)
Example five_points :
  exists indices rendered points,
    LineChart (ramp 5) 140 false = Chart indices rendered points /\
    indices = [0; 1; 2; 3; 4] /\ rendered = ramp 5 /\
    Forall2 Qeq (map fst points) [12; 81; 150; 219; 288]%Q.
Proof.
  eexists. eexists. eexists. split; [reflexivity|].
  split; [reflexivity|]. split; [reflexivity|].
  repeat constructor.
Qed.

(** A compact chart of 200 values keeps every fourth index and the last. *)
Example two_hundred_values :
  exists rendered points,
    LineChart (ramp 200) 140 true
    = Chart (map (fun k => 4 * Z.of_nat k) (seq 0 50) ++ [199])
        rendered points.
Proof. eexists. eexists. vm_compute. reflexivity. Qed.

(** * Further properties of the aggregation *)

Lemma numbers_length (l : list jsval) :
  (List.length (numbers l) <= List.length l)%nat.
Proof.
  induction l as [|v l IH]; simpl; [lia|]. destruct v; simpl; lia.
Qed.

Lemma meanOf_null (s : Q) (c : Z) : meanOf s c = JNull <-> c = 0.
Proof.
  unfold meanOf. destruct (c =? 0) eqn:E.
  - apply Z.eqb_eq in E. tauto.
  - apply Z.eqb_neq in E. split; [discriminate|contradiction].
Qed.

(** X1.  The days-with-data figure of a month is the largest of the counts of
    its present temperatures, precipitations and winds: it never exceeds the
    number of days of the month in the input, and it is 0 exactly when the
    three means are all [null]. *)
Theorem daysWithData_bounds (daily : list DailyRecord) (m : Monthly) :
  In m (aggregate daily) ->
  let g := group (month m) daily in
  (1 <= List.length g)%nat /\
  daysWithData m
  = Z.max (Z.max (Z.of_nat (List.length (numbers (map temp g))))
                 (Z.of_nat (List.length (numbers (map precip g)))))
          (Z.of_nat (List.length (numbers (map wind g)))) /\
  0 <= daysWithData m <= Z.of_nat (List.length g) /\
  (daysWithData m = 0 <->
   meanTemp m = JNull /\ meanPrecip m = JNull /\ meanWind m = JNull).
Proof.
  intro Hm. destruct (aggregate_elem _ _ Hm) as (d & Hd & ->).
  cbn [month toMonthly accFor acc_month]. cbv zeta.
  set (g := group (monthKey (date d)) daily).
  assert (Hg : In d g) by (apply group_In; auto).
  cbn [daysWithData meanTemp meanPrecip meanWind toMonthly accFor
       tempSum tempCount precipSum precipCount windSum windCount].
  fold g. rewrite !meanOf_null.
  pose proof (numbers_length (map temp g)) as Ht.
  pose proof (numbers_length (map precip g)) as Hp.
  pose proof (numbers_length (map wind g)) as Hw.
  rewrite length_map in Ht, Hp, Hw.
  split; [destruct g; [destruct Hg|simpl; lia]|].
  split; [reflexivity|]. split; lia.
Qed.

Lemma daysWithData_bounds_witness :
  exists m, In m (aggregate acrossYears) /\
    month m = "2024-03" /\ daysWithData m = 2 /\
    List.length (group (month m) acrossYears) = 2%nat.
Proof.
  exists (mkMonthly "2024-03" 2024 (JNum (44 # 2)) (JNum (4 # 2))
            (JNum (9 # 1)) 2).
  assert (Hin : In (mkMonthly "2024-03" 2024 (JNum (44 # 2)) (JNum (4 # 2))
                      (JNum (9 # 1)) 2) (aggregate acrossYears))
    by (right; right; left; reflexivity).
  split; [exact Hin|].
  destruct (daysWithData_bounds acrossYears _ Hin) as (_ & H & _).
  repeat split.
Defined.

(** * Totals and lists of extreme events *)

Lemma fold_count (f : DailyRecord -> Z) (l : list DailyRecord) (a : Z) :
  fold_left (fun cnt d => cnt + f d) l a = a + sumZ (map f l).
Proof.
  revert a. induction l as [|d l IH]; intro a; simpl; [lia|].
  rewrite IH. lia.
Qed.

Lemma sumZ_pointwise {A : Type} (a b : A -> Z) (l : list A) :
  sumZ (map (fun k => a k + b k) l) = sumZ (map a l) + sumZ (map b l).
Proof. induction l as [|x l IH]; simpl; [reflexivity|]. rewrite IH. lia. Qed.

Lemma sumZ_indicator (x : string) (c : Z) (keys : list string) :
  NoDup keys -> In x keys ->
  sumZ (map (fun k => if String.eqb x k then c else 0) keys) = c.
Proof.
  induction keys as [|k keys IH]; intros Hnd Hin; [destruct Hin|].
  inversion Hnd as [|? ? Hnot Hnd']; subst. simpl.
  destruct (String.eqb x k) eqn:E.
  - apply String.eqb_eq in E. subst k.
    assert (Hz : sumZ (map (fun k => if String.eqb x k then c else 0) keys)
                 = 0).
    { clear IH Hnd Hnd' Hin. induction keys as [|k keys IH]; [reflexivity|].
      simpl. destruct (String.eqb x k) eqn:E.
      - apply String.eqb_eq in E. subst k. exfalso. apply Hnot. now left.
      - rewrite IH; [reflexivity|]. intro H. apply Hnot. now right. }
    rewrite Hz. lia.
  - apply String.eqb_neq in E. destruct Hin as [->|Hin]; [contradiction|].
    rewrite IH by assumption. lia.
Qed.

(** Summing over the months, each day is met once. *)
Lemma sum_over_months (f : DailyRecord -> Z) (keys : list string)
  (l : list DailyRecord) :
  NoDup keys -> (forall d, In d l -> In (monthKey (date d)) keys) ->
  sumZ (map (fun k => sumZ (map f (group k l))) keys) = sumZ (map f l).
Proof.
  intros Hnd. induction l as [|d l IH]; intro Hin.
  - simpl. induction keys as [|k keys IHk]; [reflexivity|].
    simpl. inversion Hnd; subst. now rewrite IHk.
  - change (sumZ (map f (d :: l))) with (f d + sumZ (map f l)).
    rewrite (map_ext _
               (fun k => (if String.eqb (monthKey (date d)) k then f d else 0)
                         + sumZ (map f (group k l)))).
    + rewrite sumZ_pointwise, sumZ_indicator, IH.
      * reflexivity.
      * intros; apply Hin; now right.
      * exact Hnd.
      * apply Hin. now left.
    + intro k. unfold group. simpl.
      destruct (String.eqb (monthKey (date d)) k); simpl; lia.
Qed.

Lemma aggregate_has_month (daily : list DailyRecord) (d : DailyRecord) :
  In d daily -> In (monthKey (date d)) (map month (aggregate daily)).
Proof.
  intro Hd. destruct (aggregate_covers _ _ Hd) as (d' & _ & _ & Hin).
  apply in_map_iff. eexists. split; [|exact Hin]. reflexivity.
Qed.

Lemma list_eq_dec_nil {A : Type} (l : list A) : {l = []} + {l <> []}.
Proof. destruct l; [now left|now right]. Qed.

Lemma orderedMonths_aggregate (daily : list DailyRecord) :
  daily <> [] ->
  orderedMonths daily (aggregate daily) = map month (aggregate daily).
Proof.
  intro Hne. pose proof (aggregate_nonempty daily Hne) as Ha.
  unfold orderedMonths. now destruct (aggregate daily).
Qed.

Lemma extremeEvents_nonempty (daily : list DailyRecord)
  (monthly : list Monthly) :
  daily <> [] ->
  extremeEvents (getHistoricalData daily monthly)
  = map (fun key => sumZ (map countInc (group key daily)))
      (orderedMonths daily monthly).
Proof.
  intro Hne. destruct daily as [|d0 l]; [contradiction|].
  unfold getHistoricalData. cbn [extremeEvents].
  apply map_ext. intro k. apply extremeByMonth_sum.
Qed.

(** X3.  The total of extreme events that the statistics show is the sum of
    the monthly counts of the chart, when the months are those of
    [processApiData]. *)
Theorem totalExtreme_is_sum_of_months (daily : list DailyRecord) :
  totalExtreme (dataStatistics daily)
  = sumZ (extremeEvents (getHistoricalData daily (aggregate daily))).
Proof.
  destruct (list_eq_dec_nil daily) as [->|Hne]; [reflexivity|].
  rewrite dataStatistics_nonempty by assumption. cbn [totalExtreme].
  rewrite fold_count, Z.add_0_l.
  rewrite extremeEvents_nonempty, orderedMonths_aggregate by assumption.
  symmetry. apply sum_over_months.
  - apply aggregate_keys_NoDup.
  - apply aggregate_has_month.
Qed.

Lemma Qltb_ge (a b : Q) : Qltb a b = false <-> (b <= a)%Q.
Proof.
  unfold Qltb. rewrite negb_false_iff. apply Qle_bool_iff.
Qed.

Ltac compare_numbers :=
  repeat match goal with
         | |- context [Qltb ?a ?b] =>
             let E := fresh "E" in destruct (Qltb a b) eqn:E
         end;
  cbv zeta; simpl; try lia;
  exfalso;
  repeat match goal with
         | H : Qltb _ _ = true |- _ => apply Qltb_lt in H
         | H : Qltb _ _ = false |- _ => apply Qltb_ge in H
         end;
  lra.

(** A day gives at most as many events as it adds to the monthly count, and
    never more than three. *)
Lemma eventsOfDay_bounded (location : string) (d : DailyRecord) :
  Z.of_nat (List.length (eventsOfDay location d)) <= countInc d /\
  (List.length (eventsOfDay location d) <= 3)%nat.
Proof.
  unfold eventsOfDay, countInc.
  destruct (temp d) as [| |t], (precip d) as [| |p], (wind d) as [| |w];
    unfold js_gt, js_lt, toNumber, defined; cbn [andb orb];
    split; compare_numbers.
Qed.

Lemma flat_map_length_sum (location : string) (l : list DailyRecord) :
  Z.of_nat (List.length (flat_map (eventsOfDay location) l))
  <= sumZ (map countInc l) /\
  (List.length (flat_map (eventsOfDay location) l) <= 3 * List.length l)%nat.
Proof.
  induction l as [|d l [IH1 IH2]]; simpl; [split; lia|].
  rewrite length_app.
  destruct (eventsOfDay_bounded location d) as [H1 H2]. split; lia.
Qed.

(** X4.  For a series with at least one day, the list of extreme events has at
    most three entries per day, and never more entries than the total of
    extreme events shown in the statistics. *)
Theorem events_bounded (location : string) (daily : list DailyRecord) :
  daily <> [] ->
  (List.length (recentExtremeEvents location daily)
   <= 3 * List.length daily)%nat /\
  Z.of_nat (List.length (recentExtremeEvents location daily))
  <= totalExtreme (dataStatistics daily).
Proof.
  intro Hne. rewrite dataStatistics_nonempty by assumption.
  cbn [totalExtreme]. rewrite fold_count, Z.add_0_l.
  destruct daily as [|d0 l]; [contradiction|].
  unfold recentExtremeEvents. rewrite sort_length.
  destruct (flat_map_length_sum location (d0 :: l)) as [H1 H2].
  split; assumption.
Qed.

Lemma events_bounded_witness :
  scenario <> [] /\
  (List.length (recentExtremeEvents "Mumbai, Maharashtra" scenario)
   <= 3 * List.length scenario)%nat /\
  Z.of_nat (List.length (recentExtremeEvents "Mumbai, Maharashtra" scenario))
  <= totalExtreme (dataStatistics scenario).
Proof.
  assert (H : scenario <> []) by discriminate.
  split; [exact H|].
  exact (events_bounded "Mumbai, Maharashtra" scenario H).
Defined.

(** * The fallback path of [getHistoricalData] *)

Section FoldSet.
Context {A V : Type} (kf : A -> string) (vf : A -> V).

Lemma find_None_key (k : string) (l : list A) :
  ~ In k (map kf l) -> find (fun x => String.eqb k (kf x)) l = None.
Proof.
  induction l as [|x l IH]; intro H; [reflexivity|]. simpl.
  destruct (String.eqb k (kf x)) eqn:E.
  - apply String.eqb_eq in E. exfalso. apply H. now left.
  - apply IH. intro Hin. apply H. now right.
Qed.

(** Setting the keys of a list without repeated keys one after the other
    stores each element's value under its key. *)
Lemma fold_set_get (l : list A) (m0 : list (string * V)) (k : string) :
  NoDup (map kf l) ->
  get k (fold_left (fun m x => set (kf x) (vf x) m) l m0) =
  match find (fun x => String.eqb k (kf x)) l with
  | Some x => Some (vf x)
  | None => get k m0
  end.
Proof.
  revert m0. induction l as [|x l IH]; intros m0 Hnd; [reflexivity|].
  inversion Hnd as [|? ? Hnot Hnd']; subst. simpl.
  rewrite IH by assumption. rewrite get_set.
  destruct (String.eqb k (kf x)) eqn:E; [|reflexivity].
  apply String.eqb_eq in E. subst k. now rewrite find_None_key.
Qed.
End FoldSet.

Lemma find_fst_get {V W : Type} (f : V -> W) (k : string)
  (o : list (string * V)) :
  match find (fun x => String.eqb k (fst x)) o with
  | Some x => Some (f (snd x))
  | None => None
  end = option_map f (get k o).
Proof.
  induction o as [|[k' v] o IH]; [reflexivity|]. simpl.
  now destruct (String.eqb k k').
Qed.

Lemma keys_set {V : Type} (k : string) (v : V) (o : list (string * V)) :
  objectKeys (set k v o) = if has k o then objectKeys o
                           else objectKeys o ++ [k].
Proof.
  unfold set. destruct (has k o); [apply keys_adjust|].
  now rewrite keys_app.
Qed.

Lemma set_keys_NoDup {V : Type} (k : string) (v : V)
  (o : list (string * V)) :
  NoDup (objectKeys o) -> NoDup (objectKeys (set k v o)).
Proof.
  intro Hnd. rewrite keys_set. destruct (has k o) eqn:E; [exact Hnd|].
  apply NoDup_app; [exact Hnd|repeat constructor; intros []|].
  intros x Hx [<-|[]]. apply has_In in Hx. congruence.
Qed.

Lemma get_aggStep (agg : list (string * Agg)) (day : DailyRecord)
  (k : string) :
  get k (aggStep agg day) =
  if String.eqb k (monthKey (date day)) then
    Some (aggDay day match get k agg with
                     | Some a => a
                     | None => mkAgg 0 0 0 0 0 0
                     end)
  else get k agg.
Proof.
  unfold aggStep. set (key := monthKey (date day)).
  unfold has. destruct (get key agg) as [a|] eqn:G.
  - rewrite G, get_set. destruct (String.eqb k key) eqn:E; [|reflexivity].
    apply String.eqb_eq in E. subst k. now rewrite G.
  - rewrite get_set, String.eqb_refl, !get_set.
    destruct (String.eqb k key) eqn:E; [|reflexivity].
    apply String.eqb_eq in E. subst k. now rewrite G.
Qed.

Lemma aggStep_keys_NoDup (agg : list (string * Agg)) (day : DailyRecord) :
  NoDup (objectKeys agg) -> NoDup (objectKeys (aggStep agg day)).
Proof.
  intro Hnd. unfold aggStep. set (key := monthKey (date day)).
  assert (H0 : NoDup (objectKeys
                        (if has key agg then agg
                         else set key (mkAgg 0 0 0 0 0 0) agg)))
    by (destruct (has key agg); [exact Hnd|now apply set_keys_NoDup]).
  destruct (get key _); [now apply set_keys_NoDup|exact H0].
Qed.

Lemma aggFor_snoc_same (l : list DailyRecord) (day : DailyRecord) :
  aggDay day (aggFor (monthKey (date day)) l)
  = aggFor (monthKey (date day)) (l ++ [day]).
Proof.
  unfold aggFor, aggDay. rewrite group_app.
  assert (E : group (monthKey (date day)) [day] = [day])
    by (unfold group; simpl; now rewrite String.eqb_refl).
  rewrite E, !map_app, !numbers_app. simpl map.
  destruct (temp day), (precip day), (wind day); simpl;
    rewrite ?app_nil_r, ?sum_snoc, ?length_app, ?Nat2Z.inj_add;
    reflexivity.
Qed.

Lemma aggFor_snoc_other (k : string) (l : list DailyRecord)
  (day : DailyRecord) :
  monthKey (date day) <> k -> aggFor k (l ++ [day]) = aggFor k l.
Proof.
  intro H. unfold aggFor. rewrite group_app.
  assert (E : group k [day] = [])
    by (unfold group; simpl; apply String.eqb_neq in H; now rewrite H).
  now rewrite E, app_nil_r.
Qed.

(** The state of the fallback map [agg] after the loop over [l]. *)
Lemma agg_inv (l : list DailyRecord) :
  NoDup (objectKeys (fold_left aggStep l [])) /\
  forall k, get k (fold_left aggStep l []) =
            match group k l with
            | [] => None
            | _ :: _ => Some (aggFor k l)
            end.
Proof.
  induction l as [|day l [IHn IHg]] using rev_ind.
  - split; [constructor|reflexivity].
  - rewrite fold_left_app. simpl. split; [now apply aggStep_keys_NoDup|].
    intro k. rewrite get_aggStep, IHg, group_app.
    destruct (String.eqb k (monthKey (date day))) eqn:E.
    + apply String.eqb_eq in E. subst k.
      assert (Eg : group (monthKey (date day)) [day] = [day])
        by (unfold group; simpl; now rewrite String.eqb_refl).
      rewrite Eg, <- aggFor_snoc_same.
      destruct (group (monthKey (date day)) l) eqn:G; simpl.
      * f_equal. f_equal. unfold aggFor. now rewrite G.
      * reflexivity.
    + apply String.eqb_neq in E.
      assert (Eg : group k [day] = [])
        by (unfold group; simpl;
            destruct (String.eqb (monthKey (date day)) k) eqn:E';
            [apply String.eqb_eq in E'; congruence|reflexivity]).
      rewrite Eg, app_nil_r, aggFor_snoc_other by congruence.
      reflexivity.
Qed.

Lemma setOfStrings_spec (l : list string) :
  NoDup (setOfStrings l) /\ forall x, In x (setOfStrings l) <-> In x l.
Proof.
  unfold setOfStrings.
  assert (G : forall (l acc : list string), NoDup acc ->
            NoDup (fold_left
                     (fun s x =>
                        if existsb (String.eqb x) s then s else s ++ [x])
                     l acc) /\
            forall x,
              In x (fold_left
                      (fun s x =>
                         if existsb (String.eqb x) s then s else s ++ [x])
                      l acc) <-> In x acc \/ In x l).
  { clear l. induction l as [|y l IH]; intros acc Hnd; simpl.
    - split; [exact Hnd|]. intro x. tauto.
    - destruct (existsb (String.eqb y) acc) eqn:E.
      + destruct (IH acc Hnd) as [H1 H2]. split; [exact H1|].
        intro x. rewrite H2. split; [tauto|].
        intros [H|[<-|H]]; auto.
        left. apply existsb_exists in E. destruct E as (z & Hz & Ez).
        apply String.eqb_eq in Ez. now subst.
      + assert (Hy : ~ In y acc).
        { intro Hy. assert (existsb (String.eqb y) acc = true);
            [|congruence].
          apply existsb_exists. exists y.
          split; [exact Hy|apply String.eqb_refl]. }
        assert (Hnd' : NoDup (acc ++ [y])).
        { apply NoDup_app; [exact Hnd|repeat constructor; intros []|].
          intros x Hx [<-|[]]. contradiction. }
        destruct (IH _ Hnd') as [H1 H2]. split; [exact H1|].
        intro x. rewrite H2, in_app_iff. simpl. tauto. }
  destruct (G l [] (NoDup_nil string)) as [H1 H2]. split; [exact H1|].
  intro x. rewrite H2. simpl. tauto.
Qed.

Lemma localeCompare_total (x y : string) :
  0 < localeCompare x y -> localeCompare y x <= 0.
Proof.
  unfold localeCompare. rewrite (String.compare_antisym x y).
  destruct (String.compare y x); simpl; lia.
Qed.

Lemma localeCompare_trans (x y z : string) :
  localeCompare x y <= 0 -> localeCompare y z <= 0 ->
  localeCompare x z <= 0.
Proof. rewrite !localeCompare_le. apply string_le_trans. Qed.

Lemma fallback_months_sorted_core (daily : list DailyRecord) :
  NoDup (orderedMonths daily []) /\
  forall k, In k (orderedMonths daily []) <->
            exists d, In d daily /\ monthKey (date d) = k.
Proof.
  unfold orderedMonths, sortStrings.
  destruct (setOfStrings_spec (map (fun day => monthKey (date day)) daily))
    as [Hnd Hin].
  split.
  - eapply Permutation_NoDup; [apply sort_perm|exact Hnd].
  - intro k. rewrite sort_In, Hin, in_map_iff. split.
    + intros (d & <- & Hd). now exists d.
    + intros (d & Hd & <-). now exists d.
Qed.

(** X5.  Without a monthly array, the months of the chart are the month keys
    of the days, each once, in strictly ascending order of the key strings. *)
Theorem fallback_months_sorted (daily : list DailyRecord) :
  StronglySorted (fun a b => String.compare a b = Lt)
    (orderedMonths daily []) /\
  forall k, In k (orderedMonths daily []) <->
            exists d, In d daily /\ monthKey (date d) = k.
Proof.
  unfold orderedMonths, sortStrings.
  destruct (setOfStrings_spec (map (fun day => monthKey (date day)) daily))
    as [Hnd Hin].
  set (keys := setOfStrings (map (fun day => monthKey (date day)) daily))
    in *.
  split.
  - assert (Hs : StronglySorted (fun a b => localeCompare a b <= 0)
                   (sort localeCompare keys))
      by (apply sort_sorted;
          [apply localeCompare_total|apply localeCompare_trans]).
    assert (Hn : NoDup (sort localeCompare keys))
      by (eapply Permutation_NoDup; [apply sort_perm|exact Hnd]).
    induction Hs as [|a t Hs IH Ha]; [constructor|].
    inversion Hn as [|? ? Hnot Hn']; subst.
    constructor; [now apply IH|].
    rewrite Forall_forall in *. intros b Hb. specialize (Ha b Hb).
    apply localeCompare_le in Ha.
    destruct (String.compare a b) eqn:E; [|reflexivity|contradiction].
    apply String.compare_eq_iff in E. subst. contradiction.
  - intro k. rewrite sort_In, Hin, in_map_iff. split.
    + intros (d & <- & Hd). now exists d.
    + intros (d & Hd & <-). now exists d.
Qed.

Lemma NoDup_map_eq {A B : Type} (f : A -> B) (l : list A) (a b : A) :
  NoDup (map f l) -> In a l -> In b l -> f a = f b -> a = b.
Proof.
  induction l as [|x l IH]; intros Hnd Ha Hb E; [destruct Ha|].
  inversion Hnd as [|? ? Hnot Hnd']; subst.
  destruct Ha as [->|Ha], Hb as [->|Hb]; auto.
  - exfalso. apply Hnot. rewrite E. now apply in_map.
  - exfalso. apply Hnot. rewrite <- E. now apply in_map.
Qed.

(** The aggregate stored under a month key, if any. *)
Lemma find_aggregate (daily : list DailyRecord) (k : string) :
  match group k daily with
  | [] => find (fun mo => String.eqb k (month mo)) (aggregate daily) = None
  | _ :: _ =>
      exists y, find (fun mo => String.eqb k (month mo)) (aggregate daily)
                = Some (toMonthly (accFor k y daily))
  end.
Proof.
  destruct (group k daily) as [|d g] eqn:G.
  - apply find_None_key. intro Hin. apply in_map_iff in Hin.
    destruct Hin as (mo & Hk & Hmo).
    destruct (aggregate_elem _ _ Hmo) as (d & Hd & ->). simpl in Hk.
    assert (Hg : In d (group k daily)) by (apply group_In; auto).
    rewrite G in Hg. destruct Hg.
  - assert (Hd : In d daily /\ monthKey (date d) = k)
      by (apply group_In; rewrite G; now left).
    destruct Hd as [Hd Hk].
    destruct (aggregate_covers _ _ Hd) as (d' & _ & _ & Hin).
    rewrite Hk in Hin. exists (getFullYear (date d')).
    destruct (find (fun mo => String.eqb k (month mo)) (aggregate daily))
      as [mo|] eqn:F.
    + apply find_some in F. destruct F as [Hmo E].
      apply String.eqb_eq in E. f_equal.
      apply (NoDup_map_eq month (aggregate daily));
        [apply aggregate_keys_NoDup|exact Hmo|exact Hin|].
      now rewrite <- E.
    + exfalso. apply (find_none _ _ F) in Hin. simpl in Hin.
      now rewrite String.eqb_refl in Hin.
Qed.

Lemma nullish_meanOf (s : Q) (c : Z) :
  nullish (meanOf s c) JNull = meanOf s c.
Proof. unfold meanOf. now destruct (c =? 0). Qed.

Lemma get_fallback (fallback : Agg -> jsval) (field : Monthly -> jsval)
  (daily : list DailyRecord) (k : string) :
  get k (meanByMonth field fallback daily []) =
  match group k daily with
  | [] => None
  | _ :: _ => Some (fallback (aggFor k daily))
  end.
Proof.
  unfold meanByMonth. destruct (agg_inv daily) as [Hnd Hg].
  rewrite (fold_set_get fst (fun ka => fallback (snd ka))) by exact Hnd.
  simpl get. rewrite (find_fst_get fallback), Hg.
  now destruct (group k daily).
Qed.

Lemma get_precomputed (fallback : Agg -> jsval) (field : Monthly -> jsval)
  (daily : list DailyRecord) (k : string) :
  daily <> [] ->
  get k (meanByMonth field fallback daily (aggregate daily)) =
  match find (fun mo => String.eqb k (month mo)) (aggregate daily) with
  | Some mo => Some (nullish (field mo) JNull)
  | None => None
  end.
Proof.
  intro Hne. pose proof (aggregate_nonempty daily Hne) as Ha.
  unfold meanByMonth. destruct (aggregate daily) as [|m0 ms] eqn:E;
    [contradiction|].
  rewrite <- E.
  rewrite (fold_set_get month (fun mo => nullish (field mo) JNull))
    by apply aggregate_keys_NoDup.
  reflexivity.
Qed.

(** X6.  With or without the monthly array of [processApiData], the chart has
    the same months, and for each month the same three means; where the two
    orders of the months agree, the whole result is the same. *)
Theorem fallback_agrees (daily : list DailyRecord) :
  daily <> [] ->
  (forall k,
     get k (meanByMonth meanTemp fallbackTemp daily [])
     = get k (meanByMonth meanTemp fallbackTemp daily (aggregate daily)) /\
     get k (meanByMonth meanPrecip fallbackPrecip daily [])
     = get k (meanByMonth meanPrecip fallbackPrecip daily (aggregate daily))
     /\
     get k (meanByMonth meanWind fallbackWind daily [])
     = get k (meanByMonth meanWind fallbackWind daily (aggregate daily))) /\
  Permutation (orderedMonths daily [])
    (orderedMonths daily (aggregate daily)) /\
  (orderedMonths daily [] = orderedMonths daily (aggregate daily) ->
   getHistoricalData daily [] = getHistoricalData daily (aggregate daily)).
Proof.
  intro Hne.
  assert (Hk : forall k,
     get k (meanByMonth meanTemp fallbackTemp daily [])
     = get k (meanByMonth meanTemp fallbackTemp daily (aggregate daily)) /\
     get k (meanByMonth meanPrecip fallbackPrecip daily [])
     = get k (meanByMonth meanPrecip fallbackPrecip daily (aggregate daily))
     /\
     get k (meanByMonth meanWind fallbackWind daily [])
     = get k (meanByMonth meanWind fallbackWind daily (aggregate daily))).
  { intro k. rewrite !get_fallback, !get_precomputed by assumption.
    pose proof (find_aggregate daily k) as F.
    destruct (group k daily).
    - rewrite F. auto.
    - destruct F as [y ->]. cbn [toMonthly meanTemp meanPrecip meanWind].
      rewrite !nullish_meanOf. repeat split. }
  split; [exact Hk|]. split.
  - rewrite orderedMonths_aggregate by assumption.
    destruct (fallback_months_sorted_core daily) as [Hn Hin].
    apply NoDup_Permutation; [exact Hn|apply aggregate_keys_NoDup|].
    intro k. rewrite Hin. split.
    + intros (d & Hd & <-). now apply aggregate_has_month.
    + intro H. apply in_map_iff in H. destruct H as (mo & <- & Hmo).
      destruct (aggregate_elem _ _ Hmo) as (d & Hd & ->). now exists d.
  - intro E. destruct daily as [|d0 l]; [contradiction|].
    unfold getHistoricalData. rewrite E.
    f_equal; apply map_ext; intro k; unfold meanOrZero;
      destruct (Hk k) as (H1 & H2 & H3).
    + change (fun a : Agg => meanOf (tSum a) (tN a)) with fallbackTemp.
      now rewrite H1.
    + change (fun a : Agg => meanOf (pSum a) (pN a)) with fallbackPrecip.
      now rewrite H2.
    + change (fun a : Agg => meanOf (wSum a) (wN a)) with fallbackWind.
      now rewrite H3.
Qed.

Lemma fallback_agrees_witness :
  acrossYears <> [] /\
  getHistoricalData acrossYears []
  = getHistoricalData acrossYears (aggregate acrossYears).
Proof.
  assert (Hne : acrossYears <> []) by discriminate.
  split; [exact Hne|].
  apply (proj2 (proj2 (fallback_agrees acrossYears Hne))).
  vm_compute. reflexivity.
Defined.

(** * The geometry of the chart *)

Lemma fraction_scaled (a b c : Q) :
  (0 <= a <= b -> 0 < b -> 0 <= c -> 0 <= a / b * c <= c)%Q.
Proof.
  intros [Ha Hab] Hb Hc.
  assert (H0 : (0 <= a / b)%Q) by (apply Qle_shift_div_l; [exact Hb|lra]).
  assert (H1 : (a / b <= 1)%Q) by (apply Qle_shift_div_r; [exact Hb|lra]).
  split.
  - apply Qmult_le_0_compat; assumption.
  - setoid_replace c with (1 * c)%Q at 2 by ring.
    now apply Qmult_le_compat_r.
Qed.

Lemma fraction_increasing (a a' b c : Q) :
  (a < a' -> 0 < b -> 0 < c -> a / b * c < a' / b * c)%Q.
Proof.
  intros Ha Hb Hc.
  apply Qmult_lt_compat_r; [exact Hc|].
  unfold Qdiv. apply Qmult_lt_compat_r; [|exact Ha].
  now apply Qinv_lt_0_compat.
Qed.

Lemma chartWidth_wide (compact : bool) (data : list jsval) :
  (276 <= inject_Z (chartWidth compact data) - 24)%Q.
Proof.
  assert (H : 300 <= chartWidth compact data)
    by (unfold chartWidth; destruct compact; lia).
  rewrite Zle_Qle in H. change (inject_Z 300) with 300%Q in H. lra.
Qed.

Lemma chartScale_spec (data : list jsval) (min range : Q) :
  chartScale data = Some (min, range) ->
  (1 <= range)%Q /\
  forall q, In q (numbers data) -> (min <= q <= min + range)%Q.
Proof.
  unfold chartScale.
  destruct (mathMax (numbers data)) as [max|] eqn:Hmax; [|discriminate].
  destruct (mathMin (numbers data)) as [mn|] eqn:Hmin; [|discriminate].
  intros [= <- <-].
  apply mathMax_spec in Hmax. apply mathMin_spec in Hmin.
  pose proof (Q.le_max_l 1 (max - mn)) as H1.
  pose proof (Q.le_max_r 1 (max - mn)) as H2.
  split; [exact H1|]. intros q Hq.
  destruct Hmax as [_ Hmax], Hmin as [_ Hmin].
  specialize (Hmax q Hq). specialize (Hmin q Hq). split; lra.
Qed.

(** The points of a drawn chart, with its scale. *)
Lemma LineChart_points (data : list jsval) (height : Z) (compact : bool)
  (indices : list Z) (rendered : list jsval) (points : list (Q * Q)) :
  LineChart data height compact = Chart indices rendered points ->
  exists min range,
    chartScale data = Some (min, range) /\
    points
    = flat_map (fun dataIndex =>
                  match at_ data dataIndex with
                  | JNum value =>
                      [(xCoordinate compact data indices dataIndex,
                        yCoordinate height min range value)]
                  | _ => []
                  end) indices.
Proof.
  unfold LineChart, chartScale. destruct data as [|d0 data']; [discriminate|].
  destruct (mathMax (numbers (d0 :: data'))) as [max|]; [|discriminate].
  destruct (mathMin (numbers (d0 :: data'))) as [min|]; [|discriminate].
  intros [= <- <- <-]. eexists. eexists. split; reflexivity.
Qed.

Lemma at_In (data : list jsval) (i : Z) (q : Q) :
  at_ data i = JNum q -> In q (numbers data).
Proof.
  unfold at_. destruct (i <? 0); [discriminate|]. intro H.
  apply numbers_In. rewrite <- H.
  destruct (Nat.lt_ge_cases (Z.to_nat i) (List.length data)) as [L|G].
  - now apply nth_In.
  - rewrite nth_overflow in H by assumption. discriminate.
Qed.

Lemma yCoordinate_bounds (height : Z) (min range value : Q) :
  42 <= height -> (1 <= range)%Q -> (min <= value <= min + range)%Q ->
  (12 <= yCoordinate height min range value <= inject_Z height - 30)%Q.
Proof.
  intros Hh Hr Hv. unfold yCoordinate.
  assert (Hc : (0 <= inject_Z height - 42)%Q).
  { rewrite Zle_Qle in Hh. change (inject_Z 42) with 42%Q in Hh. lra. }
  destruct (fraction_scaled (value - min) range (inject_Z height - 42))
    as [H0 H1]; [lra|lra|exact Hc|].
  split; lra.
Qed.

(** The horizontal coordinate of a position, within the margins. *)
Lemma position_bounds (i m : nat) (innerWidth : Q) :
  (i < m)%nat -> (0 <= innerWidth)%Q ->
  (12 <= (if (m =? 1)%nat then 12
          else inject_Z (Z.of_nat i) / inject_Z (Z.of_nat m - 1) * innerWidth
               + 12)
   <= innerWidth + 12)%Q.
Proof.
  intros Hi Hw. destruct (m =? 1)%nat eqn:E; [lra|].
  apply Nat.eqb_neq in E.
  destruct (fraction_scaled (inject_Z (Z.of_nat i))
              (inject_Z (Z.of_nat m - 1)) innerWidth) as [H0 H1].
  - split.
    + rewrite <- (Zle_Qle 0). lia.
    + rewrite <- Zle_Qle. lia.
  - rewrite <- (Zlt_Qlt 0). lia.
  - exact Hw.
  - split; lra.
Qed.

(** X7.  Every point of a chart at least 42 high lies inside the plot area:
    between the left and the right margin, and between the top of the plot and
    the horizontal axis. *)
Theorem points_in_plot (data : list jsval) (height : Z) (compact : bool) :
  numbers data <> [] -> 42 <= height ->
  exists indices rendered points,
    LineChart data height compact = Chart indices rendered points /\
    forall x y, In (x, y) points ->
      (12 <= x <= inject_Z (chartWidth compact data) - 12)%Q /\
      (12 <= y <= inject_Z height - 30)%Q.
Proof.
  intros Hn Hh.
  destruct (LineChart_draws data height compact Hn)
    as (indices & rendered & points & H).
  exists indices, rendered, points. split; [exact H|].
  destruct (LineChart_points _ _ _ _ _ _ H) as (min & range & Hs & ->).
  destruct (chartScale_spec _ _ _ Hs) as [Hr Hq].
  destruct (chart_x _ _ _ _ _ _ H) as [Hx _].
  intros x y Hin. apply in_flat_map in Hin.
  destruct Hin as (di & Hdi & Hin).
  destruct (at_ data di) as [| |value] eqn:Ea;
    [destruct Hin|destruct Hin|].
  destruct Hin as [[= <- <-]|[]]. split.
  - destruct (In_nth _ _ 0 Hdi) as (i & Hi & <-).
    rewrite (Hx i Hi).
    pose proof (chartWidth_wide compact data) as Hw.
    destruct (position_bounds i (List.length indices)
                (inject_Z (chartWidth compact data) - 24) Hi) as [H0 H1];
      [lra|].
    split; [exact H0|lra].
  - apply yCoordinate_bounds; [exact Hh|exact Hr|].
    apply Hq. now apply (at_In data di).
Qed.

Lemma points_in_plot_witness :
  numbers (ramp 5) <> [] /\ 42 <= 140 /\
  exists indices rendered points,
    LineChart (ramp 5) 140 false = Chart indices rendered points /\
    forall x y, In (x, y) points ->
      (12 <= x <= inject_Z (chartWidth false (ramp 5)) - 12)%Q /\
      (12 <= y <= inject_Z 140 - 30)%Q.
Proof.
  assert (Hn : numbers (ramp 5) <> []) by discriminate.
  assert (Hh : 42 <= 140) by lia.
  split; [exact Hn|]. split; [exact Hh|].
  exact (points_in_plot (ramp 5) 140 false Hn Hh).
Defined.

Lemma sorted_by_position {A : Type} (R : A -> A -> Prop) (d : A)
  (l : list A) :
  (forall i j, (i < j < List.length l)%nat -> R (nth i l d) (nth j l d)) ->
  StronglySorted R l.
Proof.
  induction l as [|a l IH]; intro H; constructor.
  - apply IH. intros i j Hij. apply (H (S i) (S j)). simpl. lia.
  - apply Forall_forall. intros b Hb.
    destruct (In_nth _ _ d Hb) as (j & Hj & <-).
    apply (H 0%nat (S j)). simpl. lia.
Qed.

Lemma sorted_flat_map {A B : Type} (R : B -> B -> Prop) (f : A -> B)
  (keep : A -> bool) (l : list A) :
  StronglySorted R (map f l) ->
  StronglySorted R (flat_map (fun a => if keep a then [f a] else []) l).
Proof.
  induction l as [|a l IH]; intro H; [constructor|].
  simpl in H. inversion H as [|? ? Hs Ha]; subst. simpl.
  destruct (keep a); simpl; [|now apply IH].
  constructor; [now apply IH|].
  rewrite Forall_forall in *. intros b Hb.
  apply in_flat_map in Hb. destruct Hb as (x & Hx & Hb).
  destruct (keep x); [|destruct Hb]. destruct Hb as [<-|[]].
  apply Ha. now apply in_map.
Qed.

(** X8.  The points of a drawn chart run strictly from left to right: no two
    share a horizontal coordinate, and none steps back. *)
Theorem points_left_to_right (data : list jsval) (height : Z)
  (compact : bool) :
  numbers data <> [] ->
  exists indices rendered points,
    LineChart data height compact = Chart indices rendered points /\
    StronglySorted Qlt (map fst points).
Proof.
  intro Hn.
  destruct (LineChart_draws data height compact Hn)
    as (indices & rendered & points & H).
  exists indices, rendered, points. split; [exact H|].
  destruct (chart_x _ _ _ _ _ _ H) as [Hx Hp].
  rewrite Hp.
  assert (E : forall l : list Z,
             flat_map (fun dataIndex =>
                         match at_ data dataIndex with
                         | JNum _ =>
                             [xCoordinate compact data indices dataIndex]
                         | _ => []
                         end) l
             = flat_map (fun a => if present (at_ data a)
                                  then [xCoordinate compact data indices a]
                                  else []) l).
  { intro l. apply flat_map_ext. intro a. now destruct (at_ data a). }
  rewrite E. apply sorted_flat_map.
  apply (sorted_by_position Qlt 0%Q). rewrite length_map.
  intros i j Hij.
  change 0%Q with (0%Q : Q).
  rewrite !(nth_indep _ 0%Q (xCoordinate compact data indices 0%Z))
    by (rewrite length_map; lia).
  rewrite !map_nth.
  rewrite (Hx i), (Hx j) by lia.
  destruct (List.length indices =? 1)%nat eqn:E1;
    [apply Nat.eqb_eq in E1; lia|].
  pose proof (chartWidth_wide compact data) as Hw.
  apply Qplus_lt_l. apply fraction_increasing.
  - rewrite <- Zlt_Qlt. lia.
  - rewrite <- (Zlt_Qlt 0). lia.
  - lra.
Qed.

Lemma points_left_to_right_witness :
  numbers (ramp 200) <> [] /\
  exists indices rendered points,
    LineChart (ramp 200) 140 true = Chart indices rendered points /\
    StronglySorted Qlt (map fst points).
Proof.
  assert (Hn : numbers (ramp 200) <> []) by discriminate.
  split; [exact Hn|].
  exact (points_left_to_right (ramp 200) 140 true Hn).
Defined.

Lemma yearChanges_range (labels : list string) (i : Z) :
  In i (yearChanges labels) -> 0 <= i < Z.of_nat (List.length labels).
Proof.
  unfold yearChanges.
  set (items := combine (map Z.of_nat (seq 0 (List.length labels))) labels).
  assert (G : forall l st,
    (forall j, In j (snd st) -> 0 <= j < Z.of_nat (List.length labels)) ->
    (forall it, In it l -> 0 <= fst it < Z.of_nat (List.length labels)) ->
    forall j, In j (snd (fold_left yearStep l st)) ->
              0 <= j < Z.of_nat (List.length labels)).
  { induction l as [|it l IH]; intros st Hst Hl j; simpl; [apply Hst|].
    apply IH; [|intros; apply Hl; now right].
    intros j'. unfold yearStep.
    destruct (yearOf (snd it)); [|apply Hst].
    destruct (_ && _); [|apply Hst].
    simpl. rewrite in_app_iff. intros [H|[<-|[]]]; [now apply Hst|].
    apply Hl. now left. }
  apply G; [intros j []|].
  intros [a b] H. apply in_combine_l in H. simpl.
  apply in_map_iff in H. destruct H as (k & <- & Hk). apply in_seq in Hk. lia.
Qed.

Lemma labelIndices_spec (labels : list string) (showYearLabels : bool) :
  labels <> [] ->
  let n := Z.of_nat (List.length labels) in
  StronglySorted Z.le (labelIndices labels showYearLabels) /\
  (forall i, In i (labelIndices labels showYearLabels) -> 0 <= i < n) /\
  In 0 (labelIndices labels showYearLabels) /\
  In (n - 1) (labelIndices labels showYearLabels) /\
  (showYearLabels = true -> 12 < n ->
   StronglySorted Z.lt (labelIndices labels showYearLabels)).
Proof.
  intros Hne n.
  assert (Hn : 1 <= n).
  { unfold n. destruct labels; [contradiction|]. simpl List.length. lia. }
  unfold labelIndices. fold n.
  destruct (showYearLabels && (12 <? n)) eqn:E.
  - set (l := [0] ++ yearChanges labels ++ [n - 1]).
    destruct (setOf_spec l) as [Hnd Hin].
    assert (Hnd' : NoDup (sort (fun a b => a - b) (setOf l)))
      by (eapply Permutation_NoDup; [apply sort_perm|exact Hnd]).
    assert (Hs : StronglySorted Z.lt (sort (fun a b => a - b) (setOf l))).
    { apply sorted_lt; [exact Hnd'|]. apply sort_sorted; intros; lia. }
    split; [|split; [|split; [|split]]].
    + eapply StronglySorted_impl; [|exact Hs]. intros; lia.
    + intros i. rewrite sort_In, Hin. unfold l. rewrite !in_app_iff.
      intros [[<-|[]]|[H|[<-|[]]]]; try lia.
      now apply yearChanges_range.
    + rewrite sort_In, Hin. now left.
    + rewrite sort_In, Hin. unfold l. rewrite !in_app_iff. right. right.
      now left.
    + intros _ _. exact Hs.
  - assert (H2 : 0 <= (n - 1) / 2 <= n - 1).
    { split; [apply Z.div_pos; lia|]. apply Z.div_le_upper_bound; lia. }
    split; [|split; [|split; [|split]]].
    + repeat constructor; lia.
    + simpl. intros i [<-|[<-|[<-|[]]]]; lia.
    + now left.
    + right. right. now left.
    + intros -> H. apply Z.ltb_lt in H. rewrite H in E. discriminate.
Qed.

Lemma sorted_first (l : list Z) (lo : Z) :
  StronglySorted Z.le l -> In lo l -> (forall i, In i l -> lo <= i) ->
  exists t, l = lo :: t.
Proof.
  intros Hs Hin Hlo. destruct l as [|a t]; [destruct Hin|].
  exists t. f_equal. inversion Hs as [|? ? _ Ha]; subst.
  rewrite Forall_forall in Ha. specialize (Hlo a (or_introl eq_refl)).
  destruct Hin as [->|Hin]; [reflexivity|]. specialize (Ha lo Hin). lia.
Qed.

Lemma sorted_last (l : list Z) (hi d : Z) :
  StronglySorted Z.le l -> In hi l -> (forall i, In i l -> i <= hi) ->
  last l d = hi.
Proof.
  intros Hs. revert d. induction Hs as [|a t Hs IH Ha]; intros d Hin Hhi.
  - destruct Hin.
  - destruct t as [|b t'].
    + destruct Hin as [->|[]]. reflexivity.
    + change (last (a :: b :: t') d) with (last (b :: t') d).
      apply IH; [|intros; apply Hhi; now right].
      destruct Hin as [->|Hin]; [|exact Hin].
      rewrite Forall_forall in Ha.
      assert (Hb : hi <= b) by (apply Ha; now left).
      assert (Hb' : b <= hi) by (apply Hhi; right; now left).
      left. lia.
Qed.

Lemma last_map_default {A B : Type} (f : A -> B) (l : list A) (d : A) :
  last (map f l) (f d) = f (last l d).
Proof.
  induction l as [|a [|b t] IH]; [reflexivity|reflexivity|].
  change (last (f a :: map f (b :: t)) (f d))
    with (last (map f (b :: t)) (f d)).
  exact IH.
Qed.

Lemma xCoordinate_plain (data : list jsval) (indices : list Z) (idx : Z) :
  1 <= Z.of_nat (List.length data) ->
  (xCoordinate false data indices idx
   == inject_Z idx / inject_Z (Z.max 1 (Z.of_nat (List.length data) - 1))
      * (inject_Z (chartWidth false data) - 24) + 12)%Q.
Proof.
  intros H. set (n := Z.of_nat (List.length data)) in *.
  unfold xCoordinate. simpl andb. cbv iota zeta. fold n.
  destruct (n - 1 =? 0) eqn:E.
  - apply Z.eqb_eq in E. rewrite E. reflexivity.
  - apply Z.eqb_neq in E.
    replace (Z.max 1 (n - 1)) with (n - 1) by lia. reflexivity.
Qed.

Lemma xCoordinate_plain_bounds (data : list jsval) (indices : list Z)
  (idx : Z) :
  0 <= idx < Z.of_nat (List.length data) ->
  (12 <= xCoordinate false data indices idx
   <= inject_Z (chartWidth false data) - 12)%Q.
Proof.
  intro Hi. rewrite xCoordinate_plain by lia.
  set (n := Z.of_nat (List.length data)) in *.
  pose proof (chartWidth_wide false data) as Hw.
  destruct (fraction_scaled (inject_Z idx) (inject_Z (Z.max 1 (n - 1)))
              (inject_Z (chartWidth false data) - 24)) as [H0 H1].
  - split; [rewrite <- (Zle_Qle 0); lia|rewrite <- Zle_Qle; lia].
  - rewrite <- (Zlt_Qlt 0). lia.
  - lra.
  - split; lra.
Qed.

Lemma xCoordinate_plain_mono (data : list jsval) (indices : list Z)
  (i j : Z) :
  1 <= Z.of_nat (List.length data) -> i <= j ->
  (xCoordinate false data indices i <= xCoordinate false data indices j)%Q.
Proof.
  intros H1 Hij. rewrite !xCoordinate_plain by exact H1.
  set (n := Z.of_nat (List.length data)).
  pose proof (chartWidth_wide false data) as Hw.
  destruct (Z.eq_dec i j) as [->|Hne]; [lra|].
  apply Qlt_le_weak.
  assert (H : (inject_Z i / inject_Z (Z.max 1 (n - 1))
               * (inject_Z (chartWidth false data) - 24)
               < inject_Z j / inject_Z (Z.max 1 (n - 1))
                 * (inject_Z (chartWidth false data) - 24))%Q).
  { apply fraction_increasing.
    - rewrite <- Zlt_Qlt. lia.
    - rewrite <- (Zlt_Qlt 0). lia.
    - lra. }
  lra.
Qed.

Lemma getAxisLabelPositions_plain (compact : bool) (data : list jsval)
  (indices : list Z) (labels : list string) (showYearLabels : bool) :
  labels <> [] ->
  getAxisLabelPositions compact data indices labels showYearLabels
  = map (fun idx =>
           mkAxisLabel (xCoordinate compact data indices idx)
             (nth (Z.to_nat idx) labels EmptyString) idx)
      (labelIndices labels showYearLabels).
Proof.
  intro Hne.
  destruct (labelIndices_spec labels showYearLabels Hne) as (_ & Hr & _).
  unfold getAxisLabelPositions.
  destruct labels as [|l0 ls] eqn:El; [contradiction|]. rewrite <- El in *.
  clear El. induction (labelIndices labels showYearLabels) as [|i t IH];
    [reflexivity|].
  simpl. destruct (i <? Z.of_nat (List.length labels)) eqn:E.
  - simpl. f_equal. apply IH. intros; apply Hr; now right.
  - apply Z.ltb_ge in E. specialize (Hr i (or_introl eq_refl)). lia.
Qed.

(** X10.  The labels under a chart that is not compact, with one label per
    value: the first label stands at the left margin and the last one, in a
    chart of two values or more, at the right margin; the labels follow each
    other from left to right in the order of their indices, none of them
    outside the margins, and each one shows the label of its index. *)
Theorem axis_labels_placed (data : list jsval) (indices : list Z)
  (labels : list string) (showYearLabels : bool) :
  labels <> [] -> List.length labels = List.length data ->
  let n := Z.of_nat (List.length labels) in
  let width := inject_Z (chartWidth false data) in
  let positions :=
    getAxisLabelPositions false data indices labels showYearLabels in
  (exists first rest,
     positions = first :: rest /\
     axisIndex first = 0 /\ (axisX first == 12)%Q /\
     axisIndex (last positions first) = n - 1 /\
     (2 <= n -> (axisX (last positions first) == width - 12)%Q)) /\
  StronglySorted
    (fun a b => axisIndex a <= axisIndex b /\ (axisX a <= axisX b)%Q)
    positions /\
  (showYearLabels = true -> 12 < n ->
   StronglySorted (fun a b => axisIndex a < axisIndex b) positions) /\
  forall p, In p positions ->
    0 <= axisIndex p < n /\
    axisText p = nth (Z.to_nat (axisIndex p)) labels EmptyString /\
    (12 <= axisX p <= width - 12)%Q.
Proof.
  intros Hne Hlen n width positions.
  destruct (labelIndices_spec labels showYearLabels Hne)
    as (Hs & Hr & H0 & Hn & Hy). fold n in Hr, Hn, Hy.
  pose (f := fun idx =>
           mkAxisLabel (xCoordinate false data indices idx)
             (nth (Z.to_nat idx) labels EmptyString) idx).
  assert (Hp : positions = map f (labelIndices labels showYearLabels))
    by (apply getAxisLabelPositions_plain; exact Hne).
  assert (Hnd : n = Z.of_nat (List.length data)) by (unfold n; lia).
  assert (H1 : 1 <= Z.of_nat (List.length data)).
  { rewrite <- Hnd. specialize (Hr 0 H0). lia. }
  split; [|split; [|split]].
  - destruct (sorted_first _ 0 Hs H0) as [t Ht];
      [intros i Hi; apply Hr in Hi; lia|].
    exists (f 0), (map f t). rewrite Hp, Ht. split; [reflexivity|].
    split; [reflexivity|]. split.
    + unfold f; cbn [axisX]. rewrite xCoordinate_plain by exact H1.
      change (inject_Z 0) with 0%Q. unfold Qdiv. ring.
    + rewrite <- Ht, last_map_default.
      rewrite (sorted_last _ (n - 1) 0 Hs Hn)
        by (intros i Hi; apply Hr in Hi; lia).
      split; [reflexivity|]. intro H2. unfold f; cbn [axisX].
      rewrite xCoordinate_plain by exact H1. rewrite <- Hnd.
      replace (Z.max 1 (n - 1)) with (n - 1) by lia. unfold width.
      assert (Hnz : ~ (inject_Z (n - 1) == 0)%Q).
      { intro E. unfold Qeq in E. simpl in E. lia. }
      field. exact Hnz.
  - rewrite Hp. clear - Hs H1. induction Hs as [|a t Hs IH Ha];
      [constructor|].
    simpl. constructor; [exact IH|].
    rewrite Forall_forall in *. intros b Hb. apply in_map_iff in Hb.
    destruct Hb as (j & <- & Hj). specialize (Ha j Hj).
    unfold f; cbn [axisIndex axisX].
    split; [exact Ha|]. apply xCoordinate_plain_mono; [|exact Ha].
    exact H1.
  - intros Hy1 Hy2. specialize (Hy Hy1 Hy2). rewrite Hp.
    clear - Hy. induction Hy as [|a t Hs IH Ha]; [constructor|].
    simpl. constructor; [exact IH|].
    rewrite Forall_forall in *. intros b Hb. apply in_map_iff in Hb.
    destruct Hb as (j & <- & Hj). exact (Ha j Hj).
  - intros p Hin. rewrite Hp in Hin. apply in_map_iff in Hin.
    destruct Hin as (i & <- & Hi). unfold f; cbn [axisIndex axisText axisX].
    specialize (Hr i Hi). split; [exact Hr|]. split; [reflexivity|].
    apply xCoordinate_plain_bounds. lia.
Qed.

Lemma axis_labels_placed_witness :
  let labels := ["Jan 01"; "Jan 02"; "Jan 03"; "Jan 04"; "Jan 05"] in
  labels <> [] /\ List.length labels = List.length (ramp 5) /\
  map axisIndex (getAxisLabelPositions false (ramp 5) [] labels false)
  = [0; 2; 4] /\
  forall p, In p (getAxisLabelPositions false (ramp 5) [] labels false) ->
    (12 <= axisX p <= inject_Z (chartWidth false (ramp 5)) - 12)%Q.
Proof.
  intro labels.
  assert (Hne : labels <> []) by discriminate.
  assert (Hlen : List.length labels = List.length (ramp 5)) by reflexivity.
  split; [exact Hne|]. split; [exact Hlen|]. split; [reflexivity|].
  intros p Hp.
  apply (proj2 (proj2 (proj2
           (axis_labels_placed (ramp 5) [] labels false Hne Hlen))) p Hp).
Defined.

Lemma indexFrom_absent {A : Type} (eqb : A -> bool) (l : list A) (i0 : Z) :
  (forall y, In y l -> eqb y = false) -> indexFrom eqb l i0 = -1.
Proof.
  revert i0. induction l as [|x l IH]; intros i0 H; [reflexivity|].
  simpl. rewrite (H x (or_introl eq_refl)). apply IH.
  intros y Hy. apply H. now right.
Qed.

Lemma indexOf_range (x : Z) (l : list Z) :
  (In x l -> 0 <= indexOf x l < Z.of_nat (List.length l)) /\
  (~ In x l -> indexOf x l = -1).
Proof.
  unfold indexOf. split.
  - intro H.
    destruct (indexFrom_spec (Z.eqb x) 0 l) with (i0 := 0) as (Hk & _).
    + exists x. split; [exact H|apply Z.eqb_refl].
    + lia.
  - intro H. apply indexFrom_absent. intros y Hy. apply Z.eqb_neq.
    intros ->. contradiction.
Qed.

(** X11.  The labels under a compact chart of more than 100 values. A label
    whose index is one of the indices drawn stands between the margins; a
    label whose index was dropped by the down-sampling stands left of the
    vertical axis, outside the plot. *)
Theorem compact_label_positions (data : list jsval) (height : Z)
  (labels : list string) (showYearLabels : bool)
  (indices : list Z) (rendered : list jsval) (points : list (Q * Q)) :
  LineChart data height true = Chart indices rendered points ->
  (100 < List.length data)%nat ->
  forall p,
    In p (getAxisLabelPositions true data indices labels showYearLabels) ->
    (In (axisIndex p) indices -> (12 <= axisX p <= 288)%Q) /\
    (~ In (axisIndex p) indices -> (axisX p < 12)%Q).
Proof.
  intros Hc Hl p Hp.
  destruct (chart_indices _ _ _ _ _ _ Hc) as (_ & Hlarge & _).
  destruct (Hlarge (conj eq_refl Hl)) as (mx & mn & _ & _ & Hs & Hin & _).
  assert (Hm : 2 <= Z.of_nat (List.length indices)).
  { assert (H0 : In 0 indices) by (apply Hin; now left).
    assert (H1 : In (Z.of_nat (List.length data) - 1) indices)
      by (apply Hin; right; now left).
    destruct indices as [|a [|b t]]; [destruct H0| |simpl List.length; lia].
    destruct H0 as [H0|[]]. destruct H1 as [H1|[]]. lia. }
  assert (Hx : axisX p
               = xCoordinate true data indices (axisIndex p)).
  { unfold getAxisLabelPositions in Hp. destruct labels; [destruct Hp|].
    apply in_flat_map in Hp. destruct Hp as (i & _ & Hp).
    destruct (i <? _); [|destruct Hp]. destruct Hp as [<-|[]]. reflexivity. }
  rewrite Hx. unfold xCoordinate.
  assert (Hbig : isLargeDataset data = true) by now apply isLargeDataset_iff.
  rewrite Hbig. simpl andb. cbv iota zeta.
  set (m := Z.of_nat (List.length indices)) in *.
  destruct (m - 1 =? 0) eqn:E; [apply Z.eqb_eq in E; lia|].
  unfold chartWidth. change (inject_Z 300 - 24)%Q with 276%Q.
  destruct (indexOf_range (axisIndex p) indices) as [Hi Ha].
  split; intro H.
  - specialize (Hi H). fold m in Hi.
    destruct (fraction_scaled (inject_Z (indexOf (axisIndex p) indices))
                (inject_Z (m - 1)) 276) as [A B].
    + split; [rewrite <- (Zle_Qle 0); lia|rewrite <- Zle_Qle; lia].
    + rewrite <- (Zlt_Qlt 0). lia.
    + lra.
    + split; lra.
  - rewrite (Ha H).
    assert (F : (inject_Z (-1) / inject_Z (m - 1) * 276
                 < inject_Z 0 / inject_Z (m - 1) * 276)%Q).
    { apply fraction_increasing; [reflexivity| |reflexivity].
      rewrite <- (Zlt_Qlt 0). lia. }
    assert (Z0 : (inject_Z 0 / inject_Z (m - 1) * 276 == 0)%Q)
      by (change (inject_Z 0) with 0%Q; unfold Qdiv; ring).
    lra.
Qed.

Lemma compact_label_positions_witness :
  exists indices rendered points p,
    LineChart (ramp 200) 140 true = Chart indices rendered points /\
    (100 < List.length (ramp 200))%nat /\
    In p (getAxisLabelPositions true (ramp 200) indices
            (repeat "Jan 01" 200) false) /\
    axisIndex p = 99 /\ ~ In 99 indices /\ (axisX p < 12)%Q.
Proof.
  destruct (LineChart (ramp 200) 140 true) as [| |indices rendered points]
    eqn:Hc; [discriminate Hc|discriminate Hc|].
  assert (Hl : (100 < List.length (ramp 200))%nat) by (vm_compute; lia).
  assert (Hi : indices
               = pointIndices true (ramp 200) 199 0).
  { vm_compute in Hc. injection Hc as <- _ _. vm_compute. reflexivity. }
  pose (p := mkAxisLabel (xCoordinate true (ramp 200) indices 99)
               "Jan 01" 99).
  assert (Hp : In p (getAxisLabelPositions true (ramp 200) indices
                       (repeat "Jan 01" 200) false)).
  { right. left. reflexivity. }
  assert (Hn : ~ In 99 indices).
  { rewrite Hi. vm_compute. intuition discriminate. }
  exists indices, rendered, points, p.
  split; [reflexivity|]. split; [exact Hl|]. split; [exact Hp|].
  split; [reflexivity|]. split; [exact Hn|].
  exact (proj2 (compact_label_positions (ramp 200) 140 (repeat "Jan 01" 200)
                  false indices rendered points Hc Hl p Hp) Hn).
Defined.

Lemma mapi_dates (data : list (string * ParamData)) (available : list string)
  (dates : list Date) (n : nat) :
  map date (mapi (dailyObject data available) n dates) = dates.
Proof.
  revert n. induction dates as [|d l IH]; intro n; [reflexivity|].
  simpl. now rewrite IH, dailyObject_fields.
Qed.

(** X12.  Whatever the payload, a result of [processApiData] is of one of two
    kinds. Either it has data: then there is one daily record per temperature
    date, in the order of the dates, at least one month, and no error message.
    Or it has none: then both sequences are empty and an error message is set.
    In both, [monthly] is the aggregate of [daily]. *)
Theorem processApiData_result (apiData : option ApiData) (r : Processed) :
  processApiData apiData = Returns r ->
  monthly r = aggregate (daily r) /\
  (hasData r = true /\ daily r <> [] /\ monthly r <> [] /\
   errorMessage r = None /\
   (exists api entries,
      apiData = Some api /\ data api = Some entries /\
      temperatureDates entries = Some (map date (daily r)))
   \/
   hasData r = false /\ daily r = [] /\ monthly r = [] /\
   (errorMessage r = Some noData \/ errorMessage r = Some noTemperature)).
Proof.
  unfold processApiData.
  destruct apiData as [api|];
    [|intros [= <-]; cbn; split; [reflexivity|]; right; auto].
  destruct (data api) as [entries|] eqn:Hd;
    [|intros [= <-]; cbn; split; [reflexivity|]; right; auto].
  destruct (temperatureDates entries) as [days|] eqn:Ht;
    [|intros [= <-]; cbn; split; [reflexivity|]; right; auto].
  destruct (available api) as [av|]; [|discriminate].
  intros [= <-]. cbn [daily monthly hasData errorMessage].
  split; [reflexivity|]. left.
  assert (Hne : mapi (dailyObject entries av) 0 days <> []).
  { unfold temperatureDates in Ht.
    destruct (get "T2M" entries); [|discriminate].
    destruct (dates p) as [[|d ds]|]; try discriminate.
    injection Ht as <-. discriminate. }
  split; [reflexivity|]. split; [exact Hne|].
  split; [now apply aggregate_nonempty|]. split; [reflexivity|].
  exists api, entries. rewrite mapi_dates. auto.
Qed.

Lemma processApiData_result_witness :
  exists r,
    processApiData
      (Some (mkApi (Some shortPayload) (Some ["T2M"; "PRECTOT"; "WS2M"])))
    = Returns r /\
    hasData r = true /\ List.length (daily r) = 2%nat /\
    monthly r = aggregate (daily r).
Proof.
  destruct (processApiData
              (Some (mkApi (Some shortPayload)
                       (Some ["T2M"; "PRECTOT"; "WS2M"]))))
    as [r|e] eqn:E; [|discriminate E].
  exists r. split; [reflexivity|].
  pose proof (proj1 (processApiData_result _ _ E)) as Hm.
  split; [|split; [|exact Hm]]; injection E as <-; reflexivity.
Defined.

(** X13.  [processApiData] reads [available] as a set: two arrays with the
    same members, in any order and with any repetitions, give the same result;
    and so do two arrays that differ only by codes other than T2M, PRECTOT and
    WS2M. *)
Theorem available_is_a_set (entries : list (string * ParamData))
  (a b : list string) :
  (forall p, In p ["T2M"; "PRECTOT"; "WS2M"] -> (In p a <-> In p b)) ->
  processApiData (Some (mkApi (Some entries) (Some a)))
  = processApiData (Some (mkApi (Some entries) (Some b))).
Proof.
  intro H. unfold processApiData. cbn [data available].
  destruct (temperatureDates entries) as [dates|]; [|reflexivity].
  assert (E : mapi (dailyObject entries a) 0 dates
              = mapi (dailyObject entries b) 0 dates).
  { apply mapi_ext. intros i d. rewrite !dailyObject_fields.
    unfold fieldOf.
    assert (G : forall param, In param ["T2M"; "PRECTOT"; "WS2M"] ->
              existsb (String.eqb param) a = existsb (String.eqb param) b).
    { intros param Hp.
      assert (F : forall l, existsb (String.eqb param) l = true
                            <-> In param l).
      { intro l. rewrite existsb_exists. split.
        - intros (x & Hx & E). apply String.eqb_eq in E. now subst.
        - intro Hq. exists param. split; [exact Hq|apply String.eqb_refl]. }
      specialize (H param Hp).
      destruct (existsb (String.eqb param) a) eqn:Ea,
               (existsb (String.eqb param) b) eqn:Eb; try reflexivity.
      - apply F, H, F in Ea. congruence.
      - apply F, H, F in Eb. congruence. }
    rewrite !G by (simpl; auto). reflexivity. }
  now rewrite E.
Qed.

Lemma available_is_a_set_witness :
  processApiData
    (Some (mkApi (Some shortPayload) (Some ["WS2M"; "T2M"; "XYZ"; "WS2M"])))
  = processApiData (Some (mkApi (Some shortPayload) (Some ["T2M"; "WS2M"]))).
Proof.
  apply available_is_a_set.
  intros p [<-|[<-|[<-|[]]]]; simpl; intuition discriminate.
Defined.

Lemma Qceiling_multiple (k n : Z) :
  0 < k -> Qceiling (inject_Z (k * n) / inject_Z k) = n.
Proof.
  intro Hk.
  assert (E : (inject_Z (k * n) / inject_Z k == inject_Z n)%Q).
  { rewrite inject_Z_mult. field. intro C. unfold Qeq in C. simpl in C. lia. }
  rewrite E. apply Qceiling_Z.
Qed.

Lemma year_length (y m d : Z) :
  365 <= daysFromCivil y m d - daysFromCivil (y - 1) m d <= 366.
Proof.
  unfold daysFromCivil. destruct (m <=? 2); cbv zeta;
    Z.div_mod_to_equations; lia.
Qed.

(** X14.  [validateDateRange] accepts exactly the ranges of 360 days or more.
    It refuses an end before the start with one message, and a range of less
    than 360 days with the message that the range cannot exceed 1 year. So it
    accepts the range that ends a year to the day after its start, as the page
    sets it, and ranges of any greater length; and it accepts any range one of
    whose dates cannot be read. *)
Theorem validateDateRange_accepts (startDate endDate : Date) :
  let day d := daysFromCivil (getFullYear d) (getMonth d + 1) (getDate d) in
  (validateDateRange (Some startDate) (Some endDate) = (true, None)
   <-> 360 <= day endDate - day startDate) /\
  (validateDateRange (Some startDate) (Some endDate)
   = (false, Some "End date cannot be before start date")
   <-> day endDate < day startDate) /\
  (validateDateRange (Some startDate) (Some endDate)
   = (false, Some "Date range cannot exceed 1 year")
   <-> 0 <= day endDate - day startDate < 360) /\
  (getFullYear endDate = getFullYear startDate + 1 ->
   getMonth endDate = getMonth startDate ->
   getDate endDate = getDate startDate ->
   validateDateRange (Some startDate) (Some endDate) = (true, None)) /\
  validateDateRange None (Some endDate) = (true, None) /\
  validateDateRange (Some startDate) None = (true, None).
Proof.
  intro day.
  assert (V : validateDateRange (Some startDate) (Some endDate)
              = if day endDate <? day startDate
                then (false, Some "End date cannot be before start date")
                else if day endDate - day startDate <? 360
                     then (false, Some "Date range cannot exceed 1 year")
                     else (true, None)).
  { unfold validateDateRange, getTime. fold (day startDate) (day endDate).
    cbv zeta.
    destruct (86400000 * day endDate <? 86400000 * day startDate) eqn:E1.
    - apply Z.ltb_lt in E1.
      assert (E2 : (day endDate <? day startDate) = true)
        by (apply Z.ltb_lt; lia).
      now rewrite E2.
    - apply Z.ltb_ge in E1.
      assert (E2 : (day endDate <? day startDate) = false)
        by (apply Z.ltb_ge; lia).
      rewrite E2.
      replace (Z.abs (86400000 * day endDate - 86400000 * day startDate))
        with (86400000 * (day endDate - day startDate)) by lia.
      change (1000 * 60 * 60 * 24) with 86400000.
      rewrite Qceiling_multiple by lia. reflexivity. }
  assert (R : 360 <= day endDate - day startDate ->
              validateDateRange (Some startDate) (Some endDate)
              = (true, None)).
  { intro H. rewrite V.
    destruct (day endDate <? day startDate) eqn:E1;
      [apply Z.ltb_lt in E1; lia|].
    destruct (day endDate - day startDate <? 360) eqn:E2;
      [apply Z.ltb_lt in E2; lia|reflexivity]. }
  split; [|split; [|split; [|split; [|split]]]]; try reflexivity.
  - split; [|exact R]. rewrite V.
    destruct (day endDate <? day startDate) eqn:E1; [discriminate|].
    destruct (day endDate - day startDate <? 360) eqn:E2; [discriminate|].
    apply Z.ltb_ge in E2. intros _. exact E2.
  - rewrite V.
    destruct (day endDate <? day startDate) eqn:E1.
    + apply Z.ltb_lt in E1. tauto.
    + apply Z.ltb_ge in E1.
      destruct (day endDate - day startDate <? 360);
        split; try discriminate; lia.
  - rewrite V.
    destruct (day endDate <? day startDate) eqn:E1.
    + apply Z.ltb_lt in E1. split; [discriminate|lia].
    + apply Z.ltb_ge in E1.
      destruct (day endDate - day startDate <? 360) eqn:E2.
      * apply Z.ltb_lt in E2. split; [lia|reflexivity].
      * apply Z.ltb_ge in E2. split; [discriminate|lia].
  - intros Hy Hm Hd. apply R. unfold day. rewrite Hy, Hm, Hd.
    pose proof (year_length (getFullYear startDate + 1)
                  (getMonth startDate + 1) (getDate startDate)) as Y.
    replace (getFullYear startDate + 1 - 1) with (getFullYear startDate)
      in Y by lia.
    lia.
Qed.

Lemma validateDateRange_accepts_witness :
  validateDateRange (Some (mkDate 2024 2 1)) (Some (mkDate 2024 2 8))
  = (false, Some "Date range cannot exceed 1 year") /\
  validateDateRange (Some (mkDate 2023 1 28)) (Some (mkDate 2024 1 28))
  = (true, None).
Proof.
  split.
  - apply (proj1 (proj2 (proj2
             (validateDateRange_accepts (mkDate 2024 2 1) (mkDate 2024 2 8))))).
    vm_compute. split; discriminate || reflexivity.
  - apply (proj1 (proj2 (proj2 (proj2
             (validateDateRange_accepts (mkDate 2023 1 28)
                (mkDate 2024 1 28)))))); reflexivity.
Defined.

Lemma floor_ge (z : Z) (x : Q) : z <= Qfloor x <-> (inject_Z z <= x)%Q.
Proof.
  split; intro H.
  - apply Qle_trans with (inject_Z (Qfloor x)); [|apply Qfloor_le].
    now rewrite <- Zle_Qle.
  - pose proof (Qlt_floor x) as L.
    assert (F : (inject_Z z < inject_Z (Qfloor x + 1))%Q) by lra.
    rewrite <- Zlt_Qlt in F. lia.
Qed.

Lemma tenth_gt (k n : Z) :
  (inject_Z k < inject_Z n / 10)%Q <-> 10 * k + 1 <= n.
Proof.
  assert (E : (inject_Z n / 10 == inject_Z n * (1 # 10))%Q)
    by (unfold Qdiv; reflexivity).
  rewrite E. split; intro H.
  - assert (F : (inject_Z (10 * k) < inject_Z n)%Q)
      by (rewrite inject_Z_mult; change (inject_Z 10) with 10%Q; lra).
    rewrite <- Zlt_Qlt in F. lia.
  - assert (F : (inject_Z (10 * k) < inject_Z n)%Q)
      by (rewrite <- Zlt_Qlt; lia).
    rewrite inject_Z_mult in F. change (inject_Z 10) with 10%Q in F. lra.
Qed.

Lemma tenth_lt (k n : Z) :
  (inject_Z n / 10 < inject_Z k)%Q <-> n < 10 * k.
Proof.
  assert (E : (inject_Z n / 10 == inject_Z n * (1 # 10))%Q)
    by (unfold Qdiv; reflexivity).
  rewrite E. split; intro H.
  - assert (F : (inject_Z n < inject_Z (10 * k))%Q)
      by (rewrite inject_Z_mult; change (inject_Z 10) with 10%Q; lra).
    rewrite <- Zlt_Qlt in F. lia.
  - assert (F : (inject_Z n < inject_Z (10 * k))%Q)
      by (rewrite <- Zlt_Qlt; lia).
    rewrite inject_Z_mult in F. change (inject_Z 10) with 10%Q in F. lra.
Qed.

Lemma Qabs_cases (q : Q) :
  ((0 <= q /\ Qabs q == q) \/ (q < 0 /\ Qabs q == - q))%Q.
Proof.
  destruct (Qlt_le_dec q 0) as [L|G].
  - right. split; [exact L|]. apply Qabs_neg. lra.
  - left. split; [exact G|]. now apply Qabs_pos.
Qed.

(** A one-decimal text exceeds a whole number from one twentieth above it
    on, and is below it up to one twentieth below it. *)
Lemma fixed1_gt (q : Q) (k : Z) :
  0 <= k < 10 ^ 21 - 1 ->
  (inject_Z k < fixed1 q <-> inject_Z k + (1 # 20) <= q)%Q.
Proof.
  intro Hk. unfold fixed1.
  assert (Hk0 : (0 <= inject_Z k)%Q) by (rewrite <- (Zle_Qle 0); lia).
  assert (Hk1 : (inject_Z k + 1 < inject_Z (10 ^ 21))%Q).
  { change 1%Q with (inject_Z 1). rewrite <- inject_Z_plus, <- Zlt_Qlt. lia. }
  destruct (Qabs_cases q) as [[Hq Ha]|[Hq Ha]];
    destruct (Qle_bool (inject_Z (10 ^ 21)) (Qabs q)) eqn:Eb.
  - apply Qle_bool_iff in Eb. rewrite Ha in Eb. split; intro; lra.
  - assert (Es : Qltb q 0 = false) by (apply Qltb_ge; exact Hq).
    cbv zeta. rewrite Es. rewrite tenth_gt, floor_ge.
    rewrite Ha, inject_Z_plus, inject_Z_mult.
    change (inject_Z 10) with 10%Q. change (inject_Z 1) with 1%Q.
    split; intro; lra.
  - apply Qle_bool_iff in Eb. rewrite Ha in Eb. split; intro; lra.
  - assert (Es : Qltb q 0 = true) by (apply Qltb_lt; exact Hq).
    cbv zeta. rewrite Es.
    set (n := Qfloor (Qabs q * 10 + (1 # 2))).
    assert (Hn : 0 <= n).
    { unfold n. apply floor_ge. rewrite Ha. change (inject_Z 0) with 0%Q.
      lra. }
    assert (Hn' : (0 <= inject_Z n / 10)%Q).
    { apply Qle_shift_div_l; [reflexivity|].
      assert (F : (0 <= inject_Z n)%Q) by (rewrite <- (Zle_Qle 0); lia).
      lra. }
    split; intro; lra.
Qed.

Lemma fixed1_lt (q : Q) (k : Z) :
  0 < k < 10 ^ 21 ->
  (fixed1 q < inject_Z k <-> q < inject_Z k - (1 # 20))%Q.
Proof.
  intro Hk. unfold fixed1.
  assert (Hk0 : (1 <= inject_Z k)%Q)
    by (change 1%Q with (inject_Z 1); rewrite <- Zle_Qle; lia).
  assert (Hk1 : (inject_Z k < inject_Z (10 ^ 21))%Q)
    by (rewrite <- Zlt_Qlt; lia).
  destruct (Qabs_cases q) as [[Hq Ha]|[Hq Ha]];
    destruct (Qle_bool (inject_Z (10 ^ 21)) (Qabs q)) eqn:Eb.
  - apply Qle_bool_iff in Eb. rewrite Ha in Eb. split; intro; lra.
  - assert (Es : Qltb q 0 = false) by (apply Qltb_ge; exact Hq).
    cbv zeta. rewrite Es. rewrite tenth_lt.
    assert (F : Qfloor (Qabs q * 10 + (1 # 2)) < 10 * k
                <-> ~ (10 * k <= Qfloor (Qabs q * 10 + (1 # 2)))) by lia.
    rewrite F, floor_ge, Ha, inject_Z_mult.
    change (inject_Z 10) with 10%Q.
    split; intro; lra.
  - apply Qle_bool_iff in Eb. rewrite Ha in Eb. split; intro; lra.
  - assert (Es : Qltb q 0 = true) by (apply Qltb_lt; exact Hq).
    cbv zeta. rewrite Es.
    set (n := Qfloor (Qabs q * 10 + (1 # 2))).
    assert (Hn : 0 <= n).
    { unfold n. apply floor_ge. rewrite Ha. change (inject_Z 0) with 0%Q.
      lra. }
    assert (Hn' : (0 <= inject_Z n / 10)%Q).
    { apply Qle_shift_div_l; [reflexivity|].
      assert (F : (0 <= inject_Z n)%Q) by (rewrite <- (Zle_Qle 0); lia).
      lra. }
    split; intro; lra.
Qed.

Lemma third_lt (n r : Z) :
  Qltb (inject_Z n / 3) (inject_Z r) = true <-> n < 3 * r.
Proof.
  rewrite Qltb_lt.
  assert (E : (inject_Z n / 3 == inject_Z n * (1 # 3))%Q)
    by (unfold Qdiv; reflexivity).
  rewrite E. split; intro H.
  - assert (F : (inject_Z n < inject_Z (3 * r))%Q)
      by (rewrite inject_Z_mult; change (inject_Z 3) with 3%Q; lra).
    rewrite <- Zlt_Qlt in F. exact F.
  - assert (F : (inject_Z n < inject_Z (3 * r))%Q)
      by (rewrite <- Zlt_Qlt; exact H).
    rewrite inject_Z_mult in F. change (inject_Z 3) with 3%Q in F. lra.
Qed.

Lemma decide_by (b : bool) (P : Prop) :
  (b = true <-> P) -> (b = true /\ P) \/ (b = false /\ ~ P).
Proof.
  intro H. destruct b; [left|right]; split; try reflexivity.
  - now apply H.
  - intro C. apply H in C. discriminate.
Qed.

Ltac pattern_cases :=
  repeat match goal with |- _ /\ _ => split end;
  (split; [discriminate || (intros _; tauto)
          |intro; (reflexivity || (exfalso; tauto))]).

Section ZeroFilled.
Variable f : DailyRecord -> jsval.

Lemma zero_filled_numbers (daily : list DailyRecord) :
  toNumbers (notNull (map (fun d => nullish (f d) (JNum 0)) daily))
  = Some (map (fun d => zeroFilled (f d)) daily).
Proof.
  induction daily as [|d l IH]; [reflexivity|].
  simpl map. unfold notNull in *.
  assert (E : exists q, nullish (f d) (JNum 0) = JNum q /\ zeroFilled (f d) = q)
    by (destruct (f d); simpl; eauto).
  destruct E as (q & -> & ->). simpl. now rewrite IH.
Qed.

Lemma zero_filled_sum (daily : list DailyRecord) :
  (sum (map (fun d => zeroFilled (f d)) daily)
   == sum (numbers (map f daily)))%Q.
Proof.
  induction daily as [|d l IH] using rev_ind; [reflexivity|].
  rewrite !map_app, numbers_app. simpl map. rewrite sum_snoc, IH.
  destruct (f d); simpl.
  - rewrite app_nil_r. ring.
  - rewrite app_nil_r. ring.
  - now rewrite sum_snoc.
Qed.

Lemma zero_filled_stats (daily : list DailyRecord) :
  daily <> [] ->
  let series := map (fun d => nullish (f d) (JNum 0)) daily in
  exists mx mn total avg,
    smallStatMax series = Some mx /\ smallStatMin series = Some mn /\
    smallStatTotal series = Some total /\ smallStatAvg series = Some avg /\
    (forall d, In d daily -> (mn <= zeroFilled (f d) <= mx)%Q) /\
    (exists d, In d daily /\ zeroFilled (f d) = mx) /\
    (exists d, In d daily /\ zeroFilled (f d) = mn) /\
    (total == sum (numbers (map f daily)))%Q /\
    (avg == total / inject_Z (Z.of_nat (List.length daily)))%Q.
Proof.
  intros Hne series.
  pose proof (zero_filled_numbers daily) as Hn. fold series in Hn.
  set (qs := map (fun d => zeroFilled (f d)) daily) in *.
  assert (Hq : qs <> [])
    by (unfold qs; destruct daily; [contradiction|discriminate]).
  assert (Hz : toNumbers (orZero (notNull series)) = Some qs).
  { destruct (notNull series) as [|v t] eqn:E; [|exact Hn].
    simpl in Hn. injection Hn as Hn. symmetry in Hn. contradiction. }
  unfold smallStatMax, smallStatMin, smallStatTotal, smallStatAvg.
  rewrite Hz, Hn.
  destruct (mathMax qs) as [mx|] eqn:Emx;
    [|destruct qs; [contradiction|discriminate]].
  destruct (mathMin qs) as [mn|] eqn:Emn;
    [|destruct qs; [contradiction|discriminate]].
  destruct (mathMax_spec _ _ Emx) as [Imx Bmx].
  destruct (mathMin_spec _ _ Emn) as [Imn Bmn].
  exists mx, mn, (sum qs),
    (sum qs / inject_Z (Z.max 1 (Z.of_nat (List.length qs))))%Q.
  repeat (split; [reflexivity|]).
  split; [|split; [|split; [|split]]].
  - intros d Hd.
    assert (Hin : In (zeroFilled (f d)) qs)
      by (unfold qs; apply in_map_iff; now exists d).
    split; [now apply Bmn|now apply Bmx].
  - unfold qs in Imx. apply in_map_iff in Imx.
    destruct Imx as (d & E & Hd). now exists d.
  - unfold qs in Imn. apply in_map_iff in Imn.
    destruct Imn as (d & E & Hd). now exists d.
  - apply zero_filled_sum.
  - unfold qs at 2. rewrite length_map.
    replace (Z.max 1 (Z.of_nat (List.length daily)))
      with (Z.of_nat (List.length daily))
      by (destruct daily; [contradiction|simpl List.length; lia]).
    reflexivity.
Qed.
End ZeroFilled.

(** X17.  The figures under the three daily charts are computed from the chart
    series, in which a missing reading is 0. So the greatest and the least
    value shown are those of the readings and of a 0 for each day without one,
    the total is the sum of the readings, and the average divides that sum by
    the number of days, not by the number of readings. *)
Theorem small_stats_zero_filled (daily : list DailyRecord) :
  daily <> [] ->
  let days := inject_Z (Z.of_nat (List.length daily)) in
  (exists mx mn avg,
     smallStatMax (temps daily) = Some mx /\
     smallStatMin (temps daily) = Some mn /\
     smallStatAvg (temps daily) = Some avg /\
     (forall d, In d daily -> (mn <= zeroFilled (temp d) <= mx)%Q) /\
     (exists d, In d daily /\ zeroFilled (temp d) = mx) /\
     (exists d, In d daily /\ zeroFilled (temp d) = mn) /\
     (avg == sum (numbers (map temp daily)) / days)%Q) /\
  (exists total avg,
     smallStatTotal (precips daily) = Some total /\
     smallStatAvg (precips daily) = Some avg /\
     (total == sum (numbers (map precip daily)))%Q /\
     (avg == sum (numbers (map precip daily)) / days)%Q) /\
  (exists mx avg,
     smallStatMax (winds daily) = Some mx /\
     smallStatAvg (winds daily) = Some avg /\
     (forall d, In d daily -> (zeroFilled (wind d) <= mx)%Q) /\
     (exists d, In d daily /\ zeroFilled (wind d) = mx) /\
     (avg == sum (numbers (map wind daily)) / days)%Q).
Proof.
  intros Hne days. split; [|split].
  - destruct (zero_filled_stats temp daily Hne)
      as (mx & mn & total & avg & H1 & H2 & _ & H4 & B & Imx & Imn & T & A).
    exists mx, mn, avg. repeat (split; [assumption|]).
    rewrite A, T. reflexivity.
  - destruct (zero_filled_stats precip daily Hne)
      as (mx & mn & total & avg & _ & _ & H3 & H4 & _ & _ & _ & T & A).
    exists total, avg. repeat (split; [assumption|]).
    rewrite A, T. reflexivity.
  - destruct (zero_filled_stats wind daily Hne)
      as (mx & mn & total & avg & H1 & _ & _ & H4 & B & Imx & _ & T & A).
    exists mx, avg. repeat (split; [assumption|]).
    split; [intros d Hd; apply (B d Hd)|]. split; [exact Imx|].
    rewrite A, T. reflexivity.
Qed.

Lemma small_stats_zero_filled_witness :
  acrossYears <> [] /\
  exists mn avg,
    smallStatMin (temps acrossYears) = Some mn /\
    smallStatAvg (temps acrossYears) = Some avg /\
    (mn == 0)%Q /\ (avg == 13)%Q.
Proof.
  assert (Hne : acrossYears <> []) by discriminate.
  split; [exact Hne|].
  destruct (proj1 (small_stats_zero_filled acrossYears Hne))
    as (mx & mn & avg & H1 & H2 & H3 & B & _ & _ & A).
  exists mn, avg. split; [exact H2|]. split; [exact H3|]. split.
  - vm_compute in H2. injection H2 as <-. reflexivity.
  - rewrite A. vm_compute. reflexivity.
Defined.

Lemma filter_length_perm {A : Type} (p : A -> bool) (l l' : list A) :
  Permutation l l' ->
  List.length (filter p l) = List.length (filter p l').
Proof.
  intro H. induction H as [|x l l' _ IH|x y l|l l' l'' _ IH1 _ IH2];
    simpl; try reflexivity.
  - destruct (p x); simpl; now rewrite IH.
  - destruct (p x), (p y); reflexivity.
  - now rewrite IH1.
Qed.

Lemma filter_length_flat_map {A B : Type} (p : B -> bool) (g : A -> list B)
  (l : list A) :
  Z.of_nat (List.length (filter p (flat_map g l)))
  = sumZ (map (fun a => Z.of_nat (List.length (filter p (g a)))) l).
Proof.
  induction l as [|a l IH]; [reflexivity|].
  simpl. rewrite filter_app, length_app, Nat2Z.inj_add, IH. reflexivity.
Qed.

Lemma filter_length_sum {A : Type} (p : A -> bool) (l : list A) :
  Z.of_nat (List.length (filter p l))
  = sumZ (map (fun a => if p a then 1 else 0) l).
Proof.
  induction l as [|a l IH]; [reflexivity|].
  simpl. destruct (p a); simpl List.length; lia.
Qed.

Lemma rainy_count (daily : list DailyRecord) :
  smallStatRainyDays (precips daily)
  = Z.of_nat (List.length (filter (fun q => Qltb (5 # 10) q)
                             (numbers (map precip daily)))).
Proof.
  unfold smallStatRainyDays, precips. f_equal.
  induction daily as [|d l IH]; [reflexivity|].
  simpl map. destruct (precip d) as [| |q]; cbn [nullish numbers filter].
  - change (js_gt (JNum 0) (5 # 10)) with false. cbv iota. exact IH.
  - change (js_gt (JNum 0) (5 # 10)) with false. cbv iota. exact IH.
  - change (js_gt (JNum q) (5 # 10)) with (Qltb (5 # 10) q).
    destruct (Qltb (5 # 10) q); cbn [List.length]; now rewrite IH.
Qed.

Lemma strong_winds_of_day (location : string) (d : DailyRecord) :
  Z.of_nat (List.length
              (filter (fun e => String.eqb (type e) "Strong Winds")
                 (eventsOfDay location d)))
  = if js_gt (nullish (wind d) (JNum 0)) 20 then 1 else 0.
Proof.
  unfold eventsOfDay.
  rewrite !filter_app, !length_app.
  assert (E1 : forall b1 b2 e1 e2,
            List.length
              (filter (fun e => String.eqb (type e) "Strong Winds")
                 (if b1 : bool
                  then [mkEvent "Extreme Heat" location (date d) e1]
                  else if b2 : bool
                       then [mkEvent "Extreme Cold" location (date d) e2]
                       else [])) = 0%nat)
    by (intros [|] [|] e1 e2; reflexivity).
  assert (E2 : forall (b : bool) e,
            List.length
              (filter (fun e => String.eqb (type e) "Strong Winds")
                 (if b then [mkEvent "Heavy Rain" location (date d) e]
                  else [])) = 0%nat)
    by (intros [|] e; reflexivity).
  rewrite E1, E2.
  destruct (wind d) as [| |q]; try reflexivity.
  cbn [defined andb nullish].
  change (js_gt (JNum q) 20) with (Qltb 20 q).
  now destruct (Qltb 20 q).
Qed.

(** X18.  The counts under the daily charts agree with the rest of the page:
    the rainy days under the precipitation chart are the rainy days of the
    insights, and the windy days under the wind chart are as many as the
    Strong Winds events in the list of extreme events. *)
Theorem small_stat_counts (location : string) (daily : list DailyRecord)
  (ins : Insights) :
  WeatherInsights daily = Some ins ->
  smallStatRainyDays (precips daily) = rainyDays ins /\
  smallStatWindyDays (winds daily)
  = eventCount "Strong Winds" (recentExtremeEvents location daily).
Proof.
  intro Hi. split.
  - rewrite rainy_count. unfold WeatherInsights in Hi.
    destruct daily as [|d0 rest]; [discriminate|].
    injection Hi as <-. reflexivity.
  - unfold eventCount, recentExtremeEvents, smallStatWindyDays, winds.
    destruct daily as [|d0 rest]; [discriminate|].
    set (daily := d0 :: rest).
    rewrite <- (filter_length_perm _ _ _ (sort_perm byRecency _)).
    rewrite filter_length_flat_map, filter_length_sum, map_map.
    f_equal. apply map_ext. intro d. symmetry.
    apply strong_winds_of_day.
Qed.

Lemma small_stat_counts_witness :
  exists ins,
    WeatherInsights scenario = Some ins /\
    smallStatRainyDays (precips scenario) = rainyDays ins /\
    smallStatWindyDays (winds scenario)
    = eventCount "Strong Winds" (recentExtremeEvents "Pune, MH" scenario).
Proof.
  destruct (WeatherInsights scenario) as [ins|] eqn:E; [|discriminate E].
  exists ins. split; [reflexivity|].
  exact (small_stat_counts "Pune, MH" scenario ins E).
Defined.

Lemma sorted_NoDup (l : list Z) : StronglySorted Z.lt l -> NoDup l.
Proof.
  intro H. induction H as [|a t Hs IH Ha]; constructor; [|exact IH].
  intro Hin. rewrite Forall_forall in Ha. specialize (Ha a Hin). lia.
Qed.

Lemma multiples_NoDup (r : Z) (n : nat) :
  0 < r -> NoDup (map (fun k => Z.of_nat k * r) (seq 0 n)).
Proof.
  intro Hr. apply Finite.Injective_map_NoDup; [|apply seq_NoDup].
  intros a b E. apply Z.mul_cancel_r in E; lia.
Qed.

Lemma flat_map_length_le {A B : Type} (f : A -> list B) (l : list A) :
  (forall a, (List.length (f a) <= 1)%nat) ->
  (List.length (flat_map f l) <= List.length l)%nat.
Proof.
  intro H. induction l as [|a l IH]; [simpl; lia|].
  simpl. rewrite length_app. specialize (H a). lia.
Qed.

(** X19.  Down-sampling leaves between 50 and 78 values: a compact chart of
    more than 100 values draws at least 50 and at most 78 of them, however
    long the series is. *)
Theorem sampled_chart_size (data : list jsval) (height : Z)
  (indices : list Z) (rendered : list jsval) (points : list (Q * Q)) :
  LineChart data height true = Chart indices rendered points ->
  (100 < List.length data)%nat ->
  (50 <= List.length indices <= 78)%nat /\
  List.length rendered = List.length indices /\
  (List.length points <= List.length indices)%nat.
Proof.
  intros Hc Hl.
  destruct (chart_indices _ _ _ _ _ _ Hc) as (_ & Hlarge & _).
  destruct (Hlarge (conj eq_refl Hl)) as (mx & mn & _ & _ & Hs & Hin & Hr).
  set (n := Z.of_nat (List.length data)) in *.
  set (r := Z.max 1 (n / 50)).
  assert (Hn : 100 < n) by (unfold n; lia).
  assert (Hq : 2 <= n / 50) by (apply Z.div_le_lower_bound; lia).
  assert (Hr1 : r = n / 50) by (unfold r; lia).
  assert (Hlo : 50 * r <= n)
    by (rewrite Hr1; apply Z.mul_div_le; lia).
  assert (Hhi : n < 50 * r + 50).
  { rewrite Hr1. pose proof (Z.mod_pos_bound n 50 ltac:(lia)) as M.
    pose proof (Z.div_mod n 50 ltac:(lia)) as D. lia. }
  split; [split|split].
  - replace 50%nat with (List.length (map (fun k => Z.of_nat k * r) (seq 0 50)))
      by (now rewrite length_map, length_seq).
    apply NoDup_incl_length; [apply multiples_NoDup; lia|].
    intros i Hi. apply in_map_iff in Hi. destruct Hi as (k & <- & Hk).
    apply in_seq in Hk. apply Hin. unfold retained. fold n. fold r.
    right. right. right. right. split; [nia|]. apply Z.mod_mul. lia.
  - replace 78%nat
      with (List.length ([n - 1; mx; mn]
                         ++ map (fun k => Z.of_nat k * r) (seq 0 75)))
      by (now rewrite length_app, length_map, length_seq).
    apply NoDup_incl_length; [now apply sorted_NoDup|].
    intros i Hi. apply Hin in Hi. unfold retained in Hi. fold n r in Hi.
    apply in_or_app.
    assert (M : forall j, 0 <= j < n -> j mod r = 0 ->
                In j (map (fun k => Z.of_nat k * r) (seq 0 75))).
    { intros j Hj Hm. apply in_map_iff. exists (Z.to_nat (j / r)).
      assert (Hd : j = r * (j / r))
        by (pose proof (Z.div_mod j r ltac:(lia)); lia).
      assert (Hb : 0 <= j / r < 75).
      { split; [apply Z.div_pos; lia|].
        apply Z.div_lt_upper_bound; lia. }
      split; [lia|]. apply in_seq. lia. }
    destruct Hi as [->|[->|[->|[->|[Hi Hm]]]]].
    + right. apply M; [lia|]. apply Z.mod_0_l. lia.
    + left. simpl. auto.
    + left. simpl. auto.
    + left. simpl. auto.
    + right. now apply M.
  - rewrite Hr. apply length_map.
  - destruct (LineChart_points _ _ _ _ _ _ Hc) as (mn' & rg & _ & ->).
    apply flat_map_length_le. intro i. destruct (at_ data i); simpl; lia.
Qed.

Lemma sampled_chart_size_witness :
  exists indices rendered points,
    LineChart (ramp 200) 140 true = Chart indices rendered points /\
    (100 < List.length (ramp 200))%nat /\
    (50 <= List.length indices <= 78)%nat.
Proof.
  destruct (LineChart (ramp 200) 140 true) as [| |indices rendered points]
    eqn:Hc; [discriminate Hc|discriminate Hc|].
  assert (Hl : (100 < List.length (ramp 200))%nat) by (vm_compute; lia).
  exists indices, rendered, points.
  split; [reflexivity|]. split; [exact Hl|].
  exact (proj1 (sampled_chart_size (ramp 200) 140 indices rendered points
                  Hc Hl)).
Defined.

Lemma mapi_nth_error {A B : Type} (f : nat -> A -> B) (l : list A)
  (n i : nat) (a : A) :
  nth_error l i = Some a ->
  nth_error (mapi f n l) i = Some (f (n + i)%nat a).
Proof.
  revert n i. induction l as [|x l IH]; intros n [|i] H; try discriminate.
  - injection H as <-. simpl. now rewrite Nat.add_0_r.
  - simpl in *. rewrite (IH (S n) i H). f_equal. f_equal. lia.
Qed.

Lemma existsb_In (param : string) (l : list string) :
  In param l -> existsb (String.eqb param) l = true.
Proof.
  intro H. apply existsb_exists. exists param.
  split; [exact H|apply String.eqb_refl].
Qed.

(** X20.  A reading that the payload gives as [null] is not treated alike for
    the three parameters: a [null] temperature or precipitation stays [null]
    in the daily record, but a [null] wind speed becomes a wind of 0 km/h, a
    reading like any other. *)
Theorem null_reading (entries : list (string * ParamData))
  (codes : list string) (days : list Date) (param : string)
  (p : ParamData) (vs : list jsval) (i : nat) :
  temperatureDates entries = Some days -> (i < List.length days)%nat ->
  In param codes -> get param entries = Some p -> values p = Some vs ->
  nth i vs JUndefined = JNull ->
  exists r day,
    processApiData (Some (mkApi (Some entries) (Some codes)))
    = Returns r /\
    nth_error (daily r) i = Some day /\
    (param = "T2M" -> temp day = JNull) /\
    (param = "PRECTOT" -> precip day = JNull) /\
    (param = "WS2M" -> exists q, wind day = JNum q /\ (q == 0)%Q).
Proof.
  intros Ht Hi Hav Hp Hv Hn.
  destruct (nth_error days i) as [d|] eqn:Ed;
    [|apply nth_error_None in Ed; lia].
  unfold processApiData. cbn [data available]. rewrite Ht.
  eexists. eexists. split; [reflexivity|]. cbn [daily].
  split; [apply mapi_nth_error; exact Ed|].
  rewrite dailyObject_fields. cbn [temp precip wind]. unfold fieldOf.
  assert (V : paramValue entries param (0 + i) = Some JNull)
    by (unfold paramValue; rewrite Hp, Hv; simpl; now rewrite Hn).
  split; [|split]; intros ->; rewrite (existsb_In _ _ Hav), V.
  - reflexivity.
  - reflexivity.
  - eexists. split; reflexivity.
Qed.

Lemma null_reading_witness :
  let entries :=
    [ ("T2M", mkParam (Some [mkDate 2024 0 1]) (Some [JNum 20]));
      ("WS2M", mkParam (Some [mkDate 2024 0 1]) (Some [JNull])) ] in
  exists r day,
    processApiData (Some (mkApi (Some entries) (Some ["T2M"; "WS2M"])))
    = Returns r /\
    nth_error (daily r) 0 = Some day /\
    exists q, wind day = JNum q /\ (q == 0)%Q.
Proof.
  intro entries.
  destruct (null_reading entries ["T2M"; "WS2M"] [mkDate 2024 0 1] "WS2M"
              (mkParam (Some [mkDate 2024 0 1]) (Some [JNull])) [JNull] 0%nat)
    as (r & day & Hr & Hd & _ & _ & Hw);
    [reflexivity|simpl; lia|simpl; auto|reflexivity|reflexivity|reflexivity|].
  exists r, day. split; [exact Hr|]. split; [exact Hd|].
  exact (Hw eq_refl).
Defined.

Lemma countInc_null_temperature (d : DailyRecord) :
  temp d = JNull -> 1 <= countInc d.
Proof.
  intro H. unfold countInc. rewrite H. cbv zeta.
  change (defined JNull && (js_gt JNull 30 || js_lt JNull 5)) with true.
  cbv iota.
  destruct (defined (precip d) && js_gt (precip d) 10),
           (defined (wind d) && js_gt (wind d) 20); lia.
Qed.

Lemma countInc_nonneg (d : DailyRecord) : 0 <= countInc d.
Proof.
  unfold countInc. cbv zeta.
  destruct (defined (precip d) && js_gt (precip d) 10),
           (defined (temp d) && (js_gt (temp d) 30 || js_lt (temp d) 5)),
           (defined (wind d) && js_gt (wind d) 20); lia.
Qed.

(** X21.  A day whose temperature is [null] is counted as an extreme event by
    the statistics, its [null] passing the test "below 5", so the total of
    extreme events is at least the number of such days; the list of extreme
    events shows no temperature event for such a day. *)
Theorem null_temperature_counted (location : string)
  (daily : list DailyRecord) :
  Z.of_nat
    (List.length
       (filter (fun d => match temp d with JNull => true | _ => false end)
          daily))
  <= totalExtreme (dataStatistics daily) /\
  forall d e, temp d = JNull -> In e (eventsOfDay location d) ->
              type e = "Heavy Rain" \/ type e = "Strong Winds".
Proof.
  split.
  - destruct daily as [|d0 rest]; [simpl; lia|].
    set (daily := d0 :: rest).
    rewrite dataStatistics_nonempty by discriminate.
    cbn [totalExtreme]. rewrite fold_count, Z.add_0_l.
    clearbody daily. clear. induction daily as [|d l IH]; [simpl; lia|].
    cbn [filter map].
    change (sumZ (countInc d :: map countInc l))
      with (countInc d + sumZ (map countInc l)).
    pose proof (countInc_nonneg d) as Hd.
    destruct (temp d) eqn:E; cbv iota; cbn [List.length];
      [lia| |lia].
    pose proof (countInc_null_temperature d E). lia.
  - intros d e Ht Hin. unfold eventsOfDay in Hin. rewrite Ht in Hin.
    change (defined JNull && js_gt JNull 35) with false in Hin.
    change (defined JNull && js_lt JNull 0) with false in Hin.
    cbv iota in Hin. simpl app in Hin.
    apply in_app_or in Hin. destruct Hin as [Hin|Hin].
    + destruct (defined (precip d) && js_gt (precip d) 25);
        [|destruct Hin]. destruct Hin as [<-|[]]. now left.
    + destruct (defined (wind d) && js_gt (wind d) 20);
        [|destruct Hin]. destruct Hin as [<-|[]]. now right.
Qed.

(** * The calendar order and the order of the day numbers *)

Lemma leapDay_div (y : Z) :
  leapDay y = (y / 4 - (y - 1) / 4) - (y / 100 - (y - 1) / 100)
              + (y / 400 - (y - 1) / 400).
Proof.
  unfold leapDay, isLeapYear.
  destruct (Z.rem y 4 =? 0) eqn:E4, (Z.rem y 100 =? 0) eqn:E100,
    (Z.rem y 400 =? 0) eqn:E400; simpl;
    rewrite ?Z.eqb_eq, ?Z.eqb_neq in *;
    Z.to_euclidean_division_equations; lia.
Qed.

Ltac each_of_twelve m :=
  let C := fresh "C" in
  assert (C : m = 1 \/ m = 2 \/ m = 3 \/ m = 4 \/ m = 5 \/ m = 6 \/ m = 7 \/
              m = 8 \/ m = 9 \/ m = 10 \/ m = 11 \/ m = 12) by lia;
  repeat destruct C as [C|C]; subst m.

Lemma month_start (y m : Z) :
  1 <= m <= 12 -> daysFromCivil y m 1 = yearStart y + monthOffset y m.
Proof.
  intro Hm. unfold monthOffset. rewrite leapDay_div.
  unfold daysFromCivil, yearStart.
  each_of_twelve m; cbn -[Z.div Z.mul Z.add Z.sub];
    Z.div_mod_to_equations; lia.
Qed.

Lemma yearStart_next (y y' : Z) :
  y < y' -> yearStart y + 365 + leapDay y <= yearStart y'.
Proof.
  intro H. rewrite leapDay_div. unfold yearStart.
  Z.div_mod_to_equations. lia.
Qed.

Lemma daysFromCivil_day (y m d : Z) :
  daysFromCivil y m d = daysFromCivil y m 1 + d - 1.
Proof. unfold daysFromCivil. cbv zeta. lia. Qed.

Lemma month_within_year (y m : Z) :
  1 <= m <= 12 ->
  0 <= monthOffset y m /\ monthOffset y m + daysInMonth y m <= 365 + leapDay y.
Proof.
  intro Hm. unfold monthOffset, daysInMonth, leapDay.
  each_of_twelve m; simpl; destruct (isLeapYear y); lia.
Qed.

Lemma monthOffset_mono (y m m' : Z) :
  1 <= m -> m < m' -> m' <= 12 ->
  monthOffset y m + daysInMonth y m <= monthOffset y m'.
Proof.
  intros H1 H2 H3.
  assert (Hm : 1 <= m <= 12) by lia. assert (Hm' : 1 <= m' <= 12) by lia.
  unfold monthOffset, daysInMonth, leapDay.
  each_of_twelve m; each_of_twelve m'; try lia;
    simpl; destruct (isLeapYear y); lia.
Qed.

Lemma dayNumber_form (d : Date) :
  validDate d ->
  dayNumber d
  = yearStart (getFullYear d)
    + monthOffset (getFullYear d) (getMonth d + 1) + getDate d - 1.
Proof.
  intros [Hm Hd]. unfold dayNumber.
  rewrite daysFromCivil_day, month_start by lia. lia.
Qed.

Lemma before_dayNumber (a b : Date) :
  validDate a -> validDate b -> before a b -> dayNumber a < dayNumber b.
Proof.
  intros Ha Hb H. rewrite !dayNumber_form by assumption.
  destruct Ha as [Ham Had], Hb as [Hbm Hbd].
  pose proof (month_within_year (getFullYear a) (getMonth a + 1)
                ltac:(lia)) as [A0 A1].
  pose proof (month_within_year (getFullYear b) (getMonth b + 1)
                ltac:(lia)) as [B0 B1].
  destruct H as [Hy|[Hy [Hmo|[Hmo Hday]]]].
  - pose proof (yearStart_next _ _ Hy). lia.
  - rewrite Hy in *.
    pose proof (monthOffset_mono (getFullYear b) (getMonth a + 1)
                  (getMonth b + 1) ltac:(lia) ltac:(lia) ltac:(lia)).
    lia.
  - rewrite Hy, Hmo in *. lia.
Qed.

Lemma calendar_trichotomy (a b : Date) :
  before a b \/ sameDay a b \/ before b a.
Proof. unfold before, sameDay. lia. Qed.

(** On dates of the calendar, the day numbers, and so the time values, are
    ordered as the dates are. *)
Lemma dayNumber_order (a b : Date) :
  validDate a -> validDate b ->
  (dayNumber a < dayNumber b <-> before a b) /\
  (dayNumber a = dayNumber b <-> sameDay a b).
Proof.
  intros Ha Hb.
  assert (S : sameDay a b -> dayNumber a = dayNumber b).
  { intros (Hy & Hm & Hd). unfold dayNumber. now rewrite Hy, Hm, Hd. }
  pose proof (before_dayNumber a b Ha Hb) as L.
  pose proof (before_dayNumber b a Hb Ha) as G.
  split; split; intro H.
  - destruct (calendar_trichotomy a b) as [T|[T|T]]; [exact T| |].
    + specialize (S T). lia.
    + specialize (G T). lia.
  - now apply L.
  - destruct (calendar_trichotomy a b) as [T|[T|T]]; [|exact T|].
    + specialize (L T). lia.
    + specialize (G T). lia.
  - now apply S.
Qed.

Lemma sameDay_eq (a b : Date) : sameDay a b -> a = b.
Proof.
  destruct a, b. unfold sameDay. simpl. intros (-> & -> & ->). reflexivity.
Qed.

Lemma getTime_dayNumber (d : Date) : getTime d = 86400000 * dayNumber d.
Proof. reflexivity. Qed.

(** * The extreme-event list, in the order of the calendar *)

Lemma StronglySorted_impl_In {A : Type} (R R' : A -> A -> Prop)
  (l : list A) :
  (forall a b, In a l -> In b l -> R a b -> R' a b) ->
  StronglySorted R l -> StronglySorted R' l.
Proof.
  intros H Hs. induction Hs as [|a t Hs IH Ha]; constructor.
  - apply IH. intros x y Hx Hy. apply H; now right.
  - rewrite Forall_forall in *. intros b Hb.
    apply H; [now left|now right|now apply Ha].
Qed.

Lemma event_date (location : string) (d : DailyRecord) (e : ExtremeEvent) :
  In e (eventsOfDay location d) -> eventDate e = date d.
Proof.
  rewrite eventsOfDay_triggered, in_map_iff.
  intros (k & <- & _). reflexivity.
Qed.

(** The comparator of the sort orders two events of calendar dates as the
    calendar does. *)
Lemma byRecency_calendar (a b : ExtremeEvent) :
  validDate (eventDate a) -> validDate (eventDate b) ->
  byRecency a b <= 0 -> onOrAfter a b.
Proof.
  intros Ha Hb H. unfold byRecency in H.
  rewrite !getTime_dayNumber in H.
  destruct (dayNumber_order (eventDate a) (eventDate b) Ha Hb) as [L E].
  destruct (dayNumber_order (eventDate b) (eventDate a) Hb Ha) as [L' _].
  unfold onOrAfter.
  destruct (Z.eq_dec (dayNumber (eventDate a)) (dayNumber (eventDate b)))
    as [Q|N].
  - left. now apply E.
  - right. apply L'. lia.
Qed.

(** C4, as the code has it.  Each record is classified on its own: its
    events are those of the rules it triggers (temperature above 35,
    temperature below 0, precipitation above 25, wind above 20, each on a
    present value), one event per triggered rule, labelled and dated with the
    record's date.  The list of a series with at least one record is made of
    exactly these events, none merged.  On dates of the calendar the list
    runs from the latest date to the earliest: each event is dated the same
    day as every event after it, or a later day.  A record with temperature
    36, precipitation 30 and wind 25 gives the three events Extreme Heat,
    Heavy Rain and Strong Winds.  The list of the series with no record is
    not empty: it holds one placeholder event. *)
Theorem detect_events (location : string) (daily : list DailyRecord) :
  Forall (fun d => validDate (date d)) daily ->
  (forall d, eventsOfDay location d
             = map (eventOf location d) (triggered d)) /\
  (daily <> [] ->
   Permutation (recentExtremeEvents location daily)
     (flat_map (eventsOfDay location) daily)) /\
  StronglySorted onOrAfter (recentExtremeEvents location daily) /\
  recentExtremeEvents location [stormyDay]
  = map (eventOf location stormyDay) [ExtremeHeat; HeavyRain; StrongWind] /\
  recentExtremeEvents location [] = [placeholderEvent].
Proof.
  intro Hv. split; [|split; [|split; [|split]]].
  - apply eventsOfDay_triggered.
  - destruct daily as [|d0 l]; [contradiction|]. intros _.
    unfold recentExtremeEvents. apply Permutation_sym, sort_perm.
  - destruct daily as [|d0 l] eqn:Ed; [repeat constructor|].
    rewrite <- Ed in *.
    assert (Hne : daily <> []) by (rewrite Ed; discriminate).
    assert (Hd : forall e, In e (recentExtremeEvents location daily) ->
                           validDate (eventDate e)).
    { intros e He. apply recentExtremeEvents_In in He; [|exact Hne].
      destruct He as (d & Hd & He). rewrite (event_date _ _ _ He).
      rewrite Forall_forall in Hv. now apply Hv. }
    apply (StronglySorted_impl_In (fun a b => byRecency a b <= 0)).
    + intros a b Ha Hb. apply byRecency_calendar; now apply Hd.
    + rewrite Ed. unfold recentExtremeEvents. apply sort_sorted.
      * apply byRecency_total.
      * apply byRecency_trans.
  - reflexivity.
  - reflexivity.
Qed.

Lemma detect_events_witness :
  Forall (fun d => validDate (date d)) scenario /\
  Permutation (recentExtremeEvents "Mumbai, Maharashtra" scenario)
    (flat_map (eventsOfDay "Mumbai, Maharashtra") scenario) /\
  StronglySorted onOrAfter
    (recentExtremeEvents "Mumbai, Maharashtra" scenario) /\
  map eventDate (recentExtremeEvents "Mumbai, Maharashtra" scenario)
  = [mkDate 2024 0 15; mkDate 2024 0 15; mkDate 2024 0 15; mkDate 2024 0 1].
Proof.
  assert (H : Forall (fun d => validDate (date d)) scenario)
    by (repeat constructor; vm_compute; intuition discriminate).
  split; [exact H|].
  destruct (detect_events "Mumbai, Maharashtra" scenario H)
    as (_ & P & S & _).
  split; [apply P; discriminate|]. split; [exact S|reflexivity].
Defined.

(** C4 as stated fails on the series with no record: the list is not empty,
    it holds an event that no record gave. *)
Lemma no_record_one_event :
  recentExtremeEvents "Mumbai, Maharashtra" [] = [placeholderEvent] /\
  flat_map (eventsOfDay "Mumbai, Maharashtra") [] = [] /\
  ~ Permutation (recentExtremeEvents "Mumbai, Maharashtra" [])
      (flat_map (eventsOfDay "Mumbai, Maharashtra") []).
Proof.
  split; [reflexivity|]. split; [reflexivity|].
  intro P. apply Permutation_length in P. discriminate.
Qed.

(** * The months of the input and the months the page reads *)

Lemma reads_functional (offset : Z) (text a b : Date) :
  reads offset text a -> reads offset text b -> a = b.
Proof.
  intros [Va Ea] [Vb Eb]. apply sameDay_eq.
  apply (dayNumber_order a b Va Vb). congruence.
Qed.

Lemma reads_east (offset : Z) (text local : Date) :
  validDate text -> -1440 < offset <= 0 ->
  (reads offset text local <-> local = text).
Proof.
  intros Vt Ho.
  assert (E : (1440 * dayNumber text - offset) / 1440 = dayNumber text)
    by (Z.div_mod_to_equations; lia).
  split.
  - intros [Vl El]. apply sameDay_eq.
    apply (dayNumber_order local text Vl Vt). congruence.
  - intros ->. split; [exact Vt|]. now rewrite E.
Qed.

Lemma reads_west (offset : Z) (text local : Date) :
  0 < offset <= 1440 -> reads offset text local ->
  dayNumber local = dayNumber text - 1.
Proof.
  intros Ho [_ El]. rewrite El. Z.div_mod_to_equations. lia.
Qed.

Lemma read_east_of_utc (offset : Z) (daily locals : list DailyRecord) :
  Forall (fun r => validDate (date r)) daily -> -1440 < offset <= 0 ->
  Forall2 (fun r l => reads offset (date r) (date l) /\ l = readAs (date l) r)
    daily locals ->
  locals = daily.
Proof.
  intros Hv Ho H. induction H as [|r l daily locals [Hr Hl] _ IH];
    [reflexivity|].
  inversion Hv as [|? ? Vr Vd]; subst. f_equal; [|now apply IH].
  apply (reads_east offset (date r) (date l) Vr Ho) in Hr.
  rewrite Hl, Hr. now destruct r.
Qed.

(** C6, where the code departs from it.  A date-only text is read as
    midnight UTC and the month key is taken from the local getters.  At
    Greenwich and east of it the getters return the date written, and the
    aggregates are as many as the months of the input.  West of it they
    return the day before: read five hours west, the first of February is
    the 31st of January, and two days of February 2024 give two aggregates,
    of January and of February, for the one month of the input. *)
Theorem month_split_west_of_utc :
  (forall offset daily locals,
     Forall (fun r => validDate (date r)) daily -> -1440 < offset <= 0 ->
     Forall2
       (fun r l => reads offset (date r) (date l) /\ l = readAs (date l) r)
       daily locals ->
     locals = daily /\
     List.length (aggregate locals) = distinctMonths daily) /\
  (forall offset text local,
     0 < offset <= 1440 -> reads offset text local ->
     dayNumber local = dayNumber text - 1) /\
  Forall2 (fun r l => reads 300 (date r) (date l) /\ l = readAs (date l) r)
    februaryDays februaryDaysInNewYork /\
  (forall r l l', In r februaryDays ->
     reads 300 (date r) l -> reads 300 (date r) l' -> l = l') /\
  distinctMonths februaryDays = 1%nat /\
  List.length (aggregate februaryDaysInNewYork) = 2%nat /\
  map month (aggregate februaryDaysInNewYork) = ["2024-01"; "2024-02"].
Proof.
  split.
  - intros offset daily locals Hv Ho H.
    rewrite (read_east_of_utc offset daily locals Hv Ho H).
    split; [reflexivity|].
    rewrite aggregate_length. apply distinct_keys.
    eapply Forall_impl; [|exact Hv]. intros r [Hm _]. exact Hm.
  - split; [intros offset text local; apply reads_west|].
    split.
    + repeat constructor; vm_compute; intuition discriminate.
    + split; [intros r l l' _; apply reads_functional|].
      repeat split.
Qed.

(** * Missing values in any series *)

Lemma numbers_having (field : DailyRecord -> jsval)
  (l : list DailyRecord) :
  numbers (map field (having field l)) = numbers (map field l).
Proof.
  unfold having. induction l as [|d l IH]; [reflexivity|].
  simpl. destruct (field d) eqn:E; simpl; rewrite ?E; simpl; now rewrite IH.
Qed.

Lemma group_having (field : DailyRecord -> jsval) (k : string)
  (l : list DailyRecord) :
  group k (having field l) = having field (group k l).
Proof.
  unfold group, having. induction l as [|d l IH]; [reflexivity|].
  simpl. destruct (present (field d)) eqn:P,
    (String.eqb (monthKey (date d)) k) eqn:K; simpl;
    rewrite ?P, ?K; now rewrite IH.
Qed.

Lemma meanOfPresent_having (field : DailyRecord -> jsval) (k : string)
  (l : list DailyRecord) :
  meanOfPresent (map field (group k (having field l)))
  = meanOfPresent (map field (group k l)).
Proof.
  unfold meanOfPresent. now rewrite group_having, numbers_having.
Qed.

Lemma summarize_having (field : DailyRecord -> jsval)
  (l : list DailyRecord) :
  summarize (map field (having field l)) = summarize (map field l).
Proof. unfold summarize. now rewrite numbers_having. Qed.

Lemma nullish_zeroFilled (v : jsval) :
  nullish v (JNum 0) = JNum (zeroFilled v).
Proof. now destruct v. Qed.

Lemma find_own_key (monthly : list Monthly) (mo : Monthly) :
  NoDup (map month monthly) -> In mo monthly ->
  find (fun x => String.eqb (month mo) (month x)) monthly = Some mo.
Proof.
  induction monthly as [|x l IH]; intros Hnd Hin; [destruct Hin|].
  inversion Hnd as [|? ? Hx Hl]; subst. simpl.
  destruct Hin as [->|Hin]; [now rewrite String.eqb_refl|].
  destruct (String.eqb (month mo) (month x)) eqn:E; [|now apply IH].
  apply String.eqb_eq in E. exfalso. apply Hx. rewrite <- E.
  now apply in_map.
Qed.

(** The monthly series of a chart: each month's mean, or 0 where the mean
    is [null]. *)
Lemma chart_of_means (field : Monthly -> jsval) (fallback : Agg -> jsval)
  (daily : list DailyRecord) :
  daily <> [] ->
  map (meanOrZero (meanByMonth field fallback daily (aggregate daily)))
    (orderedMonths daily (aggregate daily))
  = map (fun mo => JNum (zeroFilled (field mo))) (aggregate daily).
Proof.
  intro Hne. rewrite orderedMonths_aggregate by exact Hne.
  rewrite map_map. apply map_ext_in. intros mo Hmo.
  unfold meanOrZero. rewrite get_precomputed by exact Hne.
  rewrite (find_own_key _ _ (aggregate_keys_NoDup daily) Hmo).
  now destruct (field mo).
Qed.

Lemma rule_measured (k : Kind) (d : DailyRecord) :
  rule k d = true -> present (measured k d) = true.
Proof.
  destruct k; simpl; unfold holds;
    match goal with |- context [match ?v with _ => _ end] => destruct v end;
    try discriminate; reflexivity.
Qed.

(** C2, as the code has it.  In any series with at least one record, a
    missing value ([null] or [undefined]) is left out of what is computed
    from the values.  A monthly mean is the sum of the month's present
    values over their count, [null] when none is present: the mean of the
    records that have the field.  The statistics are those of the records
    that have the field, "N/A" (the rainfall total: "0mm") when none has it.
    Every listed event comes from a record whose measured value is present
    and passes its rule.  On a day whose temperature is not [null], the
    monthly count adds one for each condition that holds on a present value
    and nothing for a missing one.  The chart series, however, do not keep
    the absence: the daily series draw a missing value, and the monthly
    series a month whose mean is [null], as the number 0. *)
Theorem missing_values (location : string) (daily : list DailyRecord) :
  daily <> [] ->
  (forall m, In m (aggregate daily) ->
     meanTemp m
     = meanOfPresent (map temp (group (month m) (having temp daily))) /\
     meanPrecip m
     = meanOfPresent (map precip (group (month m) (having precip daily))) /\
     meanWind m
     = meanOfPresent (map wind (group (month m) (having wind daily)))) /\
  (stat_avgTemp (dataStatistics daily)
   = shown (Text "N/A") 1 "°C"
       (mean (summarize (map temp (having temp daily)))) /\
   stat_totalRainfall (dataStatistics daily)
   = (match presentCount (summarize (map precip (having precip daily)))
      with
      | O => Text "0mm"
      | S _ =>
          Fixed (total (summarize (map precip (having precip daily)))) 0 "mm"
      end) /\
   stat_avgWind (dataStatistics daily)
   = shown (Text "N/A") 1 " km/h"
       (mean (summarize (map wind (having wind daily))))) /\
  (forall e, In e (recentExtremeEvents location daily) ->
     exists d k, In d daily /\ present (measured k d) = true /\
                 rule k d = true /\ e = eventOf location d k) /\
  (forall d, temp d <> JNull -> countInc d = conditionsMet d) /\
  (temps daily = map (fun d => JNum (zeroFilled (temp d))) daily /\
   precips daily = map (fun d => JNum (zeroFilled (precip d))) daily /\
   winds daily = map (fun d => JNum (zeroFilled (wind d))) daily) /\
  (tempData (getHistoricalData daily (aggregate daily))
   = map (fun m => JNum (zeroFilled (meanTemp m))) (aggregate daily) /\
   precipData (getHistoricalData daily (aggregate daily))
   = map (fun m => JNum (zeroFilled (meanPrecip m))) (aggregate daily) /\
   windData (getHistoricalData daily (aggregate daily))
   = map (fun m => JNum (zeroFilled (meanWind m))) (aggregate daily)).
Proof.
  intro Hne. split; [|split; [|split; [|split; [|split]]]].
  - intros m Hm. destruct (aggregate_elem _ _ Hm) as (d & _ & ->).
    cbn [toMonthly accFor month meanTemp meanPrecip meanWind
         acc_month tempSum tempCount precipSum precipCount windSum windCount].
    rewrite !meanOf_present, !meanOfPresent_having. repeat split.
  - rewrite dataStatistics_nonempty by exact Hne.
    cbn [stat_avgTemp stat_totalRainfall stat_avgWind].
    rewrite !averageOr_summary, !summarize_having. split; [reflexivity|].
    split; [|reflexivity].
    unfold summarize. now destruct (numbers (map precip daily)).
  - intros e He. apply recentExtremeEvents_In in He; [|exact Hne].
    destruct He as (d & Hd & He).
    rewrite eventsOfDay_triggered, in_map_iff in He.
    destruct He as (k & <- & Hk). apply triggered_In in Hk.
    exists d, k. split; [exact Hd|]. split; [now apply rule_measured|].
    split; [exact Hk|reflexivity].
  - apply countInc_conditions.
  - unfold temps, precips, winds.
    repeat split; apply map_ext; intro d; apply nullish_zeroFilled.
  - destruct daily as [|d0 l] eqn:Ed; [contradiction|]. rewrite <- Ed in *.
    assert (G : getHistoricalData daily (aggregate daily)
                = mkHistorical
                    (map (meanOrZero (meanByMonth meanTemp fallbackTemp daily
                                        (aggregate daily)))
                       (orderedMonths daily (aggregate daily)))
                    (map (meanOrZero (meanByMonth meanPrecip fallbackPrecip
                                        daily (aggregate daily)))
                       (orderedMonths daily (aggregate daily)))
                    (map (meanOrZero (meanByMonth meanWind fallbackWind daily
                                        (aggregate daily)))
                       (orderedMonths daily (aggregate daily)))
                    (extremeEvents (getHistoricalData daily
                                      (aggregate daily))))
      by (rewrite Ed; reflexivity).
    rewrite G. cbn [tempData precipData windData].
    rewrite !chart_of_means by exact Hne. repeat split.
Qed.

Lemma missing_values_witness :
  threeDays <> [] /\
  temps threeDays = [JNum 5; JNum 0; JNum 15] /\
  winds threeDays = [JNum 5; JNum 0; JNum 15] /\
  having temp threeDays
  = [mkDaily (mkDate 2024 0 1) (JNum 5) (JNum 5) (JNum 5);
     mkDaily (mkDate 2024 0 3) (JNum 15) (JNum 15) (JNum 15)] /\
  forall m, In m (aggregate threeDays) ->
    meanTemp m
    = meanOfPresent (map temp (group (month m) (having temp threeDays))).
Proof.
  assert (Hne : threeDays <> []) by discriminate.
  split; [exact Hne|].
  destruct (missing_values "Mumbai, Maharashtra" threeDays Hne)
    as (M & _ & _ & _ & (T & _ & W) & _).
  split; [rewrite T; reflexivity|]. split; [rewrite W; reflexivity|].
  split; [reflexivity|].
  intros m Hm. exact (proj1 (M m Hm)).
Defined.

(** * The weather pattern of the insights *)

(** X16.  The weather pattern of the insights is decided in a fixed order,
    and only when there are more than three temperature readings: Rainy when
    the rainy days are more than a third of the days; else Hot when the
    greatest temperature is 30.05 or more; else Cold when the least
    temperature is below 9.95; else Windy when the mean wind, as the page
    computes it, is 20.05 or more; else Stable.  The thresholds are those of
    the one-decimal texts that are compared.  With three readings or fewer
    the pattern is Stable and the trend Steady.  This holds however the
    sums, quotients and differences of the page round. *)
Theorem weather_pattern_rules (plus divide minus : Q -> Q -> Q)
  (forecast : list DailyRecord) (p : Patterns) (ins : Insights) :
  WeatherPatterns plus divide minus forecast = Some p ->
  WeatherInsights forecast = Some ins ->
  let temps := numbers (map temp forecast) in
  let winds := numbers (map wind forecast) in
  let enough := (3 < List.length temps)%nat in
  let rainy := Z.of_nat (List.length forecast) < 3 * rainyDays ins in
  let hot := exists m, mathMax temps = Some m /\ (30 + (1 # 20) <= m)%Q in
  let cold := exists m, mathMin temps = Some m /\ (m < 10 - (1 # 20))%Q in
  let windy :=
    winds <> [] /\ (20 + (1 # 20) <= averageOf plus divide winds)%Q in
  (weatherPattern p = "Rainy" <-> enough /\ rainy) /\
  (weatherPattern p = "Hot" <-> enough /\ ~ rainy /\ hot) /\
  (weatherPattern p = "Cold" <-> enough /\ ~ rainy /\ ~ hot /\ cold) /\
  (weatherPattern p = "Windy"
   <-> enough /\ ~ rainy /\ ~ hot /\ ~ cold /\ windy) /\
  (weatherPattern p = "Stable"
   <-> ~ enough \/ (~ rainy /\ ~ hot /\ ~ cold /\ ~ windy)) /\
  (~ enough -> tempTrend p = "Steady").
Proof.
  intros Hp Hi temps winds enough rainy hot cold windy.
  unfold WeatherPatterns in Hp. unfold WeatherInsights in Hi.
  destruct forecast as [|d0 rest]; [discriminate|].
  set (forecast := d0 :: rest) in *.
  fold temps winds in Hp.
  assert (Hr : rainyDays ins
               = Z.of_nat (List.length
                   (filter (fun q => Qltb (5 # 10) q)
                      (numbers (map precip forecast)))))
    by (injection Hi as <-; reflexivity).
  clear Hi.
  destruct (3 <? Z.of_nat (List.length temps)) eqn:Hbig.
  - apply Z.ltb_lt in Hbig.
    assert (He : enough) by (unfold enough; lia).
    cbv zeta in Hp. rewrite <- Hr in Hp.
    set (bR := Qltb (inject_Z (Z.of_nat (List.length forecast)) / 3)
                 (inject_Z (rainyDays ins))) in *.
    set (bH := match mathMax temps with
               | Some m => Qltb 30 (fixed1 m)
               | None => false
               end) in *.
    set (bC := match mathMin temps with
               | Some m => Qltb (fixed1 m) 10
               | None => false
               end) in *.
    set (bW := match winds with
               | [] => false
               | _ :: _ => Qltb 20 (fixed1 (averageOf plus divide winds))
               end) in *.
    assert (RR : bR = true <-> rainy) by apply third_lt.
    assert (RH : bH = true <-> hot).
    { unfold bH, hot. destruct (mathMax temps) as [m|].
      - rewrite Qltb_lt. change 30%Q with (inject_Z 30).
        rewrite fixed1_gt by lia. split.
        + intro H. exists m. split; [reflexivity|exact H].
        + intros (m' & [= <-] & H). exact H.
      - split; [discriminate|]. intros (m' & E & _). discriminate. }
    assert (RC : bC = true <-> cold).
    { unfold bC, cold. destruct (mathMin temps) as [m|].
      - rewrite Qltb_lt. change 10%Q with (inject_Z 10).
        rewrite fixed1_lt by lia. split.
        + intro H. exists m. split; [reflexivity|exact H].
        + intros (m' & [= <-] & H). exact H.
      - split; [discriminate|]. intros (m' & E & _). discriminate. }
    assert (RW : bW = true <-> windy).
    { unfold bW, windy. destruct winds as [|w ws] eqn:Ew.
      - split; [discriminate|]. intros [C _]. now contradiction C.
      - rewrite Qltb_lt. change 20%Q with (inject_Z 20).
        rewrite fixed1_gt by lia. split.
        + intro H. split; [discriminate|exact H].
        + intros [_ H]. exact H. }
    injection Hp as <-. cbn [weatherPattern tempTrend].
    assert (T : forall t : string, ~ enough -> t = "Steady")
      by (intros t C; contradiction).
    destruct (decide_by _ _ RR) as [[-> R]|[-> R]];
      [split; [|split; [|split; [|split; [|split; [|apply T]]]]];
       pattern_cases|].
    destruct (decide_by _ _ RH) as [[-> H]|[-> H]];
      [split; [|split; [|split; [|split; [|split; [|apply T]]]]];
       pattern_cases|].
    destruct (decide_by _ _ RC) as [[-> C]|[-> C]];
      [split; [|split; [|split; [|split; [|split; [|apply T]]]]];
       pattern_cases|].
    destruct (decide_by _ _ RW) as [[-> W]|[-> W]];
      (split; [|split; [|split; [|split; [|split; [|apply T]]]]]);
      pattern_cases.
  - apply Z.ltb_ge in Hbig.
    assert (He : ~ enough) by (unfold enough; lia).
    injection Hp as <-. cbn [weatherPattern tempTrend].
    split; [|split; [|split; [|split; [|split; [|reflexivity]]]]];
      pattern_cases.
Qed.

Lemma weather_pattern_rules_witness :
  let forecast :=
    map (fun t => mkDaily (mkDate 2024 0 1) (JNum t) JNull JNull)
      [20; 21; 22; 3004 # 100]%Q in
  exists p ins,
    WeatherPatterns Qplus Qdiv Qminus forecast = Some p /\
    WeatherInsights forecast = Some ins /\
    mathMax (numbers (map temp forecast)) = Some (3004 # 100) /\
    weatherPattern p = "Stable".
Proof.
  intro forecast.
  destruct (WeatherPatterns Qplus Qdiv Qminus forecast) as [p|] eqn:Ep;
    [|discriminate Ep].
  destruct (WeatherInsights forecast) as [ins|] eqn:Ei; [|discriminate Ei].
  exists p, ins. split; [reflexivity|]. split; [reflexivity|].
  split; [reflexivity|].
  apply (proj1 (proj2 (proj2 (proj2 (proj2
           (weather_pattern_rules Qplus Qdiv Qminus forecast p ins
              Ep Ei)))))).
  right.
  assert (Hr : rainyDays ins = 0)
    by (vm_compute in Ei; injection Ei as <-; reflexivity).
  rewrite Hr. split; [simpl; lia|]. split; [|split].
  - intros (m & [= <-] & H). revert H. vm_compute. intro H. now apply H.
  - intros (m & [= <-] & H). revert H. vm_compute. discriminate.
  - intros [H _]. now apply H.
Defined.
